(** * Axon: the design-analysis endpoint and its upload client

    A shallow embedding of [src/app/api/analyze-design/route.ts] (the [POST]
    handler) and of the state transitions of [src/app/page.tsx]
    ([handleFile], the [FileReader] callbacks, [analyzeDesign]).

    JavaScript strings are sequences of 16-bit code units; they are modelled
    as lists of [N].  JavaScript values are the JSON values plus [undefined];
    numbers are IEEE 754 binary64, modelled by Rocq's primitive floats. *)

From Stdlib Require Import String Ascii NArith ZArith Bool List Lia.
From Stdlib Require Import PrimFloat.
Import ListNotations.
Open Scope string_scope.
Open Scope list_scope.

Set Implicit Arguments.
Set Warnings "-register-all".

(* ================================================================== *)
(** * JavaScript strings *)
(* ================================================================== *)

Module JsString.

Definition code_unit := N.
Definition jsstring := list code_unit.

(** A source literal: every character of the literals in the two source
    files that is written here through [lit] is ASCII, so a character is
    its own code unit. *)
Definition lit (s : string) : jsstring :=
  map N_of_ascii (list_ascii_of_string s).

(** A literal that contains quotation marks, written with apostrophes in
    their place (code unit 39 stands for code unit 34). *)
Definition quoted (s : string) : jsstring :=
  map (fun c => if N.eqb c 39 then 34%N else c) (lit s).

(** [a === b] on strings *)
Fixpoint eqb (a b : jsstring) : bool :=
  match a, b with
  | [], [] => true
  | c :: a', d :: b' => N.eqb c d && eqb a' b'
  | _, _ => false
  end.

(** [String.prototype.startsWith(p)] *)
Fixpoint startsWith (s p : jsstring) {struct p} : bool :=
  match p with
  | [] => true
  | c :: p' =>
      match s with
      | [] => false
      | d :: s' => N.eqb c d && startsWith s' p'
      end
  end.

(** [String.prototype.endsWith(p)] *)
Definition endsWith (s p : jsstring) : bool :=
  startsWith (rev s) (rev p).

(** [s.slice(n)] for a non-negative [n] *)
Definition slice_from (n : nat) (s : jsstring) : jsstring := skipn n s.

(** [s.slice(0, -n)]: everything but the last [n] code units (the empty
    string when [s] is shorter than [n]) *)
Definition slice_drop_last (n : nat) (s : jsstring) : jsstring :=
  firstn (length s - n) s.

(** ECMAScript LineTerminator code points *)
Definition is_line_terminator (c : code_unit) : bool :=
  (N.eqb c 10 || N.eqb c 13 || N.eqb c 8232 || N.eqb c 8233)%bool.

(** ECMAScript WhiteSpace and LineTerminator: what [trim] strips and what
    the regular-expression class [\s] matches. *)
Definition is_whitespace (c : code_unit) : bool :=
  (N.eqb c 9 || N.eqb c 11 || N.eqb c 12 || N.eqb c 32 || N.eqb c 160
   || N.eqb c 5760 || (N.leb 8192 c && N.leb c 8202) || N.eqb c 8239
   || N.eqb c 8287 || N.eqb c 12288 || N.eqb c 65279
   || is_line_terminator c)%bool.

Fixpoint dropWhile (f : code_unit -> bool) (s : jsstring) : jsstring :=
  match s with
  | [] => []
  | c :: s' => if f c then dropWhile f s' else s
  end.

Definition trimStart (s : jsstring) : jsstring := dropWhile is_whitespace s.
Definition trimEnd (s : jsstring) : jsstring :=
  rev (dropWhile is_whitespace (rev s)).

(** [String.prototype.trim()] *)
Definition trim (s : jsstring) : jsstring := trimEnd (trimStart s).

End JsString.
Import JsString.

(* ================================================================== *)
(** * JavaScript values *)
(* ================================================================== *)

Inductive value : Type :=
| VUndefined
| VNull
| VBool (b : bool)
| VNumber (x : float)
| VString (s : jsstring)
| VArray (elements : list value)
| VObject (members : list (jsstring * value)).

(** ToBoolean: [undefined], [null], [false], [+0], [-0], [NaN] and the
    empty string are falsy; everything else is truthy. *)
Definition truthy (v : value) : bool :=
  match v with
  | VUndefined | VNull => false
  | VBool b => b
  | VNumber x => negb (PrimFloat.eqb x 0 || negb (PrimFloat.eqb x x))
  | VString s => match s with [] => false | _ => true end
  | VArray _ | VObject _ => true
  end.

(** [a || b] *)
Definition or_else (a b : value) : value := if truthy a then a else b.

(** ** Property access

    The property names the two source files read.  None of them is a
    property of [Object.prototype], [Array.prototype], [String.prototype],
    [Number.prototype] or [Boolean.prototype], none is an array index or
    [length]; so reading one of them from an array, a string, a number or a
    boolean gives [undefined], and reading it from an object built by
    [JSON.parse] gives the own property, if any. *)
Module Key.
Inductive t : Set :=
| imageBase64 | choices | message | content | tokens | prompt
| colors | typography | spacing | animations | elevation | radius
| error | name | hex | headings | body | weights.

Definition name_of (k : t) : jsstring :=
  lit match k with
      | imageBase64 => "imageBase64" | choices => "choices"
      | message => "message" | content => "content"
      | tokens => "tokens" | prompt => "prompt"
      | colors => "colors" | typography => "typography"
      | spacing => "spacing" | animations => "animations"
      | elevation => "elevation" | radius => "radius"
      | error => "error" | name => "name" | hex => "hex"
      | headings => "headings" | body => "body" | weights => "weights"
      end.
End Key.

(** Own property of an object built from a member list in source order:
    [JSON.parse] lets a later duplicate overwrite an earlier one, so the
    last binding of the name is the property's value. *)
Fixpoint lookup (k : jsstring) (members : list (jsstring * value))
  : option value :=
  match members with
  | [] => None
  | (k', v) :: rest =>
      match lookup k rest with
      | Some v' => Some v'
      | None => if JsString.eqb k' k then Some v else None
      end
  end.

Definition own_property (k : jsstring) (members : list (jsstring * value))
  : value :=
  match lookup k members with Some v => v | None => VUndefined end.

(** [v.k]: [None] stands for the TypeError thrown on [undefined] and
    [null]. *)
Definition Get (v : value) (k : Key.t) : option value :=
  match v with
  | VUndefined | VNull => None
  | VObject members => Some (own_property (Key.name_of k) members)
  | VBool _ | VNumber _ | VString _ | VArray _ => Some VUndefined
  end.

(** [v?.k] *)
Definition optional_Get (v : value) (k : Key.t) : value :=
  match Get v k with Some x => x | None => VUndefined end.

(** [v?.[0]] *)
Definition optional_first (v : value) : value :=
  match v with
  | VUndefined | VNull => VUndefined
  | VArray (x :: _) => x
  | VString (c :: _) => VString [c]
  | VObject members => own_property (lit "0") members
  | VArray [] | VString [] | VBool _ | VNumber _ => VUndefined
  end.

(* ================================================================== *)
(** * The two regular expressions of the handler *)
(* ================================================================== *)

Definition semicolon : code_unit := 59%N.
Definition open_brace : code_unit := 123%N.
Definition close_brace : code_unit := 125%N.

Fixpoint takeWhile (f : code_unit -> bool) (s : jsstring) : jsstring :=
  match s with
  | [] => []
  | c :: s' => if f c then c :: takeWhile f s' else []
  end.

Definition strip_prefix (p s : jsstring) : option jsstring :=
  if startsWith s p then Some (skipn (length p) s) else None.

Definition not_semicolon (c : code_unit) : bool := negb (N.eqb c semicolon).
Definition dot (c : code_unit) : bool := negb (is_line_terminator c).
Definition not_open_brace (c : code_unit) : bool :=
  negb (N.eqb c open_brace).
Definition not_close_brace (c : code_unit) : bool :=
  negb (N.eqb c close_brace).

(** [s.match(/^data:(image\/[^;]+);base64,(.+)$/)], giving the two groups.
    [[^;]+] cannot run over a semicolon and must be followed by one, so
    group 1 ends at the first semicolon after [image/] and holds at least
    one code unit after the slash; [(.+)$] is the whole rest, which must be
    non-empty and free of line terminators. *)
Definition match_data_url (s : jsstring) : option (jsstring * jsstring) :=
  match strip_prefix (lit "data:image/") s with
  | None => None
  | Some rest =>
      let subtype := takeWhile not_semicolon rest in
      match subtype with
      | [] => None
      | _ :: _ =>
          match strip_prefix (lit ";base64,")
                             (dropWhile not_semicolon rest) with
          | None => None
          | Some payload =>
              match payload with
              | [] => None
              | _ :: _ =>
                  if forallb dot payload
                  then Some (lit "image/" ++ subtype, payload)
                  else None
              end
          end
      end
  end.

(** [s.match(/\{[\s\S]*\}/)], giving [jsonMatch[0]].  The match starts at
    the leftmost opening brace that has a closing brace after it; no later
    opening brace has one if the first has none.  The star is greedy, so
    the match ends at the last closing brace. *)
Definition match_braces (s : jsstring) : option jsstring :=
  match dropWhile not_open_brace s with
  | [] => None
  | first :: rest =>
      match dropWhile not_close_brace (rev rest) with
      | [] => None
      | last :: before => Some (first :: rev (last :: before))
      end
  end.

(* ================================================================== *)
(** * The analysis endpoint: [route.ts] *)
(* ================================================================== *)

(** What [NextResponse.json(body, { status })] builds. *)
Record NextResponse : Type := mkNextResponse {
  status : Z;
  body : value
}.

Definition NextResponse_json (b : value) (st : Z) : NextResponse :=
  {| status := st; body := b |}.

Definition error_body (msg : string) : value :=
  VObject [(lit "error", VString (lit msg))].

(** The incoming request: the outcome of [await request.json()], [None]
    when the promise rejects (the body is not JSON). *)
Record NextRequest : Type := mkNextRequest {
  request_json : option value
}.

(** The provider's reply as the handler reads it: the status line, the
    outcome of [text()] and the outcome of [json()] ([None] when the body
    is not JSON).  The reply is one that has arrived in full: reading its
    body does not fail. *)
Record Response : Type := mkResponse {
  response_status : Z;
  response_text : jsstring;
  response_json : option value
}.

(** [response.ok]: a status in the range 200-299 *)
Definition ok (r : Response) : bool :=
  ((200 <=? response_status r) && (response_status r <=? 299))%Z.

(** The arguments of the one [fetch] call of the handler. *)
Record FetchCall : Type := mkFetchCall {
  fetch_url : jsstring;
  fetch_method : jsstring;
  fetch_headers : list (jsstring * jsstring);
  fetch_body : value      (* the argument of [JSON.stringify] *)
}.

Inductive FetchOutcome : Type :=
| NetworkError                (* the promise rejects *)
| Responded (r : Response).

(** One entry per [console.error] call site, with the values it prints
    (a caught exception object is not a value and is left out). *)
Inductive LogEntry : Type :=
| LogKeyNotConfigured
| LogProviderError (st : Z) (errorText : jsstring)
| LogNoContent (perplexityData : value)
| LogParseFailure (content : value)
| LogInvalidStructure (analysisResult : value)
| LogUnexpected.

(** What a run of the handler can touch outside its own variables. *)
Record World : Type := mkWorld {
  console : list LogEntry;
  outbound : list FetchCall
}.

(** ** The handler monad: state, exceptions and early [return] *)

Inductive Outcome (A : Type) : Type :=
| Normal (a : A)
| Returned (r : NextResponse)
| Thrown.
Arguments Normal {A} a.
Arguments Returned {A} r.
Arguments Thrown {A}.

Definition Handler (A : Type) : Type := World -> Outcome A * World.

Definition ret {A} (a : A) : Handler A := fun w => (Normal a, w).

Definition bind {A B} (m : Handler A) (k : A -> Handler B) : Handler B :=
  fun w =>
    match m w with
    | (Normal a, w') => k a w'
    | (Returned r, w') => (Returned r, w')
    | (Thrown, w') => (Thrown, w')
    end.

Declare Scope handler_scope.
Delimit Scope handler_scope with handler.
Notation "x <- m ;; k" := (bind m (fun x => k))
  (at level 61, m at next level, right associativity) : handler_scope.
Notation "m ;; k" := (bind m (fun _ => k))
  (at level 61, right associativity) : handler_scope.

(** [return r;] *)
Definition return_ {A} (r : NextResponse) : Handler A :=
  fun w => (Returned r, w).

(** [throw] *)
Definition throw {A} : Handler A := fun w => (Thrown, w).

(** [if (c) { m }] where [m] ends in [return] *)
Definition when_ (c : bool) (m : Handler unit) : Handler unit :=
  if c then m else ret tt.

(** [try { m } catch { h }] *)
Definition try_catch {A} (m h : Handler A) : Handler A :=
  fun w =>
    match m w with
    | (Thrown, w') => h w'
    | other => other
    end.

(** A value an expression may fail to have *)
Definition or_throw {A} (o : option A) : Handler A :=
  match o with Some a => ret a | None => throw end.

(** The receiver of a [String.prototype] method call: on any other truthy
    value the method is [undefined] and the call throws a TypeError. *)
Definition string_receiver (v : value) : Handler jsstring :=
  match v with VString s => ret s | _ => throw end.

Definition console_error (e : LogEntry) : Handler unit :=
  fun w => (Normal tt, {| console := console w ++ [e];
                          outbound := outbound w |}).

(** ** The handler *)

Definition supportedFormats : list jsstring :=
  [lit "image/png"; lit "image/jpeg"; lit "image/jpg"; lit "image/webp";
   lit "image/gif"].

(** [Array.prototype.includes] on an array of strings *)
Definition includes (l : list jsstring) (s : jsstring) : bool :=
  existsb (JsString.eqb s) l.

Definition strings (l : list string) : value :=
  VArray (map (fun s => VString (lit s)) l).

Definition default_colors : value := VArray [].
Definition default_typography : value :=
  VObject [(lit "headings", VString (lit "Sans-serif, semi-bold"));
           (lit "body", VString (lit "Sans-serif, regular"));
           (lit "weights", strings ["400"; "600"])].
Definition default_spacing : value :=
  strings ["4px"; "8px"; "16px"; "24px"; "32px"].
Definition default_animations : value := VArray [].
Definition default_elevation : value := VArray [].
Definition default_radius : value := strings ["4px"; "8px"; "12px"].

(** [t.k || d]; [None] when reading the property throws *)
Definition field_or (t : value) (k : Key.t) (d : value) : option value :=
  match Get t k with
  | Some v => Some (or_else v d)
  | None => None
  end.

(** The object literal of lines 222-233, [t] being
    [analysisResult.tokens]. *)
Definition normalizeTokens (t : value) : option value :=
  match field_or t Key.colors default_colors,
        field_or t Key.typography default_typography,
        field_or t Key.spacing default_spacing,
        field_or t Key.animations default_animations,
        field_or t Key.elevation default_elevation,
        field_or t Key.radius default_radius with
  | Some c, Some ty, Some sp, Some an, Some el, Some ra =>
      Some (VObject [(lit "colors", c); (lit "typography", ty);
                     (lit "spacing", sp); (lit "animations", an);
                     (lit "elevation", el); (lit "radius", ra)])
  | _, _, _, _, _, _ => None
  end.

(** Lines 187-198: the fence is taken off both ends and the rest
    trimmed. *)
Definition strip_fences (content : jsstring) : jsstring :=
  let c0 := trim content in
  let c1 := if startsWith c0 (lit "```json") then slice_from 7 c0
            else if startsWith c0 (lit "```") then slice_from 3 c0
            else c0 in
  let c2 := if endsWith c1 (lit "```") then slice_drop_last 3 c1 else c1 in
  trim c2.

(** Lines 201-204: the brace span, when there is one. *)
Definition extract_json (c : jsstring) : jsstring :=
  match match_braces c with
  | Some jsonMatch => jsonMatch
  | None => c
  end.

(** The text handed to [JSON.parse] on line 206. *)
Definition cleanContent (content : jsstring) : jsstring :=
  extract_json (strip_fences content).

(** What the handler takes from outside its own file. *)
Record Environment : Type := mkEnvironment {
  (** [JSON.parse]: [None] stands for the SyntaxError. *)
  JSON_parse : jsstring -> option value;
  (** The instruction text (the two versions of [route.ts] differ in it
      only). *)
  SYSTEM_PROMPT : jsstring;
  (** [process.env.PERPLEXITY_API_KEY] *)
  PERPLEXITY_API_KEY : option jsstring;
  (** The network: what the provider answers to a call. *)
  provider : FetchCall -> FetchOutcome
}.

Section Endpoint.

Variable env : Environment.

Definition fetch (c : FetchCall) : Handler Response :=
  fun w =>
    let w' := {| console := console w; outbound := outbound w ++ [c] |} in
    match provider env c with
    | NetworkError => (Thrown, w')
    | Responded r => (Normal r, w')
    end.

Definition completion_request (apiKey imageBase64 : jsstring) : FetchCall :=
  {| fetch_url := lit "https://api.perplexity.ai/chat/completions";
     fetch_method := lit "POST";
     fetch_headers :=
       [(lit "Authorization", lit "Bearer " ++ apiKey);
        (lit "Content-Type", lit "application/json")];
     fetch_body :=
       VObject
         [(lit "model", VString (lit "sonar-pro"));
          (lit "stream", VBool false);
          (lit "messages",
           VArray
             [VObject [(lit "role", VString (lit "system"));
                       (lit "content", VString (SYSTEM_PROMPT env))];
              VObject
                [(lit "role", VString (lit "user"));
                 (lit "content",
                  VArray
                    [VObject
                       [(lit "type", VString (lit "text"));
                        (lit "text",
                         VString (lit "Analyze this UI design screenshot and extract the design tokens. Return only valid JSON."))];
                     VObject
                       [(lit "type", VString (lit "image_url"));
                        (lit "image_url",
                         VObject [(lit "url", VString imageBase64)])]])]]);
          (lit "max_tokens", VNumber 4096);
          (lit "temperature", VNumber 0x1.999999999999ap-3)] |}.

Local Open Scope handler_scope.

(** Lines 215-238: the structure check, the defaults, the answer. *)
Definition validate_and_respond (analysisResult : value)
  : Handler NextResponse :=
  tokens <- or_throw (Get analysisResult Key.tokens) ;;
  prompt <- or_throw (Get analysisResult Key.prompt) ;;
  when_ (negb (truthy tokens) || negb (truthy prompt))
    (console_error (LogInvalidStructure analysisResult) ;;
     return_ (NextResponse_json
       (error_body "AI response missing required fields. Please try again.")
       500)) ;;
  tokens' <- or_throw (normalizeTokens tokens) ;;
  ret (NextResponse_json
         (VObject [(lit "tokens", tokens'); (lit "prompt", prompt)]) 200).

(** Lines 152-172: a reply that is not [ok]. *)
Definition provider_failure (perplexityResponse : Response)
  : Handler unit :=
  let errorText := response_text perplexityResponse in
  console_error
    (LogProviderError (response_status perplexityResponse) errorText) ;;
  when_ (response_status perplexityResponse =? 401)%Z
    (return_ (NextResponse_json
       (error_body "Invalid API key. Please check your PERPLEXITY_API_KEY.")
       401)) ;;
  when_ (response_status perplexityResponse =? 429)%Z
    (return_ (NextResponse_json
       (error_body "Rate limit exceeded. Please try again in a moment.")
       429)) ;;
  when_ (response_status perplexityResponse =? 400)%Z
    (return_ (NextResponse_json
       (error_body "Invalid request. The image may be too large (max 50MB) or in an unsupported format.")
       400)) ;;
  return_ (NextResponse_json
    (error_body "Failed to analyze design. Please try again.") 500).

(** [perplexityData.choices?.[0]?.message?.content]; [None] when reading
    [choices] throws. *)
Definition reply_content (perplexityData : value) : option value :=
  match Get perplexityData Key.choices with
  | Some choices =>
      Some (optional_Get (optional_Get (optional_first choices) Key.message)
                         Key.content)
  | None => None
  end.

(** Lines 152-238: what the handler does with the provider's reply. *)
Definition handle_reply (perplexityResponse : Response)
  : Handler NextResponse :=
  when_ (negb (ok perplexityResponse))
    (provider_failure perplexityResponse) ;;
  perplexityData <- or_throw (response_json perplexityResponse) ;;
  content <- or_throw (reply_content perplexityData) ;;
  when_ (negb (truthy content))
    (console_error (LogNoContent perplexityData) ;;
     return_ (NextResponse_json
       (error_body "No analysis received from AI. Please try again.") 500)) ;;
  analysisResult <-
    try_catch
      (text <- string_receiver content ;;
       or_throw (JSON_parse env (cleanContent text)))
      (console_error (LogParseFailure content) ;;
       return_ (NextResponse_json
         (error_body "Failed to parse AI response. The model returned invalid JSON. Please try again.")
         500)) ;;
  validate_and_respond analysisResult.

(** The body of the outer [try] block, lines 77-238. *)
Definition POST_try (request : NextRequest) : Handler NextResponse :=
  body <- or_throw (request_json request) ;;
  imageBase64 <- or_throw (Get body Key.imageBase64) ;;
  when_ (negb (truthy imageBase64))
    (return_ (NextResponse_json
       (error_body "No image provided. Please upload an image.") 400)) ;;
  image <- string_receiver imageBase64 ;;
  when_ (negb (startsWith image (lit "data:image/")))
    (return_ (NextResponse_json
       (error_body "Invalid image format. Please upload a valid image file.")
       400)) ;;
  apiKey <- match PERPLEXITY_API_KEY env with
            | Some (c :: k) => ret (c :: k)
            | Some [] | None =>
                console_error LogKeyNotConfigured ;;
                return_ (NextResponse_json
                  (error_body "API key not configured. Please set PERPLEXITY_API_KEY in your environment.")
                  500)
            end ;;
  matches <- match match_data_url image with
             | Some groups => ret groups
             | None =>
                 return_ (NextResponse_json
                   (error_body "Invalid image data format.") 400)
             end ;;
  let mimeType := fst matches in
  when_ (negb (includes supportedFormats mimeType))
    (return_ (NextResponse_json
       (error_body "Unsupported image format. Please use PNG, JPEG, WEBP, or GIF.")
       400)) ;;
  perplexityResponse <- fetch (completion_request apiKey image) ;;
  handle_reply perplexityResponse.

(** [POST]: the [try] block and the [catch] of lines 239-242. *)
Definition POST (request : NextRequest) (w : World) : NextResponse * World :=
  match POST_try request w with
  | (Normal r, w') => (r, w')
  | (Returned r, w') => (r, w')
  | (Thrown, w') =>
      (NextResponse_json
         (error_body "An unexpected error occurred. Please try again.") 500,
       {| console := console w' ++ [LogUnexpected];
          outbound := outbound w' |})
  end.

End Endpoint.

(* ================================================================== *)
(** * A reference [JSON.parse]

    The handler is parametric in [JSON.parse]; this executable parser
    instantiates it in the examples.  It follows the JSON grammar
    (ECMA-404) on code units.  A number is converted only where one
    correctly rounded binary64 operation gives the exact answer (at most
    2^53 for the digits taken as an integer, a power of ten up to 10^22);
    outside that range, and beyond the nesting depth its fuel allows, it
    answers [None]. *)
(* ================================================================== *)

Module JsonRef.

Local Open Scope N_scope.

Definition is_json_ws (c : code_unit) : bool :=
  (c =? 9) || (c =? 10) || (c =? 13) || (c =? 32).

Definition skip_ws (s : jsstring) : jsstring := dropWhile is_json_ws s.

Definition is_digit (c : code_unit) : bool := (48 <=? c) && (c <=? 57).

Definition hex_digit (c : code_unit) : option N :=
  if (48 <=? c) && (c <=? 57) then Some (c - 48)
  else if (97 <=? c) && (c <=? 102) then Some (c - 87)
  else if (65 <=? c) && (c <=? 70) then Some (c - 55)
  else None.

Definition hex4 (a b c d : code_unit) : option code_unit :=
  match hex_digit a, hex_digit b, hex_digit c, hex_digit d with
  | Some x, Some y, Some z, Some t => Some (((x * 16 + y) * 16 + z) * 16 + t)
  | _, _, _, _ => None
  end.

Definition escape (c : code_unit) : option code_unit :=
  if c =? 34 then Some 34          (* quotation mark *)
  else if c =? 92 then Some 92     (* reverse solidus *)
  else if c =? 47 then Some 47     (* solidus *)
  else if c =? 98 then Some 8      (* b *)
  else if c =? 102 then Some 12    (* f *)
  else if c =? 110 then Some 10    (* n *)
  else if c =? 114 then Some 13    (* r *)
  else if c =? 116 then Some 9     (* t *)
  else None.

Definition cons_char (c : code_unit) (r : option (jsstring * jsstring))
  : option (jsstring * jsstring) :=
  match r with
  | Some (s, rest) => Some (c :: s, rest)
  | None => None
  end.

(** The characters of a string, after its opening quotation mark. *)
Fixpoint parse_chars (s : jsstring) : option (jsstring * jsstring) :=
  match s with
  | [] => None
  | c :: rest =>
      if c =? 34 then Some ([], rest)
      else if c =? 92 then
        match rest with
        | [] => None
        | e :: rest1 =>
            if e =? 117 then
              match rest1 with
              | a :: b :: c' :: d :: rest2 =>
                  match hex4 a b c' d with
                  | Some u => cons_char u (parse_chars rest2)
                  | None => None
                  end
              | _ => None
              end
            else
              match escape e with
              | Some u => cons_char u (parse_chars rest1)
              | None => None
              end
        end
      else if c <? 32 then None
      else cons_char c (parse_chars rest)
  end.

Definition digits_value (ds : jsstring) : N :=
  fold_left (fun acc d => acc * 10 + (d - 48)) ds 0.

Fixpoint float_of_positive (p : positive) : float :=
  match p with
  | xH => 1%float
  | xO q => (2 * float_of_positive q)%float
  | xI q => (2 * float_of_positive q + 1)%float
  end.

Definition float_of_N (n : N) : float :=
  match n with
  | N0 => 0%float
  | Npos p => float_of_positive p
  end.

(** mantissa * 10^exponent, when the fast path is exact *)
Definition decimal_to_float (negative : bool) (mantissa : N) (exponent : Z)
  : option float :=
  if (mantissa <=? 2 ^ 53) && (Z.abs exponent <=? 22)%Z then
    let m := float_of_N mantissa in
    let p := float_of_N (10 ^ Z.to_N (Z.abs exponent)) in
    let x := if (0 <=? exponent)%Z then (m * p)%float else (m / p)%float in
    Some (if negative then (- x)%float else x)
  else None.

Definition parse_number (s : jsstring) : option (value * jsstring) :=
  let (negative, s1) :=
    match s with
    | c :: r => if c =? 45 then (true, r) else (false, s)
    | [] => (false, s)
    end in
  let int := takeWhile is_digit s1 in
  let s2 := dropWhile is_digit s1 in
  match int with
  | [] => None
  | d :: more =>
      if (d =? 48) && negb (Nat.eqb (length more) 0) then None
      else
        let fraction :=
          match s2 with
          | c :: r =>
              if c =? 46
              then Some (takeWhile is_digit r, dropWhile is_digit r)
              else Some ([], s2)
          | [] => Some ([], s2)
          end in
        match fraction with
        | None => None
        | Some (frac, s3) =>
            if match s2 with
               | c :: _ => (c =? 46) && Nat.eqb (length frac) 0
               | [] => false
               end
            then None
            else
              let exponent :=
                match s3 with
                | c :: r =>
                    if (c =? 101) || (c =? 69) then
                      let (minus, r') :=
                        match r with
                        | sg :: r1 =>
                            if sg =? 45 then (true, r1)
                            else if sg =? 43 then (false, r1)
                            else (false, r)
                        | [] => (false, r)
                        end in
                      match takeWhile is_digit r' with
                      | [] => None
                      | ds =>
                          let e := Z.of_N (digits_value ds) in
                          Some (if minus then (- e)%Z else e,
                                dropWhile is_digit r')
                      end
                    else Some (0%Z, s3)
                | [] => Some (0%Z, s3)
                end in
              match exponent with
              | None => None
              | Some (e, s4) =>
                  match decimal_to_float negative
                          (digits_value (int ++ frac))
                          (e - Z.of_nat (length frac)) with
                  | Some x => Some (VNumber x, s4)
                  | None => None
                  end
              end
        end
  end.

Section Composite.

Variable parse_value : jsstring -> option (value * jsstring).

(** The elements of an array, after one element has been announced. *)
Fixpoint parse_elements (fuel : nat) (s : jsstring)
  : option (list value * jsstring) :=
  match fuel with
  | O => None
  | S fuel' =>
      match parse_value s with
      | None => None
      | Some (v, rest) =>
          match skip_ws rest with
          | c :: rest' =>
              if c =? 93 then Some ([v], rest')
              else if c =? 44 then
                match parse_elements fuel' rest' with
                | Some (vs, rest'') => Some (v :: vs, rest'')
                | None => None
                end
              else None
          | [] => None
          end
      end
  end.

(** The members of an object, after one member has been announced. *)
Fixpoint parse_members (fuel : nat) (s : jsstring)
  : option (list (jsstring * value) * jsstring) :=
  match fuel with
  | O => None
  | S fuel' =>
      match skip_ws s with
      | q :: s1 =>
          if q =? 34 then
            match parse_chars s1 with
            | None => None
            | Some (k, s2) =>
                match skip_ws s2 with
                | colon :: s3 =>
                    if colon =? 58 then
                      match parse_value s3 with
                      | None => None
                      | Some (v, rest) =>
                          match skip_ws rest with
                          | c :: rest' =>
                              if c =? 125 then Some ([(k, v)], rest')
                              else if c =? 44 then
                                match parse_members fuel' rest' with
                                | Some (ms, rest'') =>
                                    Some ((k, v) :: ms, rest'')
                                | None => None
                                end
                              else None
                          | [] => None
                          end
                      end
                    else None
                | [] => None
                end
            end
          else None
      | [] => None
      end
  end.

End Composite.

Definition expect (word : string) (v : value) (s : jsstring)
  : option (value * jsstring) :=
  match strip_prefix (lit word) s with
  | Some rest => Some (v, rest)
  | None => None
  end.

Fixpoint parse_value (fuel : nat) (s : jsstring)
  : option (value * jsstring) :=
  match fuel with
  | O => None
  | S fuel' =>
      match skip_ws s with
      | [] => None
      | c :: rest =>
          if c =? 34 then
            match parse_chars rest with
            | Some (str, rest') => Some (VString str, rest')
            | None => None
            end
          else if c =? 91 then
            match skip_ws rest with
            | c' :: rest' =>
                if c' =? 93 then Some (VArray [], rest')
                else
                  match parse_elements (parse_value fuel')
                                       (length rest) rest with
                  | Some (vs, rest'') => Some (VArray vs, rest'')
                  | None => None
                  end
            | [] => None
            end
          else if c =? 123 then
            match skip_ws rest with
            | c' :: rest' =>
                if c' =? 125 then Some (VObject [], rest')
                else
                  match parse_members (parse_value fuel')
                                      (length rest) rest with
                  | Some (ms, rest'') => Some (VObject ms, rest'')
                  | None => None
                  end
            | [] => None
            end
          else if c =? 116 then expect "true" (VBool true) (c :: rest)
          else if c =? 102 then expect "false" (VBool false) (c :: rest)
          else if c =? 110 then expect "null" VNull (c :: rest)
          else parse_number (c :: rest)
      end
  end.

(** Nesting depth the reference parser follows. *)
Definition depth : nat := 64.

Definition JSON_parse (s : jsstring) : option value :=
  match parse_value depth s with
  | Some (v, rest) =>
      match skip_ws rest with
      | [] => Some v
      | _ :: _ => None
      end
  | None => None
  end.

End JsonRef.

(* ================================================================== *)
(** * The upload client: [page.tsx] *)
(* ================================================================== *)

(** The [useState] cells of [Home]. *)
Record AppState : Type := mkAppState {
  image : option jsstring;
  fileName : jsstring;
  isLoading : bool;
  error : option jsstring;
  result : option value;
  isDragging : bool;
  copied : bool
}.

Definition setImage (x : option jsstring) (st : AppState) : AppState :=
  {| image := x; fileName := fileName st; isLoading := isLoading st;
     error := error st; result := result st; isDragging := isDragging st;
     copied := copied st |}.
Definition setFileName (x : jsstring) (st : AppState) : AppState :=
  {| image := image st; fileName := x; isLoading := isLoading st;
     error := error st; result := result st; isDragging := isDragging st;
     copied := copied st |}.
Definition setIsLoading (x : bool) (st : AppState) : AppState :=
  {| image := image st; fileName := fileName st; isLoading := x;
     error := error st; result := result st; isDragging := isDragging st;
     copied := copied st |}.
Definition setError (x : option jsstring) (st : AppState) : AppState :=
  {| image := image st; fileName := fileName st; isLoading := isLoading st;
     error := x; result := result st; isDragging := isDragging st;
     copied := copied st |}.
Definition setResult (x : option value) (st : AppState) : AppState :=
  {| image := image st; fileName := fileName st; isLoading := isLoading st;
     error := error st; result := x; isDragging := isDragging st;
     copied := copied st |}.

(** What [handleFile] reads of a [File]. *)
Record File : Type := mkFile {
  file_name : jsstring;
  file_type : jsstring;
  file_size : N
}.

Definition clientFormats : list jsstring :=
  [lit "image/png"; lit "image/jpeg"; lit "image/webp"; lit "image/gif"].

Definition maxFileSize : N := 50 * 1024 * 1024.

(** [handleFile], up to the call of [reader.readAsDataURL]: the new state
    and whether the read was started. *)
Definition handleFile (file : File) (st : AppState) : AppState * bool :=
  if negb (includes clientFormats (file_type file)) then
    (setError
       (Some (lit "Please upload a supported image file (PNG, JPG, WEBP, GIF)"))
       st, false)
  else if (maxFileSize <? file_size file)%N then
    (setError (Some (lit "Image must be less than 50MB")) st, false)
  else
    (setResult None (setError None (setFileName (file_name file) st)), true).

(** [reader.onload] *)
Definition reader_onload (base64 : jsstring) (st : AppState) : AppState :=
  setImage (Some base64) st.

(** [reader.onerror] *)
Definition reader_onerror (st : AppState) : AppState :=
  setError (Some (lit "Failed to read the image file")) st.

Inductive ReadOutcome : Type :=
| ReadLoaded (dataUrl : jsstring)
| ReadFailed.

(** [handleFile] followed by the callback the reader fires. *)
Definition acceptFile (file : File) (read : ReadOutcome) (st : AppState)
  : AppState :=
  let (st1, reading) := handleFile file st in
  if reading then
    match read with
    | ReadLoaded dataUrl => reader_onload dataUrl st1
    | ReadFailed => reader_onerror st1
    end
  else st1.

(** [resetUpload] *)
Definition resetUpload (st : AppState) : AppState :=
  setError None (setResult None (setFileName [] (setImage None st))).

(** The outcome of [response.json()] in the browser: the message of the
    error it rejects with, or the value. *)
Inductive JsonOutcome : Type :=
| JsonRejected (message : jsstring)
| JsonResolved (v : value).

(** The outcome of the browser's [fetch]. *)
Inductive ClientFetch : Type :=
| FetchRejected (message : jsstring)
| FetchResolved (st : Z) (json : JsonOutcome).

Section Client.

(** ToString of a value that is not a string (the message of
    [new Error(v)]). *)
Variable ToString : value -> jsstring.
(** The message of the TypeError thrown by reading a property of
    [null]. *)
Variable null_read_message : jsstring.
(** The route [/api/analyze-design], from the JSON value posted to it. *)
Variable endpoint : value -> ClientFetch.

Definition Error_message (v : value) : jsstring :=
  match v with
  | VString s => s
  | _ => ToString v
  end.

(** [analyzeDesign]; every exception thrown inside its [try] is an
    [Error], so the [catch] stores its message. *)
Definition analyzeDesign (st : AppState) : AppState :=
  match image st with
  | None | Some [] => st
  | Some img =>
      let st1 := setError None (setIsLoading true st) in
      let st2 :=
        match endpoint (VObject [(lit "imageBase64", VString img)]) with
        | FetchRejected m => setError (Some m) st1
        | FetchResolved code json =>
            if negb ((200 <=? code) && (code <=? 299))%Z then
              match json with
              | JsonRejected m => setError (Some m) st1
              | JsonResolved errorData =>
                  match Get errorData Key.error with
                  | None => setError (Some null_read_message) st1
                  | Some e =>
                      setError
                        (Some (Error_message
                                 (or_else e
                                    (VString (lit "Failed to analyze design")))))
                        st1
                  end
              end
            else
              match json with
              | JsonRejected m => setError (Some m) st1
              | JsonResolved data => setResult (Some data) st1
              end
        end in
      setIsLoading false st2
  end.

End Client.

(** The text of the error banner, [{error && <div>...</div>}]: the
    warning sign (U+26A0 U+FE0F), a space, the error. *)
Definition errorBanner (st : AppState) : option jsstring :=
  match error st with
  | Some (c :: m) => Some ([9888; 65039; 32]%N ++ c :: m)
  | Some [] | None => None
  end.

(** ** JSON on the wire

    Between the two files a value travels as JSON text: the client posts
    [JSON.stringify({ imageBase64 })] and reads the answer with
    [response.json()], and [NextResponse.json] sends
    [JSON.stringify(body)].  [through_JSON v] is [JSON.parse] of
    [JSON.stringify] of [v].

    A finite number is written with the digits that read back as the same
    binary64, except that [-0] is written [0]; [NaN] and the infinities
    are written [null].  A string reads back unit for unit.  In an array
    [undefined] is written [null]; in an object a member whose value is
    [undefined] is left out.  A member list here can bind a name more than
    once, the last binding being the property (see [lookup]): the text has
    that property once. *)
Definition number_through_JSON (x : float) : value :=
  if negb (PrimFloat.eqb x x) || PrimFloat.eqb (PrimFloat.abs x) infinity
  then VNull
  else if PrimFloat.eqb x 0 then VNumber 0
  else VNumber x.

Fixpoint through_JSON (v : value) : value :=
  match v with
  | VUndefined => VUndefined
  | VNull => VNull
  | VBool b => VBool b
  | VNumber x => number_through_JSON x
  | VString s => VString s
  | VArray elements =>
      VArray (map (fun x => match x with
                            | VUndefined => VNull
                            | _ => through_JSON x
                            end) elements)
  | VObject members =>
      VObject
        ((fix members_through_JSON (ms : list (jsstring * value))
            : list (jsstring * value) :=
            match ms with
            | [] => []
            | (k, x) :: rest =>
                match lookup k rest with
                | Some _ => members_through_JSON rest
                | None =>
                    match x with
                    | VUndefined => members_through_JSON rest
                    | _ => (k, through_JSON x) :: members_through_JSON rest
                    end
                end
            end) members)
  end.

(** The element of an array and the members of an object, as
    [through_JSON] maps them. *)
Definition element_through_JSON (x : value) : value :=
  match x with
  | VUndefined => VNull
  | _ => through_JSON x
  end.

Fixpoint members_through_JSON (ms : list (jsstring * value))
  : list (jsstring * value) :=
  match ms with
  | [] => []
  | (k, x) :: rest =>
      match lookup k rest with
      | Some _ => members_through_JSON rest
      | None =>
          match x with
          | VUndefined => members_through_JSON rest
          | _ => (k, through_JSON x) :: members_through_JSON rest
          end
      end
  end.

(** The route as the browser sees it, served by [POST] in world [w].  The
    value the client posts reaches [request.json()] through JSON; with
    nothing to send ([JSON.stringify(undefined)]) the request has no body
    and [request.json()] rejects.  The status of the [NextResponse] is what
    the client's [fetch] yields, and its body reaches [response.json()]
    through JSON.  (The handler hands [NextResponse.json] an object on
    every path, so the case of a body that cannot be written does not
    arise.) *)
Definition served (env : Environment) (w : World) (posted : value)
  : ClientFetch :=
  let request :=
    {| request_json := match posted with
                       | VUndefined => None
                       | _ => Some (through_JSON posted)
                       end |} in
  let r := fst (POST env request w) in
  FetchResolved (status r) (JsonResolved (through_JSON (body r))).


(* ================================================================== *)
(** * Vocabulary of the properties *)
(* ================================================================== *)

Definition newline : code_unit := 10%N.

(** A text wrapped in a fenced code block with the language tag [json] *)
Definition fence_json (t : jsstring) : jsstring :=
  lit "```json" ++ [newline] ++ t ++ [newline] ++ lit "```".

(** A text wrapped in a fenced code block with no language tag *)
Definition fence_plain (t : jsstring) : jsstring :=
  lit "```" ++ [newline] ++ t ++ [newline] ++ lit "```".

(** The text of a JSON object: an opening brace, members, a closing
    brace. *)
Definition brace_delimited (t : jsstring) : Prop :=
  exists mid, t = open_brace :: mid ++ [close_brace].

(** The world after a [console.error] and after a [fetch]. *)
Definition log (e : LogEntry) (w : World) : World :=
  {| console := console w ++ [e]; outbound := outbound w |}.

Definition called (c : FetchCall) (w : World) : World :=
  {| console := console w; outbound := outbound w ++ [c] |}.

(** The answers of the handler that the properties name. *)
Definition missing_fields : NextResponse :=
  NextResponse_json
    (error_body "AI response missing required fields. Please try again.") 500.

Definition parse_failure : NextResponse :=
  NextResponse_json
    (error_body "Failed to parse AI response. The model returned invalid JSON. Please try again.")
    500.

Definition success (tokens' prompt : value) : NextResponse :=
  NextResponse_json
    (VObject [(lit "tokens", tokens'); (lit "prompt", prompt)]) 200.

Section Runs.

Variable env : Environment.

(** The request passes the checks of lines 82-114 with the data URL
    [image]. *)
Definition accepted (request : NextRequest) (image : jsstring) : Prop :=
  exists body mimeType payload,
    request_json request = Some body /\
    Get body Key.imageBase64 = Some (VString image) /\
    match_data_url image = Some (mimeType, payload) /\
    includes supportedFormats mimeType = true.

(** The run for [request] calls the provider and gets the reply
    [reply]. *)
Definition replied (request : NextRequest) (reply : Response) : Prop :=
  exists image apiKey,
    accepted request image /\
    PERPLEXITY_API_KEY env = Some apiKey /\ apiKey <> [] /\
    provider env (completion_request env apiKey image)
    = Responded reply.

(** The run for [request] gets a successful reply whose content is the
    non-empty string [text]. *)
Definition replied_text (request : NextRequest) (text : jsstring) : Prop :=
  exists reply perplexityData,
    replied request reply /\
    ok reply = true /\
    response_json reply = Some perplexityData /\
    reply_content perplexityData = Some (VString text) /\
    text <> [].

(** The run for [request] reaches the structure check of line 216 with
    [analysisResult], the value [JSON.parse] gave on line 206. *)
Definition parsed (request : NextRequest) (analysisResult : value) : Prop :=
  exists text,
    replied_text request text /\
    JSON_parse env (cleanContent text) = Some analysisResult.

End Runs.

Definition unexpected_error : NextResponse :=
  NextResponse_json
    (error_body "An unexpected error occurred. Please try again.") 500.

(** The response of [POST] from the outcome of its [try] block. *)
Definition answer (o : Outcome NextResponse) : NextResponse :=
  match o with
  | Normal r => r
  | Returned r => r
  | Thrown => unexpected_error
  end.

(** A computation whose outcome does not depend on the world it starts
    in (the console and the record of earlier calls). *)
Definition oblivious {A} (m : Handler A) : Prop :=
  forall w1 w2, fst (m w1) = fst (m w2).

(** ** Requests and data URLs *)

(** [data:<mime>;base64,<payload>] *)
Definition data_url (mime payload : jsstring) : jsstring :=
  lit "data:" ++ mime ++ lit ";base64," ++ payload.

(** The MIME type carries no parameter and the payload is one non-empty
    line. *)
Definition well_formed_data_url (mime payload : jsstring) : Prop :=
  forallb not_semicolon mime = true /\
  payload <> [] /\
  forallb dot payload = true.

(** [!!process.env.PERPLEXITY_API_KEY] *)
Definition configured (env : Environment) : bool :=
  match PERPLEXITY_API_KEY env with
  | Some (_ :: _) => true
  | Some [] | None => false
  end.

Definition invalid_image_format : NextResponse :=
  NextResponse_json
    (error_body "Invalid image format. Please upload a valid image file.")
    400.

Definition unsupported_format : NextResponse :=
  NextResponse_json
    (error_body "Unsupported image format. Please use PNG, JPEG, WEBP, or GIF.")
    400.

Definition key_not_configured : NextResponse :=
  NextResponse_json
    (error_body "API key not configured. Please set PERPLEXITY_API_KEY in your environment.")
    500.

(** ** The declared types of [route.ts] as run-time checks *)

Definition is_string (v : value) : bool :=
  match v with VString _ => true | _ => false end.

(** [string[]] *)
Definition is_string_array (v : value) : bool :=
  match v with VArray l => forallb is_string l | _ => false end.

(** [interface ColorToken] *)
Definition is_ColorToken (v : value) : bool :=
  match v with
  | VObject m =>
      is_string (own_property (lit "name") m)
      && is_string (own_property (lit "hex") m)
  | _ => false
  end.

(** [ColorToken[]] *)
Definition is_ColorToken_array (v : value) : bool :=
  match v with VArray l => forallb is_ColorToken l | _ => false end.

(** [interface TypographyToken] *)
Definition is_TypographyToken (v : value) : bool :=
  match v with
  | VObject m =>
      is_string (own_property (lit "headings") m)
      && is_string (own_property (lit "body") m)
      && is_string_array (own_property (lit "weights") m)
  | _ => false
  end.

(** [interface DesignTokens] *)
Definition is_DesignTokens (v : value) : bool :=
  match v with
  | VObject m =>
      is_ColorToken_array (own_property (lit "colors") m)
      && is_TypographyToken (own_property (lit "typography") m)
      && is_string_array (own_property (lit "spacing") m)
      && is_string_array (own_property (lit "animations") m)
      && is_string_array (own_property (lit "elevation") m)
      && is_string_array (own_property (lit "radius") m)
  | _ => false
  end.

(** A supplied field fits its type, or is falsy (and will be replaced). *)
Definition fits_or_falsy (check : value -> bool) (v : value) : bool :=
  negb (truthy v) || check v.

(** Every field the model supplied with a truthy value has the declared
    type. *)
Definition truthy_fields_typed (t : value) : bool :=
  fits_or_falsy is_ColorToken_array (optional_Get t Key.colors)
  && fits_or_falsy is_TypographyToken (optional_Get t Key.typography)
  && fits_or_falsy is_string_array (optional_Get t Key.spacing)
  && fits_or_falsy is_string_array (optional_Get t Key.animations)
  && fits_or_falsy is_string_array (optional_Get t Key.elevation)
  && fits_or_falsy is_string_array (optional_Get t Key.radius).

(** ** Concrete runs *)

Definition fresh_world : World := {| console := []; outbound := [] |}.

(** A request whose body is [{ imageBase64: url }]. *)
Definition posting (url : jsstring) : NextRequest :=
  {| request_json := Some (VObject [(lit "imageBase64", VString url)]) |}.

(** A chat completion with one choice, whose message content is
    [content]. *)
Definition completion_data (content : jsstring) : value :=
  VObject
    [(lit "choices",
      VArray
        [VObject
           [(lit "message",
             VObject [(lit "role", VString (lit "assistant"));
                      (lit "content", VString content)])]])].

Definition completion (content : jsstring) : Response :=
  {| response_status := 200;
     response_text := [];
     response_json := Some (completion_data content) |}.

(** A reply with the given status and an empty body. *)
Definition bare_reply (st : Z) : Response :=
  {| response_status := st; response_text := []; response_json := None |}.

(** An environment with the reference parser and a provider stubbed to one
    outcome. *)
Definition stubbed (key : option jsstring) (outcome : FetchOutcome)
  : Environment :=
  {| JSON_parse := JsonRef.JSON_parse;
     SYSTEM_PROMPT := lit "You are an expert UI/UX designer";
     PERPLEXITY_API_KEY := key;
     provider := fun _ => outcome |}.

Definition a_png : jsstring := lit "data:image/png;base64,iVBORw0KGgo=".
Definition a_bmp : jsstring := lit "data:image/bmp;base64,Qk0=".
Definition a_key : option jsstring := Some (lit "pplx-0123456789").

(** The reply of the end-to-end scenario: colours only. *)
Definition red_reply : jsstring :=
  quoted "{'tokens':{'colors':[{'name':'Red','hex':'#FF0000'}]},'prompt':'Use a red background...'}".

(** ** Four sentences of the specification, as they are written *)

(** "A well-formed data URL with a MIME type outside the allow-list is
    rejected with a 400 before any outbound call, whether or not the
    credential is configured." *)
Definition rejects_unsupported_whatever_the_credential : Prop :=
  forall env request body mime payload w,
    request_json request = Some body ->
    Get body Key.imageBase64 = Some (VString (data_url mime payload)) ->
    well_formed_data_url mime payload ->
    includes supportedFormats mime = false ->
    status (fst (POST env request w)) = 400%Z /\
    outbound (snd (POST env request w)) = outbound w.

(** "The tokens of every 200 response have all six fields correctly
    typed, whatever the model supplied." *)
Definition every_success_is_typed : Prop :=
  forall env request w,
    status (fst (POST env request w)) = 200%Z ->
    exists tokens' prompt,
      body (fst (POST env request w))
      = VObject [(lit "tokens", tokens'); (lit "prompt", prompt)] /\
      is_DesignTokens tokens' = true.

(** "A 200 is returned only if the parsed object contains a tokens object
    and a prompt string." *)
Definition success_needs_object_and_string : Prop :=
  forall env request w,
    status (fst (POST env request w)) = 200%Z ->
    exists analysisResult members text,
      parsed env request analysisResult /\
      Get analysisResult Key.tokens = Some (VObject members) /\
      Get analysisResult Key.prompt = Some (VString text).

(** "When the read of an accepted file fails, an error is surfaced and
    the prior image, filename and result are left untouched." *)
Definition failed_read_leaves_prior_state : Prop :=
  forall file st,
    snd (handleFile file st) = true ->
    let st' := acceptFile file ReadFailed st in
    error st' <> None /\
    image st' = image st /\
    fileName st' = fileName st /\
    result st' = result st.

(** ** The normalized record *)

(** The six fields of [DesignTokens], in the order of the object
    literal. *)
Definition token_fields : list Key.t :=
  [Key.colors; Key.typography; Key.spacing; Key.animations; Key.elevation;
   Key.radius].

(** [t.k || d] for a [t] that is not [null] or [undefined] *)
Definition filled_field (t : value) (k : Key.t) (d : value) : value :=
  or_else (optional_Get t k) d.

(** The record the handler answers for the model's [tokens]. *)
Definition filled (t : value) : value :=
  VObject
    [(lit "colors", filled_field t Key.colors default_colors);
     (lit "typography", filled_field t Key.typography default_typography);
     (lit "spacing", filled_field t Key.spacing default_spacing);
     (lit "animations", filled_field t Key.animations default_animations);
     (lit "elevation", filled_field t Key.elevation default_elevation);
     (lit "radius", filled_field t Key.radius default_radius)].

(** [out] is the default where the supplied value is absent or falsy, and
    the supplied value where it is truthy. *)
Definition defaulted (supplied default out : value) : Prop :=
  (truthy supplied = false -> out = default) /\
  (truthy supplied = true -> out = supplied).

(** ** The client's error banner *)

(** The state stores the message and the banner displays it after the
    warning sign. *)
Definition shows (st : AppState) (msg : string) : Prop :=
  error st = Some (lit msg) /\
  errorBanner st = Some ([9888; 65039; 32]%N ++ lit msg).

Unset Implicit Arguments.

(* ================================================================== *)
(** * More of the endpoint: the paths of a run *)
(* ================================================================== *)

Definition no_image_provided : NextResponse :=
  NextResponse_json
    (error_body "No image provided. Please upload an image.") 400.

Definition invalid_data_format : NextResponse :=
  NextResponse_json (error_body "Invalid image data format.") 400.

Definition no_analysis : NextResponse :=
  NextResponse_json
    (error_body "No analysis received from AI. Please try again.") 500.

(** The answer of lines 156-171 to a reply with the status [st] that is
    not [ok]. *)
Definition provider_error (st : Z) : NextResponse :=
  if (st =? 401)%Z then
    NextResponse_json
      (error_body "Invalid API key. Please check your PERPLEXITY_API_KEY.")
      401
  else if (st =? 429)%Z then
    NextResponse_json
      (error_body "Rate limit exceeded. Please try again in a moment.") 429
  else if (st =? 400)%Z then
    NextResponse_json
      (error_body "Invalid request. The image may be too large (max 50MB) or in an unsupported format.")
      400
  else
    NextResponse_json
      (error_body "Failed to analyze design. Please try again.") 500.

(** A response of the form [{ error: msg }] with a non-empty message. *)
Definition error_response (r : NextResponse) : Prop :=
  exists msg, body r = error_body msg /\ lit msg <> [].

(** The ways [handle_reply] ends (lines 152-238), with the response [POST]
    then gives and the world it leaves. *)
Inductive ReplyPath (env : Environment) (reply : Response) (w : World)
  : NextResponse -> World -> Prop :=
| reply_not_ok :
    ok reply = false ->
    ReplyPath env reply w
      (provider_error (response_status reply))
      (log (LogProviderError (response_status reply) (response_text reply)) w)
| reply_body_not_json :
    ok reply = true -> response_json reply = None ->
    ReplyPath env reply w unexpected_error (log LogUnexpected w)
| reply_data_null perplexityData :
    ok reply = true -> response_json reply = Some perplexityData ->
    reply_content perplexityData = None ->
    ReplyPath env reply w unexpected_error (log LogUnexpected w)
| reply_no_content perplexityData content :
    ok reply = true -> response_json reply = Some perplexityData ->
    reply_content perplexityData = Some content ->
    truthy content = false ->
    ReplyPath env reply w no_analysis (log (LogNoContent perplexityData) w)
| reply_content_not_string perplexityData content :
    ok reply = true -> response_json reply = Some perplexityData ->
    reply_content perplexityData = Some content ->
    truthy content = true -> is_string content = false ->
    ReplyPath env reply w parse_failure (log (LogParseFailure content) w)
| reply_unparsable perplexityData text :
    ok reply = true -> response_json reply = Some perplexityData ->
    reply_content perplexityData = Some (VString text) -> text <> [] ->
    JSON_parse env (cleanContent text) = None ->
    ReplyPath env reply w parse_failure
      (log (LogParseFailure (VString text)) w)
| reply_parsed_nullish perplexityData text analysisResult :
    ok reply = true -> response_json reply = Some perplexityData ->
    reply_content perplexityData = Some (VString text) -> text <> [] ->
    JSON_parse env (cleanContent text) = Some analysisResult ->
    Get analysisResult Key.tokens = None ->
    ReplyPath env reply w unexpected_error (log LogUnexpected w)
| reply_missing_fields perplexityData text analysisResult tokens prompt :
    ok reply = true -> response_json reply = Some perplexityData ->
    reply_content perplexityData = Some (VString text) -> text <> [] ->
    JSON_parse env (cleanContent text) = Some analysisResult ->
    Get analysisResult Key.tokens = Some tokens ->
    Get analysisResult Key.prompt = Some prompt ->
    truthy tokens && truthy prompt = false ->
    ReplyPath env reply w missing_fields
      (log (LogInvalidStructure analysisResult) w)
| reply_success perplexityData text analysisResult tokens prompt :
    ok reply = true -> response_json reply = Some perplexityData ->
    reply_content perplexityData = Some (VString text) -> text <> [] ->
    JSON_parse env (cleanContent text) = Some analysisResult ->
    Get analysisResult Key.tokens = Some tokens ->
    Get analysisResult Key.prompt = Some prompt ->
    truthy tokens = true -> truthy prompt = true ->
    ReplyPath env reply w (success (filled tokens) prompt) w.

(** The ways [POST] ends. *)
Inductive Path (env : Environment) (request : NextRequest) (w : World)
  : NextResponse -> World -> Prop :=
| path_body_unreadable :
    request_json request = None ->
    Path env request w unexpected_error (log LogUnexpected w)
| path_body_nullish body :
    request_json request = Some body ->
    Get body Key.imageBase64 = None ->
    Path env request w unexpected_error (log LogUnexpected w)
| path_no_image body imageBase64 :
    request_json request = Some body ->
    Get body Key.imageBase64 = Some imageBase64 ->
    truthy imageBase64 = false ->
    Path env request w no_image_provided w
| path_image_not_string body imageBase64 :
    request_json request = Some body ->
    Get body Key.imageBase64 = Some imageBase64 ->
    truthy imageBase64 = true -> is_string imageBase64 = false ->
    Path env request w unexpected_error (log LogUnexpected w)
| path_not_an_image body image :
    request_json request = Some body ->
    Get body Key.imageBase64 = Some (VString image) -> image <> [] ->
    startsWith image (lit "data:image/") = false ->
    Path env request w invalid_image_format w
| path_no_key body image :
    request_json request = Some body ->
    Get body Key.imageBase64 = Some (VString image) ->
    startsWith image (lit "data:image/") = true ->
    configured env = false ->
    Path env request w key_not_configured (log LogKeyNotConfigured w)
| path_bad_envelope body image :
    request_json request = Some body ->
    Get body Key.imageBase64 = Some (VString image) ->
    startsWith image (lit "data:image/") = true ->
    configured env = true ->
    match_data_url image = None ->
    Path env request w invalid_data_format w
| path_unsupported body image mimeType payload :
    request_json request = Some body ->
    Get body Key.imageBase64 = Some (VString image) ->
    configured env = true ->
    match_data_url image = Some (mimeType, payload) ->
    includes supportedFormats mimeType = false ->
    Path env request w unsupported_format w
| path_network_error image apiKey :
    accepted request image ->
    PERPLEXITY_API_KEY env = Some apiKey -> apiKey <> [] ->
    provider env (completion_request env apiKey image) = NetworkError ->
    Path env request w unexpected_error
      (log LogUnexpected (called (completion_request env apiKey image) w))
| path_replied image apiKey reply r w' :
    accepted request image ->
    PERPLEXITY_API_KEY env = Some apiKey -> apiKey <> [] ->
    provider env (completion_request env apiKey image) = Responded reply ->
    ReplyPath env reply (called (completion_request env apiKey image) w)
              r w' ->
    Path env request w r w'.

(* ================================================================== *)
(** * More of the client *)
(* ================================================================== *)

Definition setIsDragging (x : bool) (st : AppState) : AppState :=
  {| image := image st; fileName := fileName st; isLoading := isLoading st;
     error := error st; result := result st; isDragging := x;
     copied := copied st |}.
Definition setCopied (x : bool) (st : AppState) : AppState :=
  {| image := image st; fileName := fileName st; isLoading := isLoading st;
     error := error st; result := result st; isDragging := isDragging st;
     copied := x |}.

(** What the drag handlers read and write of a [React.DragEvent]. *)
Record DragEvent : Type := mkDragEvent {
  defaultPrevented : bool;
  dataTransfer_files : list File
}.

(** [e.preventDefault()] *)
Definition preventDefault (e : DragEvent) : DragEvent :=
  {| defaultPrevented := true; dataTransfer_files := dataTransfer_files e |}.

(** [handleDrop]: the event, the state, and whether a read was started *)
Definition handleDrop (e : DragEvent) (st : AppState)
  : DragEvent * (AppState * bool) :=
  let e' := preventDefault e in
  let st1 := setIsDragging false st in
  match dataTransfer_files e with
  | file :: _ => (e', handleFile file st1)
  | [] => (e', (st1, false))
  end.

(** [handleDragOver] *)
Definition handleDragOver (e : DragEvent) (st : AppState)
  : DragEvent * AppState :=
  (preventDefault e, setIsDragging true st).

(** [handleDragLeave] *)
Definition handleDragLeave (e : DragEvent) (st : AppState)
  : DragEvent * AppState :=
  (preventDefault e, setIsDragging false st).

(** [handleFileInput]: [files] is [e.target.files], [None] when it is
    [null]. *)
Definition handleFileInput (files : option (list File)) (st : AppState)
  : AppState * bool :=
  match files with
  | Some (file :: _) => handleFile file st
  | Some [] | None => (st, false)
  end.

(** The outcome of [copyPrompt]: the state, the text put on the clipboard
    if [writeText] succeeded, and whether the two-second timer was set. *)
Record Copy : Type := mkCopy {
  copy_state : AppState;
  clipboard_text : option value;
  timer_set : bool
}.

(** [copyPrompt]; [writeText] tells whether
    [navigator.clipboard.writeText] resolves for the text. *)
Definition copyPrompt (writeText : value -> bool) (st : AppState) : Copy :=
  let prompt :=
    match result st with
    | Some r => optional_Get r Key.prompt
    | None => VUndefined
    end in
  if negb (truthy prompt) then
    {| copy_state := st; clipboard_text := None; timer_set := false |}
  else if writeText prompt then
    {| copy_state := setCopied true st; clipboard_text := Some prompt;
       timer_set := true |}
  else
    {| copy_state := setError (Some (lit "Failed to copy to clipboard")) st;
       clipboard_text := None; timer_set := false |}.

(** The callback of [setTimeout(() => setCopied(false), 2000)] *)
Definition copied_timeout (st : AppState) : AppState := setCopied false st.

(** [!result] in the component: no result, or a falsy one. *)
Definition has_result (st : AppState) : bool :=
  match result st with
  | Some r => truthy r
  | None => false
  end.

(** [downloadJSON]: the name and the content of the file offered, if any.
    [stringify] is [JSON.stringify(_, null, 2)] and [now] the text of
    [Date.now()]. *)
Definition downloadJSON (stringify : value -> jsstring) (now : jsstring)
           (st : AppState) : option (jsstring * jsstring) :=
  match result st with
  | Some r =>
      if truthy r
      then Some (lit "design-tokens-" ++ now ++ lit ".json", stringify r)
      else None
  | None => None
  end.

Section ClientPhases.

Variable ToString : value -> jsstring.
Variable null_read_message : jsstring.

(** [analyzeDesign] up to the [await] of [fetch] *)
Definition analyze_start (st : AppState) : AppState :=
  setError None (setIsLoading true st).

(** [analyzeDesign] from the outcome of [fetch] on, applied to the state
    of the moment. *)
Definition analyze_finish (fetched : ClientFetch) (st : AppState)
  : AppState :=
  setIsLoading false
    match fetched with
    | FetchRejected m => setError (Some m) st
    | FetchResolved code json =>
        if negb ((200 <=? code) && (code <=? 299))%Z then
          match json with
          | JsonRejected m => setError (Some m) st
          | JsonResolved errorData =>
              match Get errorData Key.error with
              | None => setError (Some null_read_message) st
              | Some e =>
                  setError
                    (Some (Error_message ToString
                             (or_else e
                                (VString (lit "Failed to analyze design")))))
                    st
              end
          end
        else
          match json with
          | JsonRejected m => setError (Some m) st
          | JsonResolved data => setResult (Some data) st
          end
    end.

(** ** The results panel *)

(** [Array.prototype.join]: [undefined] and [null] give the empty string,
    a string gives itself, any other element its ToString. *)
Definition join_element (v : value) : jsstring :=
  match v with
  | VUndefined | VNull => []
  | VString s => s
  | _ => ToString v
  end.

Fixpoint join (separator : jsstring) (l : list value) : jsstring :=
  match l with
  | [] => []
  | [x] => join_element x
  | x :: rest => join_element x ++ separator ++ join separator rest
  end.

End ClientPhases.

(** The receiver of [.map] and [.join]: on anything but an array the
    method is missing (or the receiver is [null] or [undefined]) and the
    call throws a TypeError, here [None]. *)
Definition array_receiver (v : value) : option (list value) :=
  match v with VArray l => Some l | _ => None end.

(** One colour swatch: the [backgroundColor] of the preview and the two
    text children. *)
Record Swatch : Type := mkSwatch {
  swatch_background : value;
  swatch_name : value;
  swatch_hex : value
}.

(** What the results panel is given to display: the values handed to
    React as children, in the order of the JSX. *)
Record Panel : Type := mkPanel {
  panel_colors : list Swatch;
  panel_headings : value;
  panel_body : value;
  panel_weights : jsstring;
  panel_spacing : list value;
  panel_radius : list value;
  panel_animations : list value;
  panel_elevation : list value;
  panel_prompt : value
}.

Definition swatch (color : value) : option Swatch :=
  match Get color Key.hex, Get color Key.name with
  | Some h, Some n =>
      Some {| swatch_background := h; swatch_name := n; swatch_hex := h |}
  | _, _ => None
  end.

Fixpoint swatches (colors : list value) : option (list Swatch) :=
  match colors with
  | [] => Some []
  | c :: rest =>
      match swatch c, swatches rest with
      | Some s, Some ss => Some (s :: ss)
      | _, _ => None
      end
  end.

Definition option_bind {A B} (o : option A) (k : A -> option B) : option B :=
  match o with Some a => k a | None => None end.

(** The expressions of the results panel (lines 550-655) for a truthy
    [result]; [None] when evaluating one of them throws a TypeError. *)
Definition results_panel (ToString : value -> jsstring) (r : value)
  : option Panel :=
  option_bind (Get r Key.tokens) (fun tokens =>
  option_bind (Get tokens Key.colors) (fun colors =>
  option_bind (array_receiver colors) (fun colors =>
  option_bind (swatches colors) (fun sw =>
  option_bind (Get tokens Key.typography) (fun typography =>
  option_bind (Get typography Key.headings) (fun headings =>
  option_bind (Get typography Key.body) (fun body_ =>
  option_bind (Get typography Key.weights) (fun weights =>
  option_bind (array_receiver weights) (fun weights =>
  option_bind (Get tokens Key.spacing) (fun spacing =>
  option_bind (array_receiver spacing) (fun spacing =>
  option_bind (Get tokens Key.radius) (fun radius =>
  option_bind (array_receiver radius) (fun radius =>
  option_bind (Get tokens Key.animations) (fun animations =>
  option_bind (array_receiver animations) (fun animations =>
  option_bind (Get tokens Key.elevation) (fun elevation =>
  option_bind (array_receiver elevation) (fun elevation =>
  option_bind (Get r Key.prompt) (fun prompt =>
  Some {| panel_colors := sw;
          panel_headings := headings;
          panel_body := body_;
          panel_weights := join ToString (lit ", ") weights;
          panel_spacing := spacing;
          panel_radius := radius;
          panel_animations := animations;
          panel_elevation := elevation;
          panel_prompt := prompt |})))))))))))))))))).

(** The values the panel hands to React as children, in the order of the
    JSX: per colour its name and its hex, then the three typography
    lines, then the tags and the list items. *)
Definition swatch_children (s : Swatch) : list value :=
  [swatch_name s; swatch_hex s].

Definition panel_children (p : Panel) : list value :=
  flat_map swatch_children (panel_colors p)
  ++ [panel_headings p; panel_body p; VString (panel_weights p)]
  ++ panel_spacing p ++ panel_radius p
  ++ panel_animations p ++ panel_elevation p.

(** The right column: the empty state, the panel, or a render that
    throws. *)
Inductive RightColumn : Type :=
| EmptyState
| ResultsPanel (p : Panel)
| RenderThrows.

Definition right_column (ToString : value -> jsstring) (st : AppState)
  : RightColumn :=
  match result st with
  | Some r =>
      if truthy r then
        match results_panel ToString r with
        | Some p => ResultsPanel p
        | None => RenderThrows
        end
      else EmptyState
  | None => EmptyState
  end.

(** The analyse button: absent without an image, otherwise present and
    [disabled] while loading. *)
Definition analyzeButton_disabled (st : AppState) : option bool :=
  match image st with
  | Some (_ :: _) => Some (isLoading st)
  | Some [] | None => None
  end.

(** [POST] from the outcome of its [try] block and the world it left: the
    [catch] of lines 239-242 logs and answers 500. *)
Definition conclude (x : Outcome NextResponse * World)
  : NextResponse * World :=
  match x with
  | (Normal r, w') => (r, w')
  | (Returned r, w') => (r, w')
  | (Thrown, w') => (unexpected_error, log LogUnexpected w')
  end.

(** ** Vocabulary of the unwrap *)

(** [s] holds [t] between a text with no opening brace and a text with no
    closing brace. *)
Definition wraps (t s : jsstring) : Prop :=
  exists l r,
    s = l ++ t ++ r /\
    forallb not_open_brace l = true /\
    forallb not_close_brace r = true.

(** [part] is a contiguous piece of [s]. *)
Definition piece_of (part s : jsstring) : Prop :=
  exists a b, s = a ++ part ++ b.

Unset Implicit Arguments.

(* ================================================================== *)
(** * The definitions at work *)
(* ================================================================== *)

Example truthy_examples :
  truthy (VNumber 0) = false /\ truthy (VNumber (-0)) = false /\
  truthy (VNumber nan) = false /\ truthy (VNumber 4096) = true /\
  truthy (VString []) = false /\ truthy (VString (lit "x")) = true /\
  truthy (VArray []) = true /\ truthy (VObject []) = true.
Proof. repeat split; reflexivity. Qed.

Example match_data_url_png :
  match_data_url (lit "data:image/png;base64,iVBORw0KGgo=")
  = Some (lit "image/png", lit "iVBORw0KGgo=").
Proof. reflexivity. Qed.

Example match_data_url_parameters :
  match_data_url (lit "data:image/png;charset=x;base64,AAAA") = None.
Proof. reflexivity. Qed.

Example match_braces_prose :
  match_braces (quoted "Sure! {'a':{'b':1}} hope it helps }:)")
  = Some (quoted "{'a':{'b':1}} hope it helps }").
Proof. reflexivity. Qed.

Example match_braces_none : match_braces (lit "} nothing {") = None.
Proof. reflexivity. Qed.

Example JSON_parse_scalars :
  JsonRef.JSON_parse (quoted " [1, -0, 0.5, 25e-1, true, null, 'aA\n'] ")
  = Some (VArray [VNumber 1; VNumber (-0); VNumber 0.5; VNumber 2.5;
                  VBool true; VNull; VString [97; 65; 10]%N]).
Proof. vm_compute. reflexivity. Qed.

Example JSON_parse_object :
  JsonRef.JSON_parse (quoted "{'tokens': {'spacing': []}, 'prompt': 'p'}")
  = Some (VObject [(lit "tokens", VObject [(lit "spacing", VArray [])]);
                   (lit "prompt", VString (lit "p"))]).
Proof. vm_compute. reflexivity. Qed.

Example JSON_parse_rejects :
  JsonRef.JSON_parse (quoted "{'a': 1,}") = None /\
  JsonRef.JSON_parse (quoted "01") = None /\
  JsonRef.JSON_parse (quoted "{'a': 1} x") = None /\
  JsonRef.JSON_parse (quoted "{a: 1}") = None.
Proof. vm_compute. repeat split. Qed.

(* ================================================================== *)
(** * Facts about the string operations *)
(* ================================================================== *)

Section StringFacts.

Implicit Types (s p t : jsstring) (f : code_unit -> bool).

Lemma startsWith_app p s : startsWith (p ++ s) p = true.
Proof.
  induction p as [|c p IH]; simpl; [reflexivity|].
  now rewrite N.eqb_refl, IH.
Qed.

Lemma startsWith_prefix s p :
  startsWith s p = true -> s = p ++ skipn (length p) s.
Proof.
  revert s; induction p as [|c p IH]; intros [|d s]; simpl;
    try reflexivity; try discriminate.
  intros H. apply andb_prop in H as [H1 H2].
  apply N.eqb_eq in H1; subst d. now rewrite <- IH.
Qed.

Lemma strip_prefix_app p s : strip_prefix p (p ++ s) = Some s.
Proof.
  unfold strip_prefix. rewrite startsWith_app.
  now rewrite skipn_app, skipn_all, Nat.sub_diag.
Qed.

Lemma strip_prefix_Some p s r :
  strip_prefix p s = Some r -> s = p ++ r.
Proof.
  unfold strip_prefix. destruct (startsWith s p) eqn:E; [|discriminate].
  intros [= <-]. now apply startsWith_prefix.
Qed.

Lemma endsWith_app s p : endsWith (s ++ p) p = true.
Proof. unfold endsWith. rewrite rev_app_distr. apply startsWith_app. Qed.

Lemma endsWith_last s c p d :
  c <> d -> endsWith (s ++ [c]) (p ++ [d]) = false.
Proof.
  intros H. unfold endsWith. rewrite !rev_app_distr. simpl.
  destruct (N.eqb_spec d c); [congruence | reflexivity].
Qed.

Lemma slice_drop_last_app s p :
  slice_drop_last (length p) (s ++ p) = s.
Proof.
  unfold slice_drop_last. rewrite length_app, Nat.add_sub.
  rewrite firstn_app, Nat.sub_diag, firstn_all. simpl. apply app_nil_r.
Qed.

Lemma dropWhile_app_stop f a c b :
  forallb f a = true -> f c = false ->
  dropWhile f (a ++ c :: b) = c :: b.
Proof.
  intros Ha Hc. induction a as [|x a IH]; simpl in *.
  - now rewrite Hc.
  - apply andb_prop in Ha as [Hx Ha]. rewrite Hx. auto.
Qed.

Lemma takeWhile_app_stop f a c b :
  forallb f a = true -> f c = false ->
  takeWhile f (a ++ c :: b) = a.
Proof.
  intros Ha Hc. induction a as [|x a IH]; simpl in *.
  - now rewrite Hc.
  - apply andb_prop in Ha as [Hx Ha]. rewrite Hx, IH; auto.
Qed.

Lemma forallb_rev f a : forallb f (rev a) = forallb f a.
Proof.
  induction a as [|x a IH]; simpl; [reflexivity|].
  rewrite forallb_app, IH. simpl. rewrite andb_true_r. apply andb_comm.
Qed.

(** [trim] takes off exactly the white space around a text that starts and
    ends with other characters. *)
Lemma trim_padded a c mid d b :
  forallb is_whitespace a = true -> forallb is_whitespace b = true ->
  is_whitespace c = false -> is_whitespace d = false ->
  trim (a ++ (c :: mid ++ [d]) ++ b) = c :: mid ++ [d].
Proof.
  intros Ha Hb Hc Hd. unfold trim, trimStart, trimEnd.
  simpl. rewrite dropWhile_app_stop by assumption.
  replace (c :: (mid ++ [d]) ++ b) with ((c :: mid) ++ d :: b)
    by (simpl; now rewrite <- app_assoc).
  rewrite rev_app_distr. simpl rev at 2. rewrite <- app_assoc. simpl app at 2.
  rewrite dropWhile_app_stop by (now rewrite ?forallb_rev).
  simpl. rewrite rev_app_distr, rev_involutive. reflexivity.
Qed.

Lemma trim_clean c mid d :
  is_whitespace c = false -> is_whitespace d = false ->
  trim (c :: mid ++ [d]) = c :: mid ++ [d].
Proof.
  intros Hc Hd.
  generalize (trim_padded [] c mid d [] eq_refl eq_refl Hc Hd).
  simpl. now rewrite app_nil_r.
Qed.


(** The brace span of a text: from the first opening brace to the last
    closing brace. *)
Lemma match_braces_span pre mid post :
  forallb not_open_brace pre = true ->
  forallb not_close_brace post = true ->
  match_braces (pre ++ (open_brace :: mid ++ [close_brace]) ++ post)
  = Some (open_brace :: mid ++ [close_brace]).
Proof.
  intros Hpre Hpost. unfold match_braces.
  change ((open_brace :: mid ++ [close_brace]) ++ post)
    with (open_brace :: (mid ++ [close_brace]) ++ post).
  rewrite dropWhile_app_stop by (assumption || reflexivity).
  rewrite <- app_assoc, rev_app_distr. simpl app.
  rewrite <- app_assoc. simpl app.
  rewrite dropWhile_app_stop by (now rewrite ?forallb_rev).
  simpl. now rewrite rev_involutive.
Qed.

End StringFacts.

Section Unwrap.

Lemma trim_fenced x :
  trim (lit "```" ++ x ++ lit "```") = lit "```" ++ x ++ lit "```".
Proof.
  change (lit "```") with ([96; 96; 96]%N).
  change ([96; 96; 96]%N ++ x ++ [96; 96; 96]%N)
    with (96%N :: ([96; 96]%N ++ x ++ [96; 96; 96]%N)).
  replace ([96; 96]%N ++ x ++ [96; 96; 96]%N)
    with (([96; 96]%N ++ x ++ [96; 96]%N) ++ [96%N])
    by (now rewrite <- !app_assoc).
  now apply trim_clean.
Qed.

Lemma skipn_prefix (p s : jsstring) : skipn (length p) (p ++ s) = s.
Proof. now rewrite skipn_app, skipn_all, Nat.sub_diag. Qed.

(** A fence with the tag [json] on the front and a fence on the back are
    taken off, and what was between them is trimmed. *)
Lemma strip_fences_tagged inner :
  strip_fences (lit "```json" ++ inner ++ lit "```") = trim inner.
Proof.
  unfold strip_fences.
  replace (trim (lit "```json" ++ inner ++ lit "```"))
    with (lit "```json" ++ inner ++ lit "```").
  2:{ symmetry.
      change (lit "```json" ++ inner ++ lit "```")
        with (lit "```" ++ (lit "json" ++ inner ++ lit "```")).
      replace (lit "json" ++ inner ++ lit "```")
        with ((lit "json" ++ inner) ++ lit "```")
        by (now rewrite <- app_assoc).
      apply trim_fenced. }
  rewrite startsWith_app. unfold slice_from.
  change 7 with (length (lit "```json")). rewrite skipn_prefix.
  rewrite endsWith_app.
  change 3 with (length (lit "```")). now rewrite slice_drop_last_app.
Qed.

(** The same for a fence with no tag, when the text after it does not
    itself start with [json]. *)
Lemma strip_fences_untagged inner :
  startsWith (inner ++ lit "```") (lit "json") = false ->
  strip_fences (lit "```" ++ inner ++ lit "```") = trim inner.
Proof.
  intros Hno. unfold strip_fences. rewrite trim_fenced.
  assert (Htag : startsWith (lit "```" ++ inner ++ lit "```") (lit "```json")
                 = false) by exact Hno.
  rewrite Htag.
  rewrite startsWith_app. unfold slice_from.
  change 3 with (length (lit "```")). rewrite skipn_prefix.
  rewrite endsWith_app. now rewrite slice_drop_last_app.
Qed.

(** A text that starts with an opening brace and ends with a closing brace
    carries no fence and is left as it is. *)
Lemma strip_fences_object core :
  brace_delimited core -> strip_fences core = core.
Proof.
  intros [mid ->]. unfold strip_fences.
  rewrite trim_clean by reflexivity.
  change (startsWith (open_brace :: mid ++ [close_brace]) (lit "```json"))
    with false.
  change (startsWith (open_brace :: mid ++ [close_brace]) (lit "```"))
    with false.
  cbv iota.
  change (open_brace :: mid ++ [close_brace])
    with ((open_brace :: mid) ++ [close_brace]) at 1.
  change (lit "```") with ([96; 96]%N ++ [96%N]).
  rewrite endsWith_last by discriminate.
  now apply trim_clean.
Qed.

Lemma extract_json_object core :
  brace_delimited core -> extract_json core = core.
Proof.
  intros [mid ->]. unfold extract_json.
  generalize (match_braces_span [] mid [] eq_refl eq_refl).
  simpl. rewrite app_nil_r. now intros ->.
Qed.

Lemma cleanContent_object core :
  brace_delimited core -> cleanContent core = core.
Proof.
  intros H. unfold cleanContent.
  now rewrite strip_fences_object, extract_json_object.
Qed.

Lemma trim_padded_object a core b :
  forallb is_whitespace a = true -> forallb is_whitespace b = true ->
  brace_delimited core -> trim (a ++ core ++ b) = core.
Proof. intros Ha Hb [mid ->]. now apply trim_padded. Qed.

End Unwrap.

(* ================================================================== *)
(** * Facts about the handler *)
(* ================================================================== *)

Arguments lit : simpl never.
Arguments error_body : simpl never.
Arguments completion_request : simpl never.
Arguments cleanContent : simpl never.

Lemma Get_truthy t k :
  truthy t = true -> Get t k = Some (optional_Get t k).
Proof. destruct t; simpl; try discriminate; reflexivity. Qed.

Lemma field_or_truthy t k d :
  truthy t = true -> field_or t k d = Some (or_else (optional_Get t k) d).
Proof. intros H. unfold field_or. now rewrite Get_truthy. Qed.

(** On a truthy [tokens] the object literal is built without a throw. *)
Lemma normalizeTokens_truthy t :
  truthy t = true ->
  normalizeTokens t =
  Some (VObject
    [(lit "colors", or_else (optional_Get t Key.colors) default_colors);
     (lit "typography",
      or_else (optional_Get t Key.typography) default_typography);
     (lit "spacing", or_else (optional_Get t Key.spacing) default_spacing);
     (lit "animations",
      or_else (optional_Get t Key.animations) default_animations);
     (lit "elevation",
      or_else (optional_Get t Key.elevation) default_elevation);
     (lit "radius", or_else (optional_Get t Key.radius) default_radius)]).
Proof.
  intros H. unfold normalizeTokens. now rewrite !field_or_truthy.
Qed.

Lemma validate_missing a t p w :
  Get a Key.tokens = Some t -> Get a Key.prompt = Some p ->
  truthy t && truthy p = false ->
  validate_and_respond a w
  = (Returned missing_fields, log (LogInvalidStructure a) w).
Proof.
  intros Ht Hp H. unfold validate_and_respond, bind, or_throw, ret.
  rewrite Ht, Hp. rewrite <- negb_andb, H. reflexivity.
Qed.

Lemma validate_present a t p w :
  Get a Key.tokens = Some t -> Get a Key.prompt = Some p ->
  truthy t = true -> truthy p = true ->
  exists t', normalizeTokens t = Some t' /\
             validate_and_respond a w = (Normal (success t' p), w).
Proof.
  intros Ht Hp Tt Tp. eexists. split; [now apply normalizeTokens_truthy|].
  unfold validate_and_respond, bind, or_throw, ret.
  rewrite Ht, Hp, Tt, Tp. simpl. now rewrite normalizeTokens_truthy.
Qed.

Lemma match_data_url_startsWith image groups :
  match_data_url image = Some groups ->
  startsWith image (lit "data:image/") = true.
Proof.
  unfold match_data_url, strip_prefix.
  destruct (startsWith image (lit "data:image/")); [reflexivity|discriminate].
Qed.

Lemma startsWith_nonempty s p :
  startsWith s p = true -> p <> [] -> s <> [].
Proof. destruct p, s; simpl; congruence. Qed.

Lemma truthy_VString s : s <> [] -> truthy (VString s) = true.
Proof. destruct s; simpl; congruence. Qed.

(** ** Laws of the handler monad *)

Lemma bind_ret A B (a : A) (k : A -> Handler B) w :
  bind (ret a) k w = k a w.
Proof. reflexivity. Qed.

Lemma bind_return A B r (k : A -> Handler B) w :
  bind (return_ r) k w = (Returned r, w).
Proof. reflexivity. Qed.

Lemma bind_throw A B (k : A -> Handler B) w :
  bind throw k w = (Thrown, w).
Proof. reflexivity. Qed.

Lemma bind_bind A B C (m : Handler A) (k : A -> Handler B)
      (h : B -> Handler C) w :
  bind (bind m k) h w = bind m (fun a => bind (k a) h) w.
Proof. unfold bind. destruct (m w) as [[a|r|] w']; reflexivity. Qed.

Lemma bind_console_error B e (k : unit -> Handler B) w :
  bind (console_error e) k w = k tt (log e w).
Proof. reflexivity. Qed.

Ltac run :=
  repeat first
    [ rewrite bind_ret | rewrite bind_return | rewrite bind_throw
    | rewrite bind_console_error
    | progress cbn [negb when_ or_throw string_receiver fst snd andb orb] ].

Ltac run' := repeat first [ rewrite bind_bind | progress run ].

Section HandlerFacts.

Variable env : Environment.

(** A request that passes the checks, with the key configured, leads to
    the one [fetch]. *)
Lemma POST_try_accepted request image apiKey w :
  accepted request image ->
  PERPLEXITY_API_KEY env = Some apiKey -> apiKey <> [] ->
  POST_try env request w
  = bind (fetch env (completion_request env apiKey image))
         (handle_reply env) w.
Proof.
  intros (body & mimeType & payload & Hb & Hi & Hm & Hs) Hk Hne.
  pose proof (match_data_url_startsWith _ _ Hm) as Hstart.
  assert (Himg : truthy (VString image) = true).
  { apply truthy_VString.
    eapply startsWith_nonempty; [exact Hstart|discriminate]. }
  unfold POST_try. rewrite Hb. run. rewrite Hi. run. rewrite Himg. run.
  rewrite Hstart. run. rewrite Hk.
  destruct apiKey as [|k apiKey]; [congruence|]. run.
  rewrite Hm. run. rewrite Hs. run. reflexivity.
Qed.

Lemma fetch_responded c reply w :
  provider env c = Responded reply ->
  fetch env c w = (Normal reply, called c w).
Proof. intros H. unfold fetch. now rewrite H. Qed.

(** The run of a request the provider answers. *)
Lemma POST_try_replied request reply w :
  replied env request reply ->
  exists c, POST_try env request w = handle_reply env reply (called c w).
Proof.
  intros (image & apiKey & Ha & Hk & Hne & Hp).
  exists (completion_request env apiKey image).
  rewrite (POST_try_accepted _ _ _ w Ha Hk Hne).
  unfold bind. now rewrite (fetch_responded _ _ _ Hp).
Qed.

(** Lines 152-172: the reply is not [ok]. *)
Lemma handle_reply_not_ok reply w :
  ok reply = false ->
  handle_reply env reply w =
  (Returned
     (if (response_status reply =? 401)%Z then
        NextResponse_json
          (error_body "Invalid API key. Please check your PERPLEXITY_API_KEY.")
          401
      else if (response_status reply =? 429)%Z then
        NextResponse_json
          (error_body "Rate limit exceeded. Please try again in a moment.")
          429
      else if (response_status reply =? 400)%Z then
        NextResponse_json
          (error_body "Invalid request. The image may be too large (max 50MB) or in an unsupported format.")
          400
      else
        NextResponse_json
          (error_body "Failed to analyze design. Please try again.") 500),
   log (LogProviderError (response_status reply) (response_text reply)) w).
Proof.
  intros H. unfold handle_reply. rewrite H. run.
  unfold provider_failure. rewrite !bind_bind. run.
  destruct (response_status reply =? 401)%Z; run; [reflexivity|].
  rewrite !bind_bind.
  destruct (response_status reply =? 429)%Z; run; [reflexivity|].
  rewrite !bind_bind.
  destruct (response_status reply =? 400)%Z; run; reflexivity.
Qed.

(** Lines 174-213: a successful reply whose content is a non-empty
    string. *)
Lemma handle_reply_text reply perplexityData text w :
  ok reply = true ->
  response_json reply = Some perplexityData ->
  reply_content perplexityData = Some (VString text) ->
  text <> [] ->
  handle_reply env reply w =
  match JSON_parse env (cleanContent text) with
  | Some analysisResult => validate_and_respond analysisResult w
  | None =>
      (Returned parse_failure, log (LogParseFailure (VString text)) w)
  end.
Proof.
  intros Hok Hj Hc Hne. unfold handle_reply.
  rewrite Hok. run. rewrite Hj. run. rewrite Hc. run.
  rewrite (truthy_VString _ Hne). run.
  unfold try_catch, bind at 1. run.
  destruct (JSON_parse env (cleanContent text)); reflexivity.
Qed.

(** [POST] from its [try] block *)
Lemma POST_returned request w r w' :
  POST_try env request w = (Returned r, w') -> POST env request w = (r, w').
Proof. intros H. unfold POST. now rewrite H. Qed.

Lemma POST_normal request w r w' :
  POST_try env request w = (Normal r, w') -> POST env request w = (r, w').
Proof. intros H. unfold POST. now rewrite H. Qed.

(** The run that reaches the structure check. *)
Lemma POST_try_parsed request analysisResult w :
  parsed env request analysisResult ->
  exists c,
    POST_try env request w = validate_and_respond analysisResult (called c w).
Proof.
  intros (text & (reply & d & Hr & Hok & Hj & Hc & Hne) & Hp).
  destruct (POST_try_replied _ _ w Hr) as [c Hrun]. exists c.
  rewrite Hrun, (handle_reply_text _ _ _ _ Hok Hj Hc Hne). now rewrite Hp.
Qed.

End HandlerFacts.

Section Inversion.

Variable env : Environment.

Lemma POST_answer request w :
  fst (POST env request w) = answer (fst (POST_try env request w)).
Proof.
  unfold POST. destruct (POST_try env request w) as [[r|r|] w']; reflexivity.
Qed.

Ltac fails :=
  cbn [fst answer status NextResponse_json unexpected_error parse_failure
       missing_fields];
  let H := fresh in intros H; discriminate H.

(** Only the last statement of the handler answers 200. *)
Lemma validate_200 a w :
  status (answer (fst (validate_and_respond a w))) = 200%Z ->
  exists t p t',
    Get a Key.tokens = Some t /\ Get a Key.prompt = Some p /\
    truthy t = true /\ truthy p = true /\
    normalizeTokens t = Some t' /\
    validate_and_respond a w = (Normal (success t' p), w).
Proof.
  destruct (Get a Key.tokens) as [t|] eqn:Ht.
  2:{ unfold validate_and_respond. rewrite Ht. run. fails. }
  destruct (Get a Key.prompt) as [p|] eqn:Hp.
  2:{ unfold validate_and_respond. rewrite Ht, Hp. run. fails. }
  destruct (truthy t && truthy p) eqn:Htp.
  2:{ rewrite (validate_missing a t p w Ht Hp Htp). fails. }
  apply andb_prop in Htp as [Tt Tp]. intros _.
  destruct (validate_present a t p w Ht Hp Tt Tp) as (t' & Hn & Hv).
  exists t, p, t'. repeat split; assumption.
Qed.

Lemma handle_reply_200 reply w :
  status (answer (fst (handle_reply env reply w))) = 200%Z ->
  exists perplexityData text a,
    ok reply = true /\
    response_json reply = Some perplexityData /\
    reply_content perplexityData = Some (VString text) /\
    text <> [] /\
    JSON_parse env (cleanContent text) = Some a /\
    handle_reply env reply w = validate_and_respond a w.
Proof.
  destruct (ok reply) eqn:Hok.
  2:{ rewrite (handle_reply_not_ok env reply w Hok).
      destruct (response_status reply =? 401)%Z; [fails|].
      destruct (response_status reply =? 429)%Z; [fails|].
      destruct (response_status reply =? 400)%Z; fails. }
  destruct (response_json reply) as [d|] eqn:Hj.
  2:{ unfold handle_reply. rewrite Hok, Hj. run. fails. }
  destruct (reply_content d) as [content|] eqn:Hc.
  2:{ unfold handle_reply. rewrite Hok, Hj. run. rewrite Hc. run. fails. }
  destruct (truthy content) eqn:Tc.
  2:{ unfold handle_reply. rewrite Hok, Hj. run. rewrite Hc. run.
      rewrite Tc. run. rewrite bind_bind. run. fails. }
  assert (Hstr : (exists text, content = VString text /\ text <> []) \/
                 string_receiver content = throw).
  { destruct content as [| | | |[|c s]| |]; try (now right); try discriminate.
    left. exists (c :: s). split; [reflexivity|discriminate]. }
  destruct Hstr as [(text & -> & Hne)|Hthrow].
  2:{ unfold handle_reply. rewrite Hok, Hj. run. rewrite Hc. run.
      rewrite Tc. run. rewrite Hthrow. unfold try_catch, bind at 1.
      run. fails. }
  rewrite (handle_reply_text env reply d text w Hok Hj Hc Hne).
  destruct (JSON_parse env (cleanContent text)) as [a|] eqn:Hp; [|fails].
  intros _. exists d, text, a. repeat split; assumption || reflexivity.
Qed.

Lemma POST_try_200 request w :
  status (answer (fst (POST_try env request w))) = 200%Z ->
  exists reply c,
    replied env request reply /\
    POST_try env request w = handle_reply env reply (called c w).
Proof.
  unfold POST_try.
  destruct (request_json request) as [body|] eqn:Hb; run; [|fails].
  destruct (Get body Key.imageBase64) as [imageBase64|] eqn:Hi; run;
    [|fails].
  destruct (truthy imageBase64) eqn:Ti; run; [|fails].
  destruct imageBase64 as [| | | |image| |]; run; try fails.
  destruct (startsWith image (lit "data:image/")) eqn:Hs; run; [|fails].
  destruct (PERPLEXITY_API_KEY env) as [[|k apiKey]|] eqn:Hk; run;
    try fails.
  destruct (match_data_url image) as [[mimeType payload]|] eqn:Hm; run;
    [|fails].
  destruct (includes supportedFormats mimeType) eqn:Hf; run; [|fails].
  unfold bind at 1, fetch.
  destruct (provider env (completion_request env (k :: apiKey) image))
    as [|reply] eqn:Hp; [fails|].
  intros _. exists reply, (completion_request env (k :: apiKey) image).
  split; [|reflexivity].
  exists image, (k :: apiKey). repeat split; try assumption; try discriminate.
  exists body, mimeType, payload. repeat split; assumption.
Qed.

(** A run that answers 200 reached the structure check with truthy
    [tokens] and [prompt], and answers the defaults-filled record. *)
Lemma POST_200 request w :
  status (fst (POST env request w)) = 200%Z ->
  exists a t p t',
    parsed env request a /\
    Get a Key.tokens = Some t /\ Get a Key.prompt = Some p /\
    truthy t = true /\ truthy p = true /\
    normalizeTokens t = Some t' /\
    fst (POST env request w) = success t' p.
Proof.
  rewrite POST_answer. intros H.
  destruct (POST_try_200 request w H) as (reply & c & Hr & Hrun).
  rewrite Hrun in H |- *.
  destruct (handle_reply_200 reply _ H) as
    (d & text & a & Hok & Hj & Hc & Hne & Hp & Hrun').
  rewrite Hrun' in H |- *.
  destruct (validate_200 a _ H) as (t & p & t' & Ht & Hpr & Tt & Tp & Hn & Hv).
  exists a, t, p, t'. rewrite Hv. repeat split; try assumption.
  exists text. split; [|assumption].
  exists reply, d. repeat split; assumption.
Qed.

End Inversion.

Section Oblivious.

Variable env : Environment.

Lemma oblivious_ret A (a : A) : oblivious (ret a).
Proof. intros w1 w2. reflexivity. Qed.

Lemma oblivious_return A r : oblivious (@return_ A r).
Proof. intros w1 w2. reflexivity. Qed.

Lemma oblivious_throw A : oblivious (@throw A).
Proof. intros w1 w2. reflexivity. Qed.

Lemma oblivious_console_error e : oblivious (console_error e).
Proof. intros w1 w2. reflexivity. Qed.

Lemma oblivious_fetch c : oblivious (fetch env c).
Proof. intros w1 w2. unfold fetch. destruct (provider env c); reflexivity. Qed.

Lemma oblivious_or_throw A (o : option A) : oblivious (or_throw o).
Proof. destruct o; [apply oblivious_ret | apply oblivious_throw]. Qed.

Lemma oblivious_string_receiver v : oblivious (string_receiver v).
Proof. destruct v; (apply oblivious_ret || apply oblivious_throw). Qed.

Lemma oblivious_bind A B (m : Handler A) (k : A -> Handler B) :
  oblivious m -> (forall a, oblivious (k a)) -> oblivious (bind m k).
Proof.
  intros Hm Hk w1 w2. unfold bind. specialize (Hm w1 w2).
  destruct (m w1) as [o1 w1'], (m w2) as [o2 w2']. simpl in Hm. subst o2.
  destruct o1 as [a|r|]; [apply Hk | reflexivity | reflexivity].
Qed.

Lemma oblivious_when c m : oblivious m -> oblivious (when_ c m).
Proof. intros H. destruct c; [exact H | apply oblivious_ret]. Qed.

Lemma oblivious_try_catch A (m h : Handler A) :
  oblivious m -> oblivious h -> oblivious (try_catch m h).
Proof.
  intros Hm Hh w1 w2. unfold try_catch. specialize (Hm w1 w2).
  destruct (m w1) as [o1 w1'], (m w2) as [o2 w2']. simpl in Hm. subst o2.
  destruct o1 as [a|r|]; [reflexivity | reflexivity | apply Hh].
Qed.

Ltac oblivious :=
  repeat first
    [ apply oblivious_ret | apply oblivious_return | apply oblivious_throw
    | apply oblivious_console_error | apply oblivious_fetch
    | apply oblivious_or_throw | apply oblivious_string_receiver
    | apply oblivious_when | apply oblivious_try_catch
    | apply oblivious_bind | intro ].

Lemma oblivious_validate_and_respond a : oblivious (validate_and_respond a).
Proof. unfold validate_and_respond. oblivious. Qed.

Lemma oblivious_provider_failure r : oblivious (provider_failure r).
Proof. unfold provider_failure. oblivious. Qed.

Lemma oblivious_handle_reply r : oblivious (handle_reply env r).
Proof.
  unfold handle_reply.
  apply oblivious_bind;
    [apply oblivious_when, oblivious_provider_failure|intros _].
  apply oblivious_bind; [oblivious|intros d].
  apply oblivious_bind; [oblivious|intros content].
  apply oblivious_bind; [oblivious|intros _].
  apply oblivious_bind; [oblivious|intros a].
  apply oblivious_validate_and_respond.
Qed.

Lemma oblivious_POST_try request : oblivious (POST_try env request).
Proof.
  unfold POST_try.
  apply oblivious_bind; [oblivious|intros body].
  apply oblivious_bind; [oblivious|intros imageBase64].
  apply oblivious_bind; [oblivious|intros _].
  apply oblivious_bind; [oblivious|intros image].
  apply oblivious_bind; [oblivious|intros _].
  apply oblivious_bind.
  { destruct (PERPLEXITY_API_KEY env) as [[|k apiKey]|]; oblivious. }
  intros apiKey.
  apply oblivious_bind.
  { destruct (match_data_url image); oblivious. }
  intros matches.
  apply oblivious_bind; [oblivious|intros _].
  apply oblivious_bind; [oblivious|intros r].
  apply oblivious_handle_reply.
Qed.

(** The response of [POST] does not depend on the world. *)
Lemma POST_oblivious request w1 w2 :
  fst (POST env request w1) = fst (POST env request w2).
Proof.
  rewrite !POST_answer. f_equal. apply oblivious_POST_try.
Qed.

End Oblivious.

(* ================================================================== *)
(** * Concrete runs *)
(* ================================================================== *)

(** The end-to-end scenario: the provider supplies colours only, the
    endpoint fills in the five other fields and makes one call. *)
Example end_to_end :
  let run := POST (stubbed a_key (Responded (completion red_reply)))
                  (posting a_png) fresh_world in
  fst run =
  success
    (VObject
       [(lit "colors",
         VArray [VObject [(lit "name", VString (lit "Red"));
                          (lit "hex", VString (lit "#FF0000"))]]);
        (lit "typography",
         VObject [(lit "headings", VString (lit "Sans-serif, semi-bold"));
                  (lit "body", VString (lit "Sans-serif, regular"));
                  (lit "weights", strings ["400"; "600"])]);
        (lit "spacing", strings ["4px"; "8px"; "16px"; "24px"; "32px"]);
        (lit "animations", VArray []);
        (lit "elevation", VArray []);
        (lit "radius", strings ["4px"; "8px"; "12px"])])
    (VString (lit "Use a red background..."))
  /\ length (outbound (snd run)) = 1 /\ console (snd run) = [].
Proof. vm_compute. repeat split. Qed.

Example fenced_reply_is_unwrapped :
  fst (POST (stubbed a_key (Responded (completion (fence_json red_reply))))
            (posting a_png) fresh_world)
  = fst (POST (stubbed a_key (Responded (completion red_reply)))
              (posting a_png) fresh_world).
Proof. vm_compute. reflexivity. Qed.

Example reply_null_is_unexpected :
  POST (stubbed a_key (Responded (completion (lit "null"))))
       (posting a_png) fresh_world
  = (unexpected_error,
     {| console := [LogUnexpected];
        outbound :=
          [completion_request
             (stubbed a_key (Responded (completion (lit "null"))))
             (lit "pplx-0123456789") a_png] |}).
Proof. vm_compute. reflexivity. Qed.

Example reply_not_json :
  fst (POST (stubbed a_key (Responded (completion (lit "I cannot help."))))
            (posting a_png) fresh_world)
  = parse_failure.
Proof. vm_compute. reflexivity. Qed.

Example network_error_is_unexpected :
  fst (POST (stubbed a_key NetworkError) (posting a_png) fresh_world)
  = unexpected_error.
Proof. vm_compute. reflexivity. Qed.

Example not_a_data_url :
  fst (POST (stubbed None NetworkError)
            (posting (lit "https://example.com/home.png")) fresh_world)
  = invalid_image_format.
Proof. vm_compute. reflexivity. Qed.

Example image_is_a_number :
  fst (POST (stubbed a_key NetworkError)
            {| request_json :=
                 Some (VObject [(lit "imageBase64", VNumber 7)]) |}
            fresh_world)
  = unexpected_error.
Proof. vm_compute. reflexivity. Qed.

Example rate_limited :
  POST (stubbed a_key (Responded (bare_reply 429))) (posting a_png)
       fresh_world
  = (NextResponse_json
       (error_body "Rate limit exceeded. Please try again in a moment.") 429,
     {| console := [LogProviderError 429 []];
        outbound :=
          [completion_request (stubbed a_key (Responded (bare_reply 429)))
                              (lit "pplx-0123456789") a_png] |}).
Proof. vm_compute. reflexivity. Qed.

Example empty_choices :
  fst (POST (stubbed a_key
               (Responded
                  {| response_status := 200; response_text := [];
                     response_json :=
                       Some (VObject [(lit "choices", VArray [])]) |}))
            (posting a_png) fresh_world)
  = NextResponse_json
      (error_body "No analysis received from AI. Please try again.") 500.
Proof. vm_compute. reflexivity. Qed.

Example accepted_then_loaded :
  acceptFile {| file_name := lit "home.png"; file_type := lit "image/png";
                file_size := 2048 |} (ReadLoaded a_png)
             {| image := None; fileName := []; isLoading := false;
                error := Some (lit "Image must be less than 50MB");
                result := None; isDragging := false; copied := false |}
  = {| image := Some a_png; fileName := lit "home.png"; isLoading := false;
       error := None; result := None; isDragging := false;
       copied := false |}.
Proof. reflexivity. Qed.

Example no_image :
  fst (POST (stubbed a_key NetworkError)
            {| request_json := Some (VObject []) |} fresh_world)
  = NextResponse_json
      (error_body "No image provided. Please upload an image.") 400.
Proof. vm_compute. reflexivity. Qed.

(** ** The scenario of the concrete runs: a PNG, a key, a stubbed reply *)

Lemma accepted_a_png : accepted (posting a_png) a_png.
Proof.
  exists (VObject [(lit "imageBase64", VString a_png)]),
         (lit "image/png"), (lit "iVBORw0KGgo=").
  repeat split; reflexivity.
Qed.

Lemma stubbed_replied reply :
  replied (stubbed a_key (Responded reply)) (posting a_png) reply.
Proof.
  exists a_png, (lit "pplx-0123456789").
  split; [exact accepted_a_png|].
  repeat split; try reflexivity. discriminate.
Qed.

Lemma stubbed_replied_text content :
  content <> [] ->
  replied_text (stubbed a_key (Responded (completion content)))
               (posting a_png) content.
Proof.
  intros H. exists (completion content), (completion_data content).
  split; [apply stubbed_replied|]. repeat split; try reflexivity. exact H.
Qed.

Lemma stubbed_parsed content a :
  content <> [] ->
  JsonRef.JSON_parse (cleanContent content) = Some a ->
  parsed (stubbed a_key (Responded (completion content))) (posting a_png) a.
Proof.
  intros H Hp. exists content. split; [now apply stubbed_replied_text|].
  exact Hp.
Qed.

(* ================================================================== *)
(** * Data URLs *)
(* ================================================================== *)

Lemma takeWhile_dropWhile f (s : jsstring) :
  takeWhile f s ++ dropWhile f s = s.
Proof.
  induction s as [|c s IH]; simpl; [reflexivity|].
  destruct (f c); simpl; [now rewrite IH | reflexivity].
Qed.

Lemma forallb_takeWhile f (s : jsstring) : forallb f (takeWhile f s) = true.
Proof.
  induction s as [|c s IH]; simpl; [reflexivity|].
  destruct (f c) eqn:E; simpl; [now rewrite E, IH | reflexivity].
Qed.

(** Two texts cut at their first semicolon are cut alike. *)
Lemma cut_at_semicolon (a b x y : jsstring) :
  forallb not_semicolon a = true -> forallb not_semicolon b = true ->
  a ++ semicolon :: x = b ++ semicolon :: y -> a = b /\ x = y.
Proof.
  revert b. induction a as [|c a IH]; intros [|d b] Ha Hb E; simpl in *.
  - now inversion E.
  - inversion E; subst d. discriminate Hb.
  - inversion E; subst c. discriminate Ha.
  - apply andb_prop in Ha as [_ Ha]. apply andb_prop in Hb as [_ Hb].
    inversion E; subst d. destruct (IH b Ha Hb H1) as [-> ->]. now split.
Qed.

(** What the first regular expression matches is a data URL, and its
    first group is the MIME type. *)
Lemma match_data_url_inv s m p :
  match_data_url s = Some (m, p) ->
  s = data_url m p /\ forallb not_semicolon m = true.
Proof.
  unfold match_data_url.
  destruct (strip_prefix (lit "data:image/") s) as [rest|] eqn:H1;
    [|discriminate].
  apply strip_prefix_Some in H1.
  destruct (takeWhile not_semicolon rest) as [|c sub] eqn:Ht; [discriminate|].
  destruct (strip_prefix (lit ";base64,") (dropWhile not_semicolon rest))
    as [payload|] eqn:H2; [|discriminate].
  apply strip_prefix_Some in H2.
  destruct payload as [|c' payload]; [discriminate|].
  destruct (forallb dot (c' :: payload)); [|discriminate].
  intros [= <- <-]. split.
  - change (s = data_url (lit "image/" ++ c :: sub) (c' :: payload)).
    rewrite H1, <- (takeWhile_dropWhile not_semicolon rest), Ht, H2.
    unfold data_url.
    change (lit "data:image/") with (lit "data:" ++ lit "image/").
    now rewrite <- !app_assoc.
  - change (forallb not_semicolon (lit "image/" ++ c :: sub) = true).
    rewrite forallb_app, <- Ht, forallb_takeWhile. reflexivity.
Qed.

Lemma data_url_inj m p m' p' :
  forallb not_semicolon m = true -> forallb not_semicolon m' = true ->
  data_url m p = data_url m' p' -> m = m'.
Proof.
  intros Hm Hm' E. unfold data_url in E. apply app_inv_head in E.
  change (lit ";base64,") with (semicolon :: lit "base64,") in E.
  simpl in E. now destruct (cut_at_semicolon _ _ _ _ Hm Hm' E).
Qed.

(** A well-formed data URL of an image type matches. *)
Lemma match_data_url_image sub payload :
  sub <> [] -> well_formed_data_url (lit "image/" ++ sub) payload ->
  match_data_url (data_url (lit "image/" ++ sub) payload)
  = Some (lit "image/" ++ sub, payload).
Proof.
  intros Hsub (Hm & Hp & Hd). unfold match_data_url, data_url.
  rewrite forallb_app in Hm. apply andb_prop in Hm as [_ Hm].
  replace (lit "data:" ++ (lit "image/" ++ sub) ++ lit ";base64," ++ payload)
    with (lit "data:image/" ++ sub ++ lit ";base64," ++ payload)
    by (change (lit "data:image/") with (lit "data:" ++ lit "image/");
        now rewrite <- !app_assoc).
  rewrite strip_prefix_app.
  change (lit ";base64," ++ payload)
    with (semicolon :: lit "base64," ++ payload).
  rewrite takeWhile_app_stop, dropWhile_app_stop by (assumption || reflexivity).
  destruct sub as [|c sub]; [congruence|].
  change (semicolon :: lit "base64," ++ payload)
    with (lit ";base64," ++ payload).
  rewrite strip_prefix_app.
  destruct payload as [|c' payload]; [congruence|]. now rewrite Hd.
Qed.

(** Whether a data URL starts with [data:image/] is whether its MIME type
    starts with [image/]. *)
Lemma startsWith_before_semicolon (m p rest : jsstring) :
  forallb not_semicolon p = true ->
  startsWith (m ++ semicolon :: rest) p = startsWith m p.
Proof.
  revert m. induction p as [|c p IH]; intros m Hp; [reflexivity|].
  simpl in Hp. apply andb_prop in Hp as [Hc Hp].
  destruct m as [|d m]; simpl.
  - unfold not_semicolon in Hc. now destruct (N.eqb c semicolon).
  - now rewrite IH.
Qed.

Lemma startsWith_data_url mime payload :
  startsWith (data_url mime payload) (lit "data:image/")
  = startsWith mime (lit "image/").
Proof.
  unfold data_url.
  change (lit ";base64," ++ payload)
    with (semicolon :: lit "base64," ++ payload).
  rewrite <- (startsWith_before_semicolon mime (lit "image/")
                (lit "base64," ++ payload)) by reflexivity.
  reflexivity.
Qed.

(* ================================================================== *)
(** * The matchers against what the regular expressions say *)
(* ================================================================== *)

Lemma dropWhile_inv f (s : jsstring) c r :
  dropWhile f s = c :: r ->
  exists pre, s = pre ++ c :: r /\ forallb f pre = true /\ f c = false.
Proof.
  induction s as [|d s IH]; simpl; [discriminate|].
  destruct (f d) eqn:E.
  - intros H. destruct (IH H) as (pre & -> & Hpre & Hc).
    exists (d :: pre). simpl. now rewrite E, Hpre.
  - intros [= -> ->]. exists []. now split.
Qed.

Lemma dropWhile_nil f (s : jsstring) :
  dropWhile f s = [] -> forallb f s = true.
Proof.
  induction s as [|d s IH]; simpl; [reflexivity|].
  destruct (f d); [exact IH | discriminate].
Qed.

Lemma not_open_brace_false c : not_open_brace c = false -> c = open_brace.
Proof.
  unfold not_open_brace. destruct (N.eqb_spec c open_brace); [auto|discriminate].
Qed.

Lemma not_close_brace_false c : not_close_brace c = false -> c = close_brace.
Proof.
  unfold not_close_brace.
  destruct (N.eqb_spec c close_brace); [auto|discriminate].
Qed.

(** What [/\{[\s\S]*\}/] matches starts at the first opening brace of the
    text and ends at its last closing brace. *)
Lemma match_braces_inv s m :
  match_braces s = Some m ->
  exists pre mid post,
    s = pre ++ m ++ post /\
    m = open_brace :: mid ++ [close_brace] /\
    forallb not_open_brace pre = true /\
    forallb not_close_brace post = true.
Proof.
  unfold match_braces.
  destruct (dropWhile not_open_brace s) as [|first rest] eqn:H1;
    [discriminate|].
  destruct (dropWhile_inv _ _ _ _ H1) as (pre & -> & Hpre & Hfirst).
  apply not_open_brace_false in Hfirst. subst first.
  destruct (dropWhile not_close_brace (rev rest)) as [|last before] eqn:H2;
    [discriminate|].
  destruct (dropWhile_inv _ _ _ _ H2) as (tsop & Hrev & Hpost & Hlast).
  apply not_close_brace_false in Hlast. subst last.
  intros [= <-].
  exists pre, (rev before), (rev tsop).
  assert (Hrest : rest = rev before ++ close_brace :: rev tsop).
  { rewrite <- (rev_involutive rest), Hrev, rev_app_distr. simpl.
    now rewrite <- app_assoc. }
  repeat split.
  - rewrite Hrest. simpl. now rewrite <- !app_assoc.
  - assumption.
  - now rewrite forallb_rev.
Qed.

Lemma first_open_brace (pre0 rest pre tail : jsstring) :
  forallb not_open_brace pre0 = true ->
  pre0 ++ open_brace :: rest = pre ++ open_brace :: tail ->
  exists x, rest = x ++ tail.
Proof.
  revert pre. induction pre0 as [|c pre0 IH]; intros pre H0 E.
  - destruct pre as [|d pre]; simpl in E.
    + injection E as ->. now exists [].
    + injection E as <- ->. exists (pre ++ [open_brace]).
      now rewrite <- app_assoc.
  - simpl in H0. apply andb_prop in H0 as [Hc H0].
    destruct pre as [|d pre]; simpl in E.
    + injection E as -> _. discriminate Hc.
    + injection E as _ E. now apply (IH pre).
Qed.

(** [/\{[\s\S]*\}/] fails only on a text with no closing brace after an
    opening brace. *)
Lemma match_braces_None s :
  match_braces s = None ->
  forall pre mid post, s <> pre ++ open_brace :: mid ++ close_brace :: post.
Proof.
  unfold match_braces. intros H pre mid post ->.
  destruct (dropWhile not_open_brace
              (pre ++ open_brace :: mid ++ close_brace :: post))
    as [|first rest] eqn:H1.
  - apply dropWhile_nil in H1. rewrite forallb_app in H1.
    apply andb_prop in H1 as [_ H1]. discriminate H1.
  - destruct (dropWhile_inv _ _ _ _ H1) as (pre0 & E & Hpre0 & Hfirst).
    apply not_open_brace_false in Hfirst. subst first.
    symmetry in E.
    destruct (first_open_brace _ _ _ _ Hpre0 E) as [x ->].
    destruct (dropWhile not_close_brace
                (rev (x ++ mid ++ close_brace :: post))) eqn:H2;
      [|discriminate].
    apply dropWhile_nil in H2. rewrite forallb_rev, !forallb_app in H2.
    apply andb_prop in H2 as [_ H2]. apply andb_prop in H2 as [_ H2].
    discriminate H2.
Qed.

(** What [/^data:(image\/[^;]+);base64,(.+)$/] matches, in full. *)
Lemma match_data_url_groups s m p :
  match_data_url s = Some (m, p) <->
  exists sub,
    s = lit "data:" ++ m ++ lit ";base64," ++ p /\
    m = lit "image/" ++ sub /\ sub <> [] /\
    forallb not_semicolon sub = true /\
    p <> [] /\ forallb dot p = true.
Proof.
  split.
  - intros H. destruct (match_data_url_inv s m p H) as [E Hm].
    revert H. unfold match_data_url.
    destruct (strip_prefix (lit "data:image/") s) as [rest|]; [|discriminate].
    destruct (takeWhile not_semicolon rest) as [|c sub] eqn:Ht;
      [discriminate|].
    destruct (strip_prefix (lit ";base64,") (dropWhile not_semicolon rest))
      as [payload|]; [|discriminate].
    destruct payload as [|c' payload]; [discriminate|].
    destruct (forallb dot (c' :: payload)) eqn:Hd; [|discriminate].
    intros [= <- <-]. exists (c :: sub).
    repeat split; try assumption; try discriminate;
      try (rewrite <- Ht; apply forallb_takeWhile).
  - intros (sub & -> & -> & Hsub & Hns & Hp & Hd).
    apply (match_data_url_image sub p Hsub).
    repeat split; assumption.
Qed.

(* ================================================================== *)
(** * Shared facts *)
(* ================================================================== *)

Lemma eqb_eq (a b : jsstring) : JsString.eqb a b = true -> a = b.
Proof.
  revert b. induction a as [|c a IH]; intros [|d b]; simpl;
    try discriminate; [reflexivity|].
  intros H. apply andb_prop in H as [H1 H2].
  apply N.eqb_eq in H1. subst d. now rewrite (IH b H2).
Qed.

Lemma accepted_functional request image image' :
  accepted request image -> accepted request image' -> image = image'.
Proof.
  intros (b & m & p & Hb & Hi & _) (b' & m' & p' & Hb' & Hi' & _).
  congruence.
Qed.


(* ================================================================== *)
(** * JSON on the wire *)
(* ================================================================== *)

Lemma through_JSON_object m :
  through_JSON (VObject m) = VObject (members_through_JSON m).
Proof. reflexivity. Qed.

Lemma through_JSON_array l :
  through_JSON (VArray l) = VArray (map element_through_JSON l).
Proof. reflexivity. Qed.

Lemma through_JSON_error_body msg :
  through_JSON (error_body msg) = error_body msg.
Proof. reflexivity. Qed.

Lemma number_through_JSON_cases x :
  number_through_JSON x = VNull \/ exists y, number_through_JSON x = VNumber y.
Proof.
  unfold number_through_JSON.
  destruct (negb (PrimFloat.eqb x x)
            || PrimFloat.eqb (PrimFloat.abs x) infinity);
    [now left|].
  destruct (PrimFloat.eqb x 0); right; eexists; reflexivity.
Qed.

(** The property of the text is the last binding of the name, unless that
    is [undefined]. *)
Lemma lookup_through_JSON k m :
  lookup k (members_through_JSON m)
  = match lookup k m with
    | Some VUndefined | None => None
    | Some v => Some (through_JSON v)
    end.
Proof.
  induction m as [|[k' x] rest IH]; [reflexivity|].
  cbn [members_through_JSON lookup].
  destruct (lookup k' rest) as [y|] eqn:Ek'.
  - rewrite IH. destruct (lookup k rest) as [v|] eqn:Ek; [reflexivity|].
    destruct (JsString.eqb k' k) eqn:E; [|reflexivity].
    apply eqb_eq in E. subst k'. congruence.
  - assert (Hk : JsString.eqb k' k = true -> lookup k rest = None)
      by (intros E; apply eqb_eq in E; now subst k').
    destruct x;
      cbn [lookup]; rewrite IH;
      (destruct (lookup k rest) as [v|] eqn:Ek;
       [ destruct (JsString.eqb k' k) eqn:E;
         [ specialize (Hk eq_refl); congruence | destruct v; reflexivity ]
       | destruct (JsString.eqb k' k); reflexivity ]).
Qed.

Lemma own_property_through_JSON k m :
  own_property k (members_through_JSON m) = through_JSON (own_property k m).
Proof.
  unfold own_property. rewrite lookup_through_JSON.
  destruct (lookup k m) as [[]|]; reflexivity.
Qed.

Lemma Get_through_JSON_object m k :
  Get (through_JSON (VObject m)) k = Some (through_JSON (own_property (Key.name_of k) m)).
Proof.
  rewrite through_JSON_object. cbn [Get].
  now rewrite own_property_through_JSON.
Qed.

Lemma is_string_through_JSON v : is_string (through_JSON v) = is_string v.
Proof.
  destruct v; try reflexivity.
  cbn [through_JSON].
  destruct (number_through_JSON_cases x) as [->|[y ->]]; reflexivity.
Qed.

Lemma is_string_element_through_JSON v :
  is_string (element_through_JSON v) = is_string v.
Proof. destruct v; try reflexivity. apply (is_string_through_JSON (VNumber x)). Qed.

Lemma is_string_array_through_JSON v :
  is_string_array (through_JSON v) = is_string_array v.
Proof.
  destruct v; try reflexivity.
  - cbn [through_JSON].
    destruct (number_through_JSON_cases x) as [->|[y ->]]; reflexivity.
  - rewrite through_JSON_array. cbn [is_string_array].
    induction elements as [|e l IH]; [reflexivity|].
    cbn [map forallb]. now rewrite is_string_element_through_JSON, IH.
Qed.

Lemma is_ColorToken_through_JSON v :
  is_ColorToken (through_JSON v) = is_ColorToken v.
Proof.
  destruct v; try reflexivity.
  - cbn [through_JSON].
    destruct (number_through_JSON_cases x) as [->|[y ->]]; reflexivity.
  - rewrite through_JSON_object. cbn [is_ColorToken].
    now rewrite !own_property_through_JSON, !is_string_through_JSON.
Qed.

Lemma is_ColorToken_array_through_JSON v :
  is_ColorToken_array (through_JSON v) = is_ColorToken_array v.
Proof.
  destruct v; try reflexivity.
  - cbn [through_JSON].
    destruct (number_through_JSON_cases x) as [->|[y ->]]; reflexivity.
  - rewrite through_JSON_array. cbn [is_ColorToken_array].
    induction elements as [|e l IH]; [reflexivity|].
    cbn [map forallb]. rewrite IH. f_equal.
    destruct e; try reflexivity; apply is_ColorToken_through_JSON.
Qed.

Lemma is_TypographyToken_through_JSON v :
  is_TypographyToken (through_JSON v) = is_TypographyToken v.
Proof.
  destruct v; try reflexivity.
  - cbn [through_JSON].
    destruct (number_through_JSON_cases x) as [->|[y ->]]; reflexivity.
  - rewrite through_JSON_object. cbn [is_TypographyToken].
    now rewrite !own_property_through_JSON, !is_string_through_JSON,
      is_string_array_through_JSON.
Qed.

(** A value of the declared type [DesignTokens] arrives as one. *)
Lemma is_DesignTokens_through_JSON v :
  is_DesignTokens (through_JSON v) = is_DesignTokens v.
Proof.
  destruct v; try reflexivity.
  - cbn [through_JSON].
    destruct (number_through_JSON_cases x) as [->|[y ->]]; reflexivity.
  - rewrite through_JSON_object. cbn [is_DesignTokens].
    now rewrite !own_property_through_JSON, !is_string_array_through_JSON,
      is_ColorToken_array_through_JSON, is_TypographyToken_through_JSON.
Qed.

(** What is not an array does not arrive as one. *)
Lemma array_receiver_through_JSON v :
  array_receiver v = None -> array_receiver (through_JSON v) = None.
Proof.
  destruct v; try reflexivity; try discriminate.
  intros _. cbn [through_JSON].
  destruct (number_through_JSON_cases x) as [->|[y ->]]; reflexivity.
Qed.

Lemma through_JSON_string v : is_string v = true -> through_JSON v = v.
Proof. destruct v; try discriminate. reflexivity. Qed.

(** The body of a 200 as the client reads it. *)
Lemma through_JSON_success t p :
  truthy p = true ->
  through_JSON (body (success (filled t) p))
  = VObject [(lit "tokens", through_JSON (filled t));
             (lit "prompt", through_JSON p)].
Proof. destruct p; try discriminate; reflexivity. Qed.

Lemma served_posting env w img :
  served env w (VObject [(lit "imageBase64", VString img)])
  = FetchResolved (status (fst (POST env (posting img) w)))
      (JsonResolved (through_JSON (body (fst (POST env (posting img) w))))).
Proof. reflexivity. Qed.

(** What the wire does to the numbers that JSON text cannot carry, and to
    [undefined]. *)
Example through_JSON_numbers :
  through_JSON
    (VObject [(lit "a", VArray [VNumber (-0)%float; VNumber infinity;
                                VNumber neg_infinity; VNumber nan;
                                VNumber 1.5%float; VUndefined]);
              (lit "b", VUndefined);
              (lit "c", VString (lit "8px"));
              (lit "c", VNumber 8%float)])
  = VObject [(lit "a", VArray [VNumber 0%float; VNull; VNull; VNull;
                               VNumber 1.5%float; VNull]);
             (lit "c", VNumber 8%float)].
Proof. vm_compute. reflexivity. Qed.

(* ================================================================== *)
(** * The properties of the specification *)
(* ================================================================== *)

(** ** Validation order *)

(** C1, as the code has it.  For a well-formed data URL whose MIME type is
    outside the allow-list the handler never calls the provider.  With the
    credential configured it answers 400, and for an image type the
    unsupported-format error.  The credential check of lines 92-99 comes
    before the allow-list check of lines 102-114: with no credential an
    image type gets the 500 of the missing key.  A type that is not an
    image type is turned away on line 87, before the credential is looked
    at, with the invalid-image-format 400. *)
Theorem unsupported_mime_rejected env request body mime payload w :
  request_json request = Some body ->
  Get body Key.imageBase64 = Some (VString (data_url mime payload)) ->
  well_formed_data_url mime payload ->
  includes supportedFormats mime = false ->
  let r := fst (POST env request w) in
  outbound (snd (POST env request w)) = outbound w /\
  (configured env = true -> status r = 400%Z) /\
  (configured env = true ->
   forall sub, mime = lit "image/" ++ sub -> sub <> [] ->
               r = unsupported_format) /\
  (configured env = false -> startsWith mime (lit "image/") = true ->
   r = key_not_configured) /\
  (startsWith mime (lit "image/") = false -> r = invalid_image_format).
Proof.
  intros Hb Hi Hwf Hout.
  assert (Ht : truthy (VString (data_url mime payload)) = true) by reflexivity.
  unfold POST, POST_try, configured.
  rewrite Hb. run. rewrite Hi. run. rewrite Ht. run.
  rewrite startsWith_data_url.
  destruct (startsWith mime (lit "image/")) eqn:Hs; run.
  - destruct (PERPLEXITY_API_KEY env) as [[|k key]|]; run'.
    + cbn. repeat split; intros; try discriminate; reflexivity.
    + destruct (match_data_url (data_url mime payload)) as [[m p]|] eqn:Hm;
        run.
      * destruct (match_data_url_inv _ _ _ Hm) as [E Hm'].
        destruct Hwf as (Hmime & _ & _).
        apply (data_url_inj _ _ _ _ Hmime Hm') in E. subst m.
        rewrite Hout. run. cbn.
        repeat split; intros; try discriminate; reflexivity.
      * cbn. repeat split; intros; try discriminate; try reflexivity.
        subst mime. rewrite match_data_url_image in Hm by assumption.
        discriminate.
    + cbn. repeat split; intros; try discriminate; reflexivity.
  - cbn. repeat split; intros; try discriminate; try reflexivity.
    subst mime. rewrite startsWith_app in Hs. discriminate.
Qed.

Lemma unsupported_mime_rejected_witness :
  fst (POST (stubbed a_key NetworkError) (posting a_bmp) fresh_world)
  = unsupported_format /\
  outbound (snd (POST (stubbed a_key NetworkError) (posting a_bmp)
                      fresh_world)) = [].
Proof.
  assert (Hwf : well_formed_data_url (lit "image/bmp") (lit "Qk0="))
    by (repeat split; discriminate).
  destruct (unsupported_mime_rejected
              (stubbed a_key NetworkError) (posting a_bmp)
              (VObject [(lit "imageBase64", VString a_bmp)])
              (lit "image/bmp") (lit "Qk0=") fresh_world
              eq_refl eq_refl Hwf eq_refl)
    as (Hcalls & _ & Hbmp & _ & _).
  split; [|exact Hcalls].
  apply (Hbmp eq_refl (lit "bmp") eq_refl). discriminate.
Defined.

(** C1 as it is written fails when the credential is missing: a BMP data
    URL is answered with the 500 of the missing key, not with a 400. *)
Lemma credential_check_comes_first :
  fst (POST (stubbed None NetworkError) (posting a_bmp) fresh_world)
  = key_not_configured /\
  ~ rejects_unsupported_whatever_the_credential.
Proof.
  split; [reflexivity|]. intros H.
  assert (Hwf : well_formed_data_url (lit "image/bmp") (lit "Qk0="))
    by (repeat split; discriminate).
  destruct (H (stubbed None NetworkError) (posting a_bmp)
              (VObject [(lit "imageBase64", VString a_bmp)])
              (lit "image/bmp") (lit "Qk0=") fresh_world
              eq_refl eq_refl Hwf eq_refl) as [Hstatus _].
  vm_compute in Hstatus. discriminate Hstatus.
Qed.

(** ** Normalization *)

Lemma normalizeTokens_filled t :
  truthy t = true -> normalizeTokens t = Some (filled t).
Proof. exact (normalizeTokens_truthy t). Qed.

Lemma filled_field_fits check t k d :
  check d = true ->
  check (filled_field t k d) = fits_or_falsy check (optional_Get t k).
Proof.
  intros Hd. unfold filled_field, or_else, fits_or_falsy.
  destruct (truthy (optional_Get t k)); simpl; [reflexivity | exact Hd].
Qed.

(** The answered record has the declared type exactly when every truthy
    field of the model's record has. *)
Lemma is_DesignTokens_filled t :
  is_DesignTokens (filled t) = truthy_fields_typed t.
Proof.
  unfold truthy_fields_typed.
  rewrite <- (filled_field_fits is_ColorToken_array t Key.colors
                default_colors eq_refl).
  rewrite <- (filled_field_fits is_TypographyToken t Key.typography
                default_typography eq_refl).
  rewrite <- (filled_field_fits is_string_array t Key.spacing
                default_spacing eq_refl).
  rewrite <- (filled_field_fits is_string_array t Key.animations
                default_animations eq_refl).
  rewrite <- (filled_field_fits is_string_array t Key.elevation
                default_elevation eq_refl).
  rewrite <- (filled_field_fits is_string_array t Key.radius
                default_radius eq_refl).
  reflexivity.
Qed.

Lemma filled_field_truthy t k d :
  truthy d = true -> truthy (filled_field t k d) = true.
Proof.
  intros Hd. unfold filled_field, or_else.
  destruct (truthy (optional_Get t k)) eqn:E; assumption.
Qed.

Lemma filled_fields_truthy t :
  forallb (fun k => truthy (optional_Get (filled t) k)) token_fields = true.
Proof.
  unfold token_fields, forallb.
  change (optional_Get (filled t) Key.colors)
    with (filled_field t Key.colors default_colors).
  change (optional_Get (filled t) Key.typography)
    with (filled_field t Key.typography default_typography).
  change (optional_Get (filled t) Key.spacing)
    with (filled_field t Key.spacing default_spacing).
  change (optional_Get (filled t) Key.animations)
    with (filled_field t Key.animations default_animations).
  change (optional_Get (filled t) Key.elevation)
    with (filled_field t Key.elevation default_elevation).
  change (optional_Get (filled t) Key.radius)
    with (filled_field t Key.radius default_radius).
  now rewrite !filled_field_truthy by reflexivity.
Qed.

(** C2, as the code has it.  The tokens of every 200 response are the
    record [filled t] of the model's truthy [tokens] value [t]: all six
    fields are present with a truthy value, a field the model left out or
    supplied falsy holds its typed default, and a field the model supplied
    truthy holds the model's value whatever its type.  So the record has
    the declared type exactly when the model's truthy fields have. *)
Theorem success_has_all_six_fields env request w :
  status (fst (POST env request w)) = 200%Z ->
  exists analysisResult t prompt,
    parsed env request analysisResult /\
    Get analysisResult Key.tokens = Some t /\
    body (fst (POST env request w))
    = VObject [(lit "tokens", filled t); (lit "prompt", prompt)] /\
    forallb (fun k => truthy (optional_Get (filled t) k)) token_fields
    = true /\
    is_DesignTokens (filled t) = truthy_fields_typed t.
Proof.
  intros H.
  destruct (POST_200 env request w H)
    as (a & t & p & t' & Hp & Ht & Hpr & Tt & Tp & Hn & Hr).
  exists a, t, p. rewrite Hr.
  rewrite (normalizeTokens_filled t Tt) in Hn. injection Hn as <-.
  repeat split; try assumption.
  - apply filled_fields_truthy.
  - apply is_DesignTokens_filled.
Qed.

Lemma success_has_all_six_fields_witness :
  exists analysisResult t prompt,
    parsed (stubbed a_key (Responded (completion red_reply)))
           (posting a_png) analysisResult /\
    Get analysisResult Key.tokens = Some t /\
    body (fst (POST (stubbed a_key (Responded (completion red_reply)))
                    (posting a_png) fresh_world))
    = VObject [(lit "tokens", filled t); (lit "prompt", prompt)] /\
    forallb (fun k => truthy (optional_Get (filled t) k)) token_fields
    = true /\
    is_DesignTokens (filled t) = truthy_fields_typed t.
Proof.
  apply (success_has_all_six_fields
           (stubbed a_key (Responded (completion red_reply)))
           (posting a_png) fresh_world).
  vm_compute. reflexivity.
Defined.

(** C2 as it is written fails: a truthy field of the wrong type passes
    through.  The model supplies a string for [colors] and the 200
    response carries that string. *)
Lemma wrongly_typed_field_passes_through :
  let run := POST (stubbed a_key
                     (Responded
                        (completion
                           (quoted "{'tokens':{'colors':'red'},'prompt':'p'}"))))
                  (posting a_png) fresh_world in
  status (fst run) = 200%Z /\
  optional_Get (optional_Get (body (fst run)) Key.tokens) Key.colors
  = VString (lit "red") /\
  ~ every_success_is_typed.
Proof.
  split; [reflexivity|]. split; [reflexivity|]. intros H.
  destruct (H (stubbed a_key
                 (Responded
                    (completion
                       (quoted "{'tokens':{'colors':'red'},'prompt':'p'}"))))
              (posting a_png) fresh_world eq_refl)
    as (tokens' & prompt & Hbody & Htyped).
  vm_compute in Hbody. injection Hbody as <- _.
  vm_compute in Htyped. discriminate Htyped.
Qed.

(** ** The structure check *)

(** The run that reaches the structure check with a falsy [tokens] or
    [prompt] answers the missing-fields 500. *)
Lemma POST_missing env request a t p w :
  parsed env request a ->
  Get a Key.tokens = Some t -> Get a Key.prompt = Some p ->
  truthy t && truthy p = false ->
  fst (POST env request w) = missing_fields.
Proof.
  intros Hp Ht Hpr H.
  destruct (POST_try_parsed env request a w Hp) as [c Hrun].
  rewrite POST_answer, Hrun, (validate_missing a t p _ Ht Hpr H).
  reflexivity.
Qed.

(** The run that reaches the structure check with truthy [tokens] and
    [prompt] answers the filled record. *)
Lemma POST_present env request a t p w :
  parsed env request a ->
  Get a Key.tokens = Some t -> Get a Key.prompt = Some p ->
  truthy t = true -> truthy p = true ->
  fst (POST env request w) = success (filled t) p.
Proof.
  intros Hp Ht Hpr Tt Tp.
  destruct (POST_try_parsed env request a w Hp) as [c Hrun].
  destruct (validate_present a t p (called c w) Ht Hpr Tt Tp)
    as (t' & Hn & Hv).
  rewrite (normalizeTokens_filled t Tt) in Hn. injection Hn as <-.
  rewrite POST_answer, Hrun, Hv. reflexivity.
Qed.

Lemma lookup_None_own_property k members :
  lookup k members = None -> own_property k members = VUndefined.
Proof. intros H. unfold own_property. now rewrite H. Qed.

(** C3, as the code has it.  A 200 is answered only if the parsed value has
    a truthy [tokens] and a truthy [prompt], of whatever type; and when the
    parsed object lacks the [tokens] key or the [prompt] key the answer is
    the missing-fields 500. *)
Theorem success_needs_truthy_tokens_and_prompt env request w :
  (status (fst (POST env request w)) = 200%Z ->
   exists analysisResult t p,
     parsed env request analysisResult /\
     Get analysisResult Key.tokens = Some t /\ truthy t = true /\
     Get analysisResult Key.prompt = Some p /\ truthy p = true) /\
  (forall members,
     parsed env request (VObject members) ->
     lookup (lit "tokens") members = None \/
     lookup (lit "prompt") members = None ->
     fst (POST env request w) = missing_fields /\
     status (fst (POST env request w)) = 500%Z).
Proof.
  split.
  - intros H.
    destruct (POST_200 env request w H)
      as (a & t & p & t' & Hp & Ht & Hpr & Tt & Tp & _ & _).
    exists a, t, p. repeat split; assumption.
  - intros members Hp Habsent.
    assert (Hr : fst (POST env request w) = missing_fields).
    { apply (POST_missing env request (VObject members)
               (own_property (lit "tokens") members)
               (own_property (lit "prompt") members) w Hp);
        [reflexivity | reflexivity |].
      destruct Habsent as [H|H];
        rewrite (lookup_None_own_property _ _ H); simpl;
        [reflexivity | apply andb_false_r]. }
    rewrite Hr. split; reflexivity.
Qed.

Lemma success_needs_truthy_tokens_and_prompt_witness :
  fst (POST (stubbed a_key
               (Responded (completion (quoted "{'prompt':'Use a grid.'}"))))
            (posting a_png) fresh_world)
  = missing_fields.
Proof.
  apply (proj2 (success_needs_truthy_tokens_and_prompt
                  (stubbed a_key
                     (Responded
                        (completion (quoted "{'prompt':'Use a grid.'}"))))
                  (posting a_png) fresh_world)
               [(lit "prompt", VString (lit "Use a grid."))]).
  - apply stubbed_parsed; [discriminate | reflexivity].
  - left. reflexivity.
Defined.

(** C3 as it is written fails: the check is one of truthiness, not of
    type.  A number for [tokens] and a number for [prompt] are answered
    with a 200. *)
Lemma numbers_pass_the_structure_check :
  let env := stubbed a_key
               (Responded (completion (quoted "{'tokens':1,'prompt':2}"))) in
  fst (POST env (posting a_png) fresh_world)
  = success (filled (VNumber 1)) (VNumber 2) /\
  ~ success_needs_object_and_string.
Proof.
  split; [reflexivity|]. intros H.
  destruct (H (stubbed a_key
                 (Responded (completion (quoted "{'tokens':1,'prompt':2}"))))
              (posting a_png) fresh_world eq_refl)
    as (a & members & text & Hparsed & Htokens & _).
  destruct Hparsed as (content & (reply & d & Hr & _ & Hj & Hc & _) & Hp).
  destruct Hr as (image & apiKey & _ & _ & _ & Hprov).
  simpl in Hprov. injection Hprov as <-.
  simpl in Hj. injection Hj as <-.
  vm_compute in Hc. injection Hc as <-.
  vm_compute in Hp. injection Hp as <-.
  vm_compute in Htokens. discriminate Htokens.
Qed.

(** C10.  When the parsed object has a [prompt] that is the empty string,
    or a [tokens] that is falsy, the answer is the missing-fields 500: the
    check of line 216 tests truthiness, so a falsy member counts as an
    absent one. *)
Theorem falsy_required_field_counts_as_absent env request members w :
  parsed env request (VObject members) ->
  lookup (lit "prompt") members = Some (VString []) \/
  (exists v, lookup (lit "tokens") members = Some v /\ truthy v = false) ->
  fst (POST env request w) = missing_fields /\
  status (fst (POST env request w)) <> 200%Z.
Proof.
  intros Hp Hfalsy.
  assert (Hr : fst (POST env request w) = missing_fields).
  { apply (POST_missing env request (VObject members)
             (own_property (lit "tokens") members)
             (own_property (lit "prompt") members) w Hp);
      [reflexivity | reflexivity |].
    destruct Hfalsy as [H|(v & H & Hv)]; unfold own_property; rewrite H.
    - apply andb_false_r.
    - rewrite Hv. reflexivity. }
  rewrite Hr. split; [reflexivity | discriminate].
Qed.

Lemma falsy_required_field_counts_as_absent_witness :
  fst (POST (stubbed a_key
               (Responded
                  (completion (quoted "{'tokens':{'spacing':[]},'prompt':''}"))))
            (posting a_png) fresh_world)
  = missing_fields /\
  fst (POST (stubbed a_key
               (Responded
                  (completion (quoted "{'tokens':0,'prompt':'Use a grid.'}"))))
            (posting a_png) fresh_world)
  = missing_fields.
Proof.
  split.
  - apply (falsy_required_field_counts_as_absent
             (stubbed a_key
                (Responded
                   (completion
                      (quoted "{'tokens':{'spacing':[]},'prompt':''}"))))
             (posting a_png)
             [(lit "tokens", VObject [(lit "spacing", VArray [])]);
              (lit "prompt", VString [])]
             fresh_world).
    + apply stubbed_parsed; [discriminate | reflexivity].
    + left. reflexivity.
  - apply (falsy_required_field_counts_as_absent
             (stubbed a_key
                (Responded
                   (completion
                      (quoted "{'tokens':0,'prompt':'Use a grid.'}"))))
             (posting a_png)
             [(lit "tokens", VNumber 0);
              (lit "prompt", VString (lit "Use a grid."))]
             fresh_world).
    + apply stubbed_parsed; [discriminate | reflexivity].
    + right. exists (VNumber 0). split; reflexivity.
Defined.

(** C4.  For a run that reaches the defaults with the model's truthy
    [tokens] value [t]: each of the six fields of the answer is the
    documented default where [t] lacks it or has it falsy, and the value
    of [t] where [t] has it truthy. *)
Theorem absent_or_falsy_fields_get_defaults
        env request analysisResult t p w :
  parsed env request analysisResult ->
  Get analysisResult Key.tokens = Some t -> truthy t = true ->
  Get analysisResult Key.prompt = Some p -> truthy p = true ->
  exists colors typography spacing animations elevation radius,
    fst (POST env request w)
    = NextResponse_json
        (VObject
           [(lit "tokens",
             VObject [(lit "colors", colors); (lit "typography", typography);
                      (lit "spacing", spacing);
                      (lit "animations", animations);
                      (lit "elevation", elevation); (lit "radius", radius)]);
            (lit "prompt", p)]) 200 /\
    defaulted (optional_Get t Key.colors) (VArray []) colors /\
    defaulted (optional_Get t Key.typography)
      (VObject [(lit "headings", VString (lit "Sans-serif, semi-bold"));
                (lit "body", VString (lit "Sans-serif, regular"));
                (lit "weights", strings ["400"; "600"])])
      typography /\
    defaulted (optional_Get t Key.spacing)
      (strings ["4px"; "8px"; "16px"; "24px"; "32px"]) spacing /\
    defaulted (optional_Get t Key.animations) (VArray []) animations /\
    defaulted (optional_Get t Key.elevation) (VArray []) elevation /\
    defaulted (optional_Get t Key.radius)
      (strings ["4px"; "8px"; "12px"]) radius.
Proof.
  intros Hp Ht Tt Hpr Tp.
  exists (filled_field t Key.colors default_colors),
         (filled_field t Key.typography default_typography),
         (filled_field t Key.spacing default_spacing),
         (filled_field t Key.animations default_animations),
         (filled_field t Key.elevation default_elevation),
         (filled_field t Key.radius default_radius).
  split; [exact (POST_present env request analysisResult t p w
                   Hp Ht Hpr Tt Tp)|].
  repeat split; unfold filled_field, or_else; intros ->; reflexivity.
Qed.

Lemma absent_or_falsy_fields_get_defaults_witness :
  exists colors typography spacing animations elevation radius,
    fst (POST (stubbed a_key (Responded (completion red_reply)))
              (posting a_png) fresh_world)
    = NextResponse_json
        (VObject
           [(lit "tokens",
             VObject [(lit "colors", colors); (lit "typography", typography);
                      (lit "spacing", spacing);
                      (lit "animations", animations);
                      (lit "elevation", elevation); (lit "radius", radius)]);
            (lit "prompt", VString (lit "Use a red background..."))]) 200 /\
    defaulted
      (VArray [VObject [(lit "name", VString (lit "Red"));
                        (lit "hex", VString (lit "#FF0000"))]])
      (VArray []) colors /\
    defaulted VUndefined
      (VObject [(lit "headings", VString (lit "Sans-serif, semi-bold"));
                (lit "body", VString (lit "Sans-serif, regular"));
                (lit "weights", strings ["400"; "600"])])
      typography /\
    defaulted VUndefined
      (strings ["4px"; "8px"; "16px"; "24px"; "32px"]) spacing /\
    defaulted VUndefined (VArray []) animations /\
    defaulted VUndefined (VArray []) elevation /\
    defaulted VUndefined (strings ["4px"; "8px"; "12px"]) radius.
Proof.
  apply (absent_or_falsy_fields_get_defaults
           (stubbed a_key (Responded (completion red_reply)))
           (posting a_png)
           (VObject
              [(lit "tokens",
                VObject
                  [(lit "colors",
                    VArray [VObject [(lit "name", VString (lit "Red"));
                                     (lit "hex", VString (lit "#FF0000"))]])]);
               (lit "prompt", VString (lit "Use a red background..."))])
           (VObject
              [(lit "colors",
                VArray [VObject [(lit "name", VString (lit "Red"));
                                 (lit "hex", VString (lit "#FF0000"))]])])
           (VString (lit "Use a red background..."))
           fresh_world).
  - apply stubbed_parsed; [discriminate | reflexivity].
  - reflexivity.
  - reflexivity.
  - reflexivity.
  - reflexivity.
Defined.

(** ** The defensive unwrap *)

Lemma newline_padded a b :
  forallb is_whitespace a = true -> forallb is_whitespace b = true ->
  forallb is_whitespace (newline :: a) = true /\
  forallb is_whitespace (b ++ [newline]) = true.
Proof.
  intros Ha Hb. split; [exact Ha|]. now rewrite forallb_app, Hb.
Qed.

Lemma trim_object core : brace_delimited core -> trim core = core.
Proof. intros [mid ->]. now apply trim_clean. Qed.

(** What is left of a fenced text once the fences are off. *)
Lemma strip_fences_fenced a core b :
  forallb is_whitespace a = true -> forallb is_whitespace b = true ->
  brace_delimited core ->
  strip_fences (fence_json (a ++ core ++ b)) = core /\
  strip_fences (fence_plain (a ++ core ++ b)) = core /\
  strip_fences (a ++ core ++ b) = core.
Proof.
  intros Ha Hb Hcore.
  destruct (newline_padded a b Ha Hb) as [Ha' Hb'].
  assert (Hinner : trim ([newline] ++ (a ++ core ++ b) ++ [newline]) = core).
  { replace ([newline] ++ (a ++ core ++ b) ++ [newline])
      with ((newline :: a) ++ core ++ (b ++ [newline]))
      by (simpl; now rewrite <- !app_assoc).
    now apply trim_padded_object. }
  repeat split.
  - unfold fence_json.
    replace (lit "```json" ++ [newline] ++ (a ++ core ++ b)
             ++ [newline] ++ lit "```")
      with (lit "```json" ++ ([newline] ++ (a ++ core ++ b) ++ [newline])
            ++ lit "```")
      by (now rewrite <- !app_assoc).
    now rewrite strip_fences_tagged.
  - unfold fence_plain.
    replace (lit "```" ++ [newline] ++ (a ++ core ++ b)
             ++ [newline] ++ lit "```")
      with (lit "```" ++ ([newline] ++ (a ++ core ++ b) ++ [newline])
            ++ lit "```")
      by (now rewrite <- !app_assoc).
    now rewrite strip_fences_untagged by reflexivity.
  - pose proof (strip_fences_object core Hcore) as H.
    unfold strip_fences in H |- *.
    rewrite (trim_padded_object a core b Ha Hb Hcore).
    now rewrite (trim_object core Hcore) in H.
Qed.

(** C5.  Let [t] be the text of a JSON object: it starts with an opening
    brace and ends with a closing brace.  From [t] wrapped in a fence with
    the tag [json], and from [t] wrapped in a fence with no tag, the unwrap
    recovers exactly [t]; so [JSON.parse], whatever it does, is handed the
    text it would be handed with no fencing and returns the same value.
    White space around [t] inside the fence, or around [t] in a reply with
    no fence, is taken off alike. *)
Theorem fenced_object_parses_like_bare
        (JSON_parse : jsstring -> option value) (t : jsstring) :
  brace_delimited t ->
  (cleanContent (fence_json t) = t /\ cleanContent (fence_plain t) = t) /\
  (JSON_parse (cleanContent (fence_json t)) = JSON_parse t /\
   JSON_parse (cleanContent (fence_plain t)) = JSON_parse t) /\
  (forall a b,
     forallb is_whitespace a = true -> forallb is_whitespace b = true ->
     cleanContent (fence_json (a ++ t ++ b)) = t /\
     cleanContent (fence_plain (a ++ t ++ b)) = t /\
     cleanContent (a ++ t ++ b) = t).
Proof.
  intros Ht.
  assert (Hpadded : forall a b,
             forallb is_whitespace a = true ->
             forallb is_whitespace b = true ->
             cleanContent (fence_json (a ++ t ++ b)) = t /\
             cleanContent (fence_plain (a ++ t ++ b)) = t /\
             cleanContent (a ++ t ++ b) = t).
  { intros a b Ha Hb.
    destruct (strip_fences_fenced a t b Ha Hb Ht) as (H1 & H2 & H3).
    unfold cleanContent. rewrite H1, H2, H3.
    repeat split; now apply extract_json_object. }
  destruct (Hpadded [] [] eq_refl eq_refl) as (E1 & E2 & _).
  rewrite app_nil_r in E1, E2. simpl app in E1, E2.
  rewrite E1, E2.
  split; [split; reflexivity|]. split; [split; reflexivity|]. exact Hpadded.
Qed.

Lemma fenced_object_parses_like_bare_witness :
  cleanContent (fence_json red_reply) = red_reply /\
  cleanContent (fence_plain red_reply) = red_reply /\
  JsonRef.JSON_parse (cleanContent (fence_json red_reply))
  = JsonRef.JSON_parse red_reply /\
  JsonRef.JSON_parse (cleanContent (fence_plain red_reply))
  = JsonRef.JSON_parse red_reply.
Proof.
  assert (Hcore : brace_delimited red_reply).
  { exists (quoted "'tokens':{'colors':[{'name':'Red','hex':'#FF0000'}]},'prompt':'Use a red background...'").
    reflexivity. }
  destruct (fenced_object_parses_like_bare JsonRef.JSON_parse red_reply Hcore)
    as ((H1 & H2) & (H3 & H4) & _).
  repeat split; assumption.
Defined.

(** C6.  When the reply, its fences off and trimmed, holds an opening brace
    and a later closing brace, the text handed to [JSON.parse] is the span
    from the first opening brace to the last closing brace, and nothing of
    what surrounds it: the run of the handler is the one that the parser's
    answer on that span decides. *)
Theorem bracket_extraction_first_to_last env content pre mid post :
  strip_fences content
  = pre ++ (open_brace :: mid ++ [close_brace]) ++ post ->
  forallb not_open_brace pre = true ->
  forallb not_close_brace post = true ->
  cleanContent content = open_brace :: mid ++ [close_brace] /\
  forall request w,
    replied_text env request content ->
    exists c,
      POST_try env request w
      = match JSON_parse env (open_brace :: mid ++ [close_brace]) with
        | Some analysisResult =>
            validate_and_respond analysisResult (called c w)
        | None =>
            (Returned parse_failure,
             log (LogParseFailure (VString content)) (called c w))
        end.
Proof.
  intros Hs Hpre Hpost.
  assert (E : cleanContent content = open_brace :: mid ++ [close_brace]).
  { unfold cleanContent, extract_json.
    now rewrite Hs, (match_braces_span pre mid post Hpre Hpost). }
  split; [exact E|].
  intros request w (reply & d & Hr & Hok & Hj & Hc & Hne).
  destruct (POST_try_replied env request reply w Hr) as [c Hrun].
  exists c. rewrite Hrun.
  rewrite (handle_reply_text env reply d content _ Hok Hj Hc Hne).
  now rewrite E.
Qed.

Lemma bracket_extraction_first_to_last_witness :
  cleanContent
    (quoted "Here is the design: {'tokens':{},'prompt':'Use {braces}'} Hope it helps!")
  = quoted "{'tokens':{},'prompt':'Use {braces}'}".
Proof.
  apply (bracket_extraction_first_to_last
           (stubbed a_key NetworkError)
           (quoted "Here is the design: {'tokens':{},'prompt':'Use {braces}'} Hope it helps!")
           (lit "Here is the design: ")
           (quoted "'tokens':{},'prompt':'Use {braces}'")
           (lit " Hope it helps!"));
    reflexivity.
Defined.

(** ** Provider failures, from the provider to the banner *)

Lemma Get_error_body msg :
  Get (error_body msg) Key.error = Some (VString (lit msg)).
Proof. reflexivity. Qed.

(** The client stores and displays the [error] of a response that is not
    [ok]. *)
Lemma analyzeDesign_error ToString null_read_message endpoint st img code msg :
  image st = Some img -> img <> [] ->
  endpoint (VObject [(lit "imageBase64", VString img)])
  = FetchResolved code (JsonResolved (error_body msg)) ->
  ((200 <=? code) && (code <=? 299))%Z = false ->
  lit msg <> [] ->
  shows (analyzeDesign ToString null_read_message endpoint st) msg.
Proof.
  intros Himg Hne Hend Hcode Hmsg. unfold analyzeDesign.
  rewrite Himg. destruct img as [|c img]; [congruence|].
  rewrite Hend, Hcode. cbn [negb]. rewrite Get_error_body.
  unfold or_else. rewrite (truthy_VString _ Hmsg).
  unfold shows, errorBanner. cbn.
  destruct (lit msg) as [|m ms] eqn:E; [congruence|]. split; reflexivity.
Qed.

Lemma accepted_nonempty request image : accepted request image -> image <> [].
Proof.
  intros (body & m & p & _ & _ & Hm & _).
  eapply startsWith_nonempty;
    [exact (match_data_url_startsWith _ _ Hm) | discriminate].
Qed.

(** The answer to a reply that is not [ok]. *)
Lemma POST_not_ok env request reply w :
  replied env request reply -> ok reply = false ->
  fst (POST env request w) =
  if (response_status reply =? 401)%Z then
    NextResponse_json
      (error_body "Invalid API key. Please check your PERPLEXITY_API_KEY.")
      401
  else if (response_status reply =? 429)%Z then
    NextResponse_json
      (error_body "Rate limit exceeded. Please try again in a moment.") 429
  else if (response_status reply =? 400)%Z then
    NextResponse_json
      (error_body "Invalid request. The image may be too large (max 50MB) or in an unsupported format.")
      400
  else
    NextResponse_json
      (error_body "Failed to analyze design. Please try again.") 500.
Proof.
  intros Hr Hok.
  destruct (POST_try_replied env request reply w Hr) as [c Hrun].
  now rewrite POST_answer, Hrun, (handle_reply_not_ok env reply _ Hok).
Qed.

(** C7.  A reply of the provider that is not [ok] is answered by status:
    401 with 401 and the invalid-key message, 429 with 429 and the
    rate-limit message, 400 with 400 and the too-large-or-unsupported
    message, any other status with 500 and the generic message.  The
    client that posted the image stores the [error] string of that answer
    and its banner displays it. *)
Theorem provider_failure_is_mapped_and_shown
        env w st img reply ToString null_read_message :
  image st = Some img ->
  replied env (posting img) reply ->
  ok reply = false ->
  let r := fst (POST env (posting img) w) in
  let st' := analyzeDesign ToString null_read_message (served env w) st in
  (response_status reply = 401%Z ->
   r = NextResponse_json
         (error_body "Invalid API key. Please check your PERPLEXITY_API_KEY.")
         401 /\
   shows st' "Invalid API key. Please check your PERPLEXITY_API_KEY.") /\
  (response_status reply = 429%Z ->
   r = NextResponse_json
         (error_body "Rate limit exceeded. Please try again in a moment.")
         429 /\
   shows st' "Rate limit exceeded. Please try again in a moment.") /\
  (response_status reply = 400%Z ->
   r = NextResponse_json
         (error_body "Invalid request. The image may be too large (max 50MB) or in an unsupported format.")
         400 /\
   shows st' "Invalid request. The image may be too large (max 50MB) or in an unsupported format.") /\
  (response_status reply <> 401%Z -> response_status reply <> 429%Z ->
   response_status reply <> 400%Z ->
   r = NextResponse_json
         (error_body "Failed to analyze design. Please try again.") 500 /\
   shows st' "Failed to analyze design. Please try again.").
Proof.
  intros Himg Hr Hok. cbv zeta.
  assert (Hne : img <> []).
  { destruct Hr as (image & apiKey & Ha & _).
    destruct Ha as (body & m & p & Hb & Hi & Hm & _).
    injection Hb as <-. injection Hi as <-.
    eapply startsWith_nonempty;
      [exact (match_data_url_startsWith _ _ Hm) | discriminate]. }
  assert (Hclient : forall code msg,
             fst (POST env (posting img) w)
             = NextResponse_json (error_body msg) code ->
             ((200 <=? code) && (code <=? 299))%Z = false ->
             lit msg <> [] ->
             shows (analyzeDesign ToString null_read_message (served env w)
                                  st) msg).
  { intros code msg E Hcode Hmsg.
    apply (analyzeDesign_error _ _ _ st img code); try assumption.
    rewrite served_posting, E. reflexivity. }
  pose proof (POST_not_ok env (posting img) reply w Hr Hok) as Hpost.
  destruct (Z.eqb_spec (response_status reply) 401) as [E1|N1];
    [|destruct (Z.eqb_spec (response_status reply) 429) as [E2|N2];
      [|destruct (Z.eqb_spec (response_status reply) 400) as [E3|N3]]];
    (split; [|split; [|split]]); intros; try lia;
    (split; [exact Hpost|]);
    (eapply Hclient; [exact Hpost | reflexivity | discriminate]).
Qed.

Lemma provider_failure_is_mapped_and_shown_witness :
  let env := stubbed a_key (Responded (bare_reply 401)) in
  let st := {| image := Some a_png; fileName := lit "home.png";
               isLoading := false; error := None; result := None;
               isDragging := false; copied := false |} in
  status (fst (POST env (posting a_png) fresh_world)) = 401%Z /\
  shows (analyzeDesign (fun _ => []) [] (served env fresh_world) st)
        "Invalid API key. Please check your PERPLEXITY_API_KEY.".
Proof.
  intros env st.
  destruct (provider_failure_is_mapped_and_shown
              env fresh_world st a_png (bare_reply 401) (fun _ => []) []
              eq_refl (stubbed_replied (bare_reply 401)) eq_refl)
    as (H401 & _).
  destruct (H401 eq_refl) as [Hr Hshown].
  split; [now rewrite Hr | exact Hshown].
Defined.

(** ** The upload client *)

(** C8, as the code has it.  A file whose declared type is not one of the
    four formats, or whose size is above 50 MiB, changes the error and
    nothing else, and no read is started.  An accepted file has its name
    stored and the error and the result cleared before the read starts:
    that is the state [handleFile] leaves, with the image and the
    loading, dragging and copied flags as they were.  When the read then
    fails the error is set, and the image and the three flags are those of
    the prior state, while the filename is the new file's and the result
    is gone; when it succeeds the image is the data URL read, under the
    new filename, with no error and no result. *)
Theorem acceptFile_frame file st :
  (includes clientFormats (file_type file) = false ->
   forall read,
     acceptFile file read st
     = setError
         (Some (lit "Please upload a supported image file (PNG, JPG, WEBP, GIF)"))
         st) /\
  (includes clientFormats (file_type file) = true ->
   (maxFileSize < file_size file)%N ->
   forall read,
     acceptFile file read st
     = setError (Some (lit "Image must be less than 50MB")) st) /\
  (includes clientFormats (file_type file) = true ->
   (file_size file <= maxFileSize)%N ->
   acceptFile file ReadFailed st
   = {| image := image st;
        fileName := file_name file;
        isLoading := isLoading st;
        error := Some (lit "Failed to read the image file");
        result := None;
        isDragging := isDragging st;
        copied := copied st |}) /\
  (includes clientFormats (file_type file) = false \/
   (maxFileSize < file_size file)%N ->
   snd (handleFile file st) = false) /\
  (includes clientFormats (file_type file) = true ->
   (file_size file <= maxFileSize)%N ->
   handleFile file st
   = ({| image := image st;
         fileName := file_name file;
         isLoading := isLoading st;
         error := None;
         result := None;
         isDragging := isDragging st;
         copied := copied st |}, true)) /\
  (includes clientFormats (file_type file) = true ->
   (file_size file <= maxFileSize)%N ->
   forall dataUrl,
     acceptFile file (ReadLoaded dataUrl) st
     = {| image := Some dataUrl;
          fileName := file_name file;
          isLoading := isLoading st;
          error := None;
          result := None;
          isDragging := isDragging st;
          copied := copied st |}).
Proof.
  unfold acceptFile, handleFile.
  split; [|split; [|split; [|split; [|split]]]].
  - intros H read. now rewrite H.
  - intros H Hsize read. rewrite H. cbn [negb].
    apply N.ltb_lt in Hsize. now rewrite Hsize.
  - intros H Hsize. rewrite H. cbn [negb].
    apply N.ltb_ge in Hsize. now rewrite Hsize.
  - intros [H|Hsize].
    + now rewrite H.
    + apply N.ltb_lt in Hsize. rewrite Hsize.
      now destruct (negb (includes clientFormats (file_type file))).
  - intros H Hsize. rewrite H. cbn [negb].
    apply N.ltb_ge in Hsize. now rewrite Hsize.
  - intros H Hsize dataUrl. rewrite H. cbn [negb].
    apply N.ltb_ge in Hsize. now rewrite Hsize.
Qed.

Lemma acceptFile_frame_witness :
  let st := {| image := Some a_png; fileName := lit "home.png";
               isLoading := false; error := Some (lit "old");
               result := Some (VObject []); isDragging := false;
               copied := true |} in
  acceptFile {| file_name := lit "scan.pdf";
                file_type := lit "application/pdf";
                file_size := 1024 |} ReadFailed st
  = setError
      (Some (lit "Please upload a supported image file (PNG, JPG, WEBP, GIF)"))
      st /\
  acceptFile {| file_name := lit "huge.png"; file_type := lit "image/png";
                file_size := 52428801 |} ReadFailed st
  = setError (Some (lit "Image must be less than 50MB")) st /\
  acceptFile {| file_name := lit "next.png"; file_type := lit "image/png";
                file_size := 52428800 |} ReadFailed st
  = {| image := Some a_png; fileName := lit "next.png";
       isLoading := false;
       error := Some (lit "Failed to read the image file");
       result := None; isDragging := false; copied := true |} /\
  snd (handleFile {| file_name := lit "huge.png"; file_type := lit "image/png";
                     file_size := 52428801 |} st) = false /\
  handleFile {| file_name := lit "next.png"; file_type := lit "image/png";
                file_size := 52428800 |} st
  = ({| image := Some a_png; fileName := lit "next.png";
        isLoading := false; error := None; result := None;
        isDragging := false; copied := true |}, true) /\
  acceptFile {| file_name := lit "next.png"; file_type := lit "image/png";
                file_size := 52428800 |}
             (ReadLoaded (lit "data:image/png;base64,AAAA")) st
  = {| image := Some (lit "data:image/png;base64,AAAA");
       fileName := lit "next.png"; isLoading := false; error := None;
       result := None; isDragging := false; copied := true |}.
Proof.
  intros st.
  pose proof (acceptFile_frame
                {| file_name := lit "scan.pdf";
                   file_type := lit "application/pdf";
                   file_size := 1024 |} st) as (Hpdf & _).
  pose proof (acceptFile_frame
                {| file_name := lit "huge.png"; file_type := lit "image/png";
                   file_size := 52428801 |} st)
    as (_ & Hhuge & _ & Hnoread & _).
  pose proof (acceptFile_frame
                {| file_name := lit "next.png"; file_type := lit "image/png";
                   file_size := 52428800 |} st)
    as (_ & _ & Hfailed & _ & Hbefore & Hloaded).
  split; [|split; [|split; [|split; [|split]]]].
  - apply Hpdf. reflexivity.
  - apply Hhuge; reflexivity.
  - apply Hfailed; [reflexivity | discriminate].
  - apply Hnoread. right. reflexivity.
  - apply Hbefore; [reflexivity | discriminate].
  - apply Hloaded; [reflexivity | discriminate].
Defined.

(** C8 as it is written fails in its second half: the filename and the
    result are changed before the read starts, so a failed read does not
    leave them as they were. *)
Lemma failed_read_changes_filename_and_result :
  let st := {| image := Some a_png; fileName := lit "home.png";
               isLoading := false; error := None;
               result := Some (VObject []); isDragging := false;
               copied := false |} in
  let st' := acceptFile {| file_name := lit "next.png";
                           file_type := lit "image/png";
                           file_size := 2048 |} ReadFailed st in
  fileName st' = lit "next.png" /\ result st' = None /\
  ~ failed_read_leaves_prior_state.
Proof.
  split; [reflexivity|]. split; [reflexivity|]. intros H.
  destruct (H {| file_name := lit "next.png"; file_type := lit "image/png";
                 file_size := 2048 |}
              {| image := Some a_png; fileName := lit "home.png";
                 isLoading := false; error := None;
                 result := Some (VObject []); isDragging := false;
                 copied := false |} eq_refl)
    as (_ & _ & _ & Hresult).
  discriminate Hresult.
Qed.


(* ================================================================== *)
(** * Every run of the handler follows one path *)
(* ================================================================== *)

Lemma POST_conclude env request w :
  POST env request w = conclude (POST_try env request w).
Proof.
  unfold POST, conclude.
  destruct (POST_try env request w) as [[r|r|] w']; reflexivity.
Qed.

Lemma is_string_false_receiver v :
  is_string v = false -> string_receiver v = throw.
Proof. destruct v; simpl; (discriminate || reflexivity). Qed.

Lemma truthy_string_cases v :
  truthy v = true ->
  (exists s, v = VString s /\ s <> []) \/ is_string v = false.
Proof.
  destruct v as [| | | |[|c s]| |]; simpl; intros H;
    try discriminate; try (now right).
  left. exists (c :: s). split; [reflexivity|discriminate].
Qed.

Lemma handle_reply_path env reply w :
  ReplyPath env reply w
    (fst (conclude (handle_reply env reply w)))
    (snd (conclude (handle_reply env reply w))).
Proof.
  destruct (ok reply) eqn:Hok.
  2:{ rewrite (handle_reply_not_ok env reply w Hok). cbn [conclude fst snd].
      exact (reply_not_ok env reply w Hok). }
  destruct (response_json reply) as [d|] eqn:Hj.
  2:{ unfold handle_reply. rewrite Hok, Hj. run. cbn [conclude fst snd].
      now apply reply_body_not_json. }
  destruct (reply_content d) as [content|] eqn:Hc.
  2:{ unfold handle_reply. rewrite Hok, Hj. run. rewrite Hc. run.
      cbn [conclude fst snd]. now apply (reply_data_null env reply w d). }
  destruct (truthy content) eqn:Tc.
  2:{ unfold handle_reply. rewrite Hok, Hj. run. rewrite Hc. run.
      rewrite Tc. run'. cbn [conclude fst snd].
      now apply (reply_no_content env reply w d content). }
  destruct (truthy_string_cases content Tc) as [(text & -> & Hne)|Hns].
  2:{ unfold handle_reply. rewrite Hok, Hj. run. rewrite Hc. run.
      rewrite Tc. run. rewrite (is_string_false_receiver content Hns).
      unfold try_catch, bind at 1. run. cbn [conclude fst snd].
      now apply (reply_content_not_string env reply w d content). }
  rewrite (handle_reply_text env reply d text w Hok Hj Hc Hne).
  destruct (JSON_parse env (cleanContent text)) as [a|] eqn:Hp.
  2:{ cbn [conclude fst snd]. now apply (reply_unparsable env reply w d text). }
  destruct (Get a Key.tokens) as [t|] eqn:Ht.
  2:{ unfold validate_and_respond. rewrite Ht. run. cbn [conclude fst snd].
      now apply (reply_parsed_nullish env reply w d text a). }
  destruct (Get a Key.prompt) as [p|] eqn:Hpr.
  2:{ destruct a; simpl in Ht, Hpr; discriminate. }
  destruct (truthy t && truthy p) eqn:Htp.
  - apply andb_prop in Htp as [Tt Tp].
    destruct (validate_present a t p w Ht Hpr Tt Tp) as (t' & Hn & Hv).
    rewrite (normalizeTokens_filled t Tt) in Hn. injection Hn as <-.
    rewrite Hv. cbn [conclude fst snd].
    now apply (reply_success env reply w d text a t p).
  - rewrite (validate_missing a t p w Ht Hpr Htp). cbn [conclude fst snd].
    now apply (reply_missing_fields env reply w d text a t p).
Qed.

Lemma configured_key env :
  configured env = true ->
  exists apiKey, PERPLEXITY_API_KEY env = Some apiKey /\ apiKey <> [].
Proof.
  unfold configured. destruct (PERPLEXITY_API_KEY env) as [[|c k]|];
    try discriminate.
  intros _. exists (c :: k). split; [reflexivity|discriminate].
Qed.

(** Every run of [POST] follows one of the paths. *)
Lemma POST_path env request w :
  Path env request w (fst (POST env request w)) (snd (POST env request w)).
Proof.
  rewrite POST_conclude.
  destruct (request_json request) as [body|] eqn:Hb.
  2:{ unfold POST_try. rewrite Hb. run. cbn [conclude fst snd].
      now apply path_body_unreadable. }
  destruct (Get body Key.imageBase64) as [v|] eqn:Hi.
  2:{ unfold POST_try. rewrite Hb. run. rewrite Hi. run.
      cbn [conclude fst snd]. now apply (path_body_nullish env request w body). }
  destruct (truthy v) eqn:Tv.
  2:{ unfold POST_try. rewrite Hb. run. rewrite Hi. run. rewrite Tv. run.
      cbn [conclude fst snd]. now apply (path_no_image env request w body v). }
  destruct (truthy_string_cases v Tv) as [(image & -> & Hne)|Hns].
  2:{ unfold POST_try. rewrite Hb. run. rewrite Hi. run. rewrite Tv. run.
      rewrite (is_string_false_receiver v Hns). run.
      cbn [conclude fst snd].
      now apply (path_image_not_string env request w body v). }
  destruct (startsWith image (lit "data:image/")) eqn:Hs.
  2:{ unfold POST_try. rewrite Hb. run. rewrite Hi. run. rewrite Tv. run.
      rewrite Hs. run. cbn [conclude fst snd].
      now apply (path_not_an_image env request w body image). }
  destruct (configured env) eqn:Hconf.
  2:{ unfold POST_try. rewrite Hb. run. rewrite Hi. run. rewrite Tv. run.
      rewrite Hs. run. unfold configured in Hconf.
      destruct (PERPLEXITY_API_KEY env) as [[|c k]|] eqn:Hk;
        try discriminate; run'; cbn [conclude fst snd];
        apply (path_no_key env request w body image); auto;
        unfold configured; now rewrite Hk. }
  destruct (configured_key env Hconf) as (apiKey & Hk & Hkne).
  destruct (match_data_url image) as [[mimeType payload]|] eqn:Hm.
  2:{ unfold POST_try. rewrite Hb. run. rewrite Hi. run. rewrite Tv. run.
      rewrite Hs. run. rewrite Hk.
      destruct apiKey as [|c k]; [congruence|]. run. rewrite Hm. run.
      cbn [conclude fst snd].
      now apply (path_bad_envelope env request w body image). }
  destruct (includes supportedFormats mimeType) eqn:Hf.
  2:{ unfold POST_try. rewrite Hb. run. rewrite Hi. run. rewrite Tv. run.
      rewrite Hs. run. rewrite Hk.
      destruct apiKey as [|c k]; [congruence|]. run. rewrite Hm. run.
      rewrite Hf. run. cbn [conclude fst snd].
      now apply (path_unsupported env request w body image mimeType payload). }
  assert (Hacc : accepted request image).
  { exists body, mimeType, payload. repeat split; assumption. }
  rewrite (POST_try_accepted env request image apiKey w Hacc Hk Hkne).
  unfold bind at 1, fetch.
  destruct (provider env (completion_request env apiKey image))
    as [|reply] eqn:Hp.
  - cbn [conclude fst snd].
    now apply (path_network_error env request w image apiKey).
  - apply (path_replied env request w image apiKey reply); try assumption.
    apply handle_reply_path.
Qed.


(** ** Two runs that are given the same take the same path *)

Lemma nonempty_truthy (s : jsstring) : s <> [] -> truthy (VString s) = true.
Proof. destruct s; [congruence|reflexivity]. Qed.

Lemma key_configured env apiKey :
  PERPLEXITY_API_KEY env = Some apiKey -> apiKey <> [] ->
  configured env = true.
Proof.
  intros H Hne. unfold configured. rewrite H.
  destruct apiKey; [congruence|reflexivity].
Qed.

Lemma accepted_inv request image :
  accepted request image ->
  exists body,
    request_json request = Some body /\
    Get body Key.imageBase64 = Some (VString image) /\
    truthy (VString image) = true /\
    startsWith image (lit "data:image/") = true /\
    exists mimeType payload,
      match_data_url image = Some (mimeType, payload) /\
      includes supportedFormats mimeType = true.
Proof.
  intros (b & m & p & Hb & Hi & Hm & Hf).
  pose proof (match_data_url_startsWith _ _ Hm) as Hs.
  exists b. repeat split; try assumption.
  - destruct image; [discriminate Hs|reflexivity].
  - exists m, p. now split.
Qed.

(** The answer to a reply depends on the reply and on what [JSON.parse]
    makes of its content, and on nothing else. *)
Lemma ReplyPath_agree env1 env2 reply w1 w2 r1 r2 w1' w2' :
  (forall s, JSON_parse env1 s = JSON_parse env2 s) ->
  ReplyPath env1 reply w1 r1 w1' -> ReplyPath env2 reply w2 r2 w2' ->
  r1 = r2.
Proof.
  intros Hp H1 H2.
  destruct H1; destruct H2; try reflexivity;
    repeat match goal with
           | H : JSON_parse env1 _ = _ |- _ => rewrite Hp in H
           | H : ?t <> [] |- _ =>
               lazymatch goal with
               | _ : truthy (VString t) = true |- _ => fail
               | _ => pose proof (nonempty_truthy t H)
               end
           end;
    try (assert (forall s, is_string (VString s) = true)
           by reflexivity);
    try congruence;
    try match goal with
        | H : truthy ?a && truthy ?b = false,
          Ha : truthy ?a' = true, Hb : truthy ?b' = true |- _ =>
            exfalso;
            replace a' with a in Ha by congruence;
            replace b' with b in Hb by congruence;
            rewrite Ha, Hb in H; discriminate H
        end.
Qed.

(** The response of [POST] depends on the request body, on whether a
    credential is configured, on the provider's answer to the one call and
    on what [JSON.parse] makes of the content: not on the credential
    itself, the system prompt, the console or the calls made before. *)
Lemma Path_agree env1 env2 request w1 w2 r1 r2 w1' w2' :
  (forall s, JSON_parse env1 s = JSON_parse env2 s) ->
  configured env1 = configured env2 ->
  (forall image key1 key2,
     accepted request image ->
     PERPLEXITY_API_KEY env1 = Some key1 ->
     PERPLEXITY_API_KEY env2 = Some key2 ->
     provider env1 (completion_request env1 key1 image)
     = provider env2 (completion_request env2 key2 image)) ->
  Path env1 request w1 r1 w1' -> Path env2 request w2 r2 w2' ->
  r1 = r2.
Proof.
  intros Hp Hc Hprov H1 H2.
  destruct H1; destruct H2; try reflexivity;
    try match goal with
        | A1 : accepted request ?i1, A2 : accepted request ?i2,
          K1 : PERPLEXITY_API_KEY env1 = Some ?k1,
          K2 : PERPLEXITY_API_KEY env2 = Some ?k2,
          P1 : provider env1 _ = _, P2 : provider env2 _ = _ |- _ =>
            pose proof (accepted_functional request i1 i2 A1 A2); subst i2;
            rewrite (Hprov i1 k1 k2 A1 K1 K2) in P1;
            rewrite P1 in P2;
            first [ discriminate P2
                  | injection P2 as <-; eapply ReplyPath_agree; eassumption ]
        end;
    exfalso;
    repeat match goal with
           | A : accepted request ?i |- _ =>
               destruct (accepted_inv request i A)
                 as (? & ? & ? & ? & ? & ? & ? & ? & ?);
               clear A
           | K : PERPLEXITY_API_KEY ?e = Some ?k, N : ?k <> [] |- _ =>
               pose proof (key_configured e k K N); clear N
           | H : ?t <> [] |- _ =>
               pose proof (nonempty_truthy t H); clear H
           | H : match_data_url ?t = Some (?m, ?p) |- _ =>
               lazymatch goal with
               | _ : startsWith t (lit "data:image/") = true |- _ => fail
               | _ => pose proof (match_data_url_startsWith t (m, p) H)
               end
           | H : startsWith ?t (lit "data:image/") = true |- _ =>
               lazymatch goal with
               | _ : truthy (VString t) = true |- _ => fail
               | _ =>
                   assert (truthy (VString t) = true)
                     by (destruct t; [discriminate H|reflexivity])
               end
           end;
    assert (forall s, is_string (VString s) = true) by reflexivity;
    congruence.
Qed.
(** ** Determinism *)

(** C9.  The response of the handler is decided by the request body and
    the provider's response, and by nothing else that can differ between
    two invocations.  Take two invocations of the same request in two
    environments that agree on whether a credential is configured, on the
    provider's answer to the call made for the accepted image and on
    [JSON.parse], and that are free to differ in everything else: the
    credential itself, the system prompt, what was logged and which calls
    were made before.  They answer the same status and the same body,
    hence the same bytes under any serializer; so does a second invocation
    in the world the first one left. *)
Theorem POST_deterministic
        env1 env2 request w1 w2 (stringify : value -> jsstring) :
  (forall s, JSON_parse env1 s = JSON_parse env2 s) ->
  configured env1 = configured env2 ->
  (forall image key1 key2,
     accepted request image ->
     PERPLEXITY_API_KEY env1 = Some key1 ->
     PERPLEXITY_API_KEY env2 = Some key2 ->
     provider env1 (completion_request env1 key1 image)
     = provider env2 (completion_request env2 key2 image)) ->
  let r1 := fst (POST env1 request w1) in
  let r2 := fst (POST env2 request w2) in
  let r3 := fst (POST env1 request (snd (POST env1 request w1))) in
  status r1 = status r2 /\ body r1 = body r2 /\
  stringify (body r1) = stringify (body r2) /\
  r3 = r1.
Proof.
  intros Hparse Hconf Hprov. cbv zeta.
  rewrite (Path_agree env1 env2 request w1 w2 _ _ _ _ Hparse Hconf Hprov
             (POST_path env1 request w1) (POST_path env2 request w2)).
  rewrite (POST_oblivious env1 request (snd (POST env1 request w1)) w1).
  rewrite (Path_agree env1 env2 request w1 w2 _ _ _ _ Hparse Hconf Hprov
             (POST_path env1 request w1) (POST_path env2 request w2)).
  split; [reflexivity|]. split; [reflexivity|]. split; reflexivity.
Qed.

Lemma POST_deterministic_witness :
  let env1 := stubbed a_key (Responded (completion red_reply)) in
  let env2 := {| JSON_parse := JsonRef.JSON_parse;
                 SYSTEM_PROMPT := lit "Describe the design";
                 PERPLEXITY_API_KEY := Some (lit "pplx-another-key");
                 provider := fun _ => Responded (completion red_reply) |} in
  let w2 := {| console := [LogKeyNotConfigured; LogUnexpected];
               outbound := [completion_request env1 (lit "k") a_bmp] |} in
  let r1 := fst (POST env1 (posting a_png) fresh_world) in
  let r2 := fst (POST env2 (posting a_png) w2) in
  status r1 = status r2 /\ body r1 = body r2.
Proof.
  intros env1 env2 w2.
  assert (H1 : forall s, JSON_parse env1 s = JSON_parse env2 s)
    by (intros s; unfold env1, env2, stubbed; cbn [JSON_parse]; reflexivity).
  assert (H2 : configured env1 = configured env2)
    by (vm_compute; reflexivity).
  assert (H3 : forall image key1 key2,
             accepted (posting a_png) image ->
             PERPLEXITY_API_KEY env1 = Some key1 ->
             PERPLEXITY_API_KEY env2 = Some key2 ->
             provider env1 (completion_request env1 key1 image)
             = provider env2 (completion_request env2 key2 image))
    by (intros image key1 key2 _ _ _; unfold env1, env2, stubbed;
        cbn [provider]; reflexivity).
  pose proof (POST_deterministic env1 env2 (posting a_png) fresh_world w2
                (fun _ => []) H1 H2 H3) as H.
  cbv zeta in H.
  exact (conj (proj1 H) (proj1 (proj2 H))).
Defined.

(* ================================================================== *)
(** * More of the endpoint, path by path *)
(* ================================================================== *)

(** ** Request validation, path by path *)

(** X1.  A request whose body cannot be read as JSON, whose body is
    [null], or whose [imageBase64] is a truthy value that is not a string
    (a number, [true], an array, an object) makes the handler throw before
    any check answers: the response is the 500 of the outer [catch], the
    fault is logged once and the provider is not called. *)
Theorem malformed_request_is_unexpected env request w :
  request_json request = None \/
  request_json request = Some VNull \/
  (exists body v,
     request_json request = Some body /\
     Get body Key.imageBase64 = Some v /\
     truthy v = true /\ is_string v = false) ->
  POST env request w = (unexpected_error, log LogUnexpected w).
Proof.
  intros H. rewrite POST_conclude. unfold POST_try.
  destruct H as [H|[H|(body & v & Hb & Hi & Tv & Hs)]].
  - rewrite H. run. reflexivity.
  - rewrite H. run. reflexivity.
  - rewrite Hb. run. rewrite Hi. run. rewrite Tv. run.
    rewrite (is_string_false_receiver v Hs). run. reflexivity.
Qed.

Lemma malformed_request_is_unexpected_witness :
  POST (stubbed a_key NetworkError)
       {| request_json :=
            Some (VObject [(lit "imageBase64", VArray [VString a_png])]) |}
       fresh_world
  = (unexpected_error, log LogUnexpected fresh_world).
Proof.
  apply (malformed_request_is_unexpected (stubbed a_key NetworkError)).
  right. right.
  exists (VObject [(lit "imageBase64", VArray [VString a_png])]),
         (VArray [VString a_png]).
  repeat split; reflexivity.
Defined.

(** X2.  A request body that has no [imageBase64], or has it falsy
    ([null], the empty string, [0], [false]), is answered with the 400
    "No image provided"; nothing is logged, the provider is not called,
    and the credential plays no part. *)
Theorem missing_image_rejected env request body v w :
  request_json request = Some body ->
  Get body Key.imageBase64 = Some v ->
  truthy v = false ->
  POST env request w = (no_image_provided, w).
Proof.
  intros Hb Hi Tv. rewrite POST_conclude. unfold POST_try.
  rewrite Hb. run. rewrite Hi. run. rewrite Tv. run. reflexivity.
Qed.

Lemma missing_image_rejected_witness :
  POST (stubbed None NetworkError)
       {| request_json := Some (VObject [(lit "image", VString a_png)]) |}
       fresh_world
  = (no_image_provided, fresh_world) /\
  POST (stubbed a_key NetworkError)
       {| request_json := Some (VObject [(lit "imageBase64", VString [])]) |}
       fresh_world
  = (no_image_provided, fresh_world).
Proof.
  split.
  - apply (missing_image_rejected (stubbed None NetworkError) _
             (VObject [(lit "image", VString a_png)]) VUndefined);
      reflexivity.
  - apply (missing_image_rejected (stubbed a_key NetworkError) _
             (VObject [(lit "imageBase64", VString [])]) (VString []));
      reflexivity.
Defined.

(** X3.  A non-empty [imageBase64] string that does not start with
    [data:image/] is answered with the 400 "Invalid image format" before
    the credential is looked at: nothing is logged and the provider is not
    called, with or without a key. *)
Theorem not_an_image_url_rejected env request body image w :
  request_json request = Some body ->
  Get body Key.imageBase64 = Some (VString image) ->
  image <> [] ->
  startsWith image (lit "data:image/") = false ->
  POST env request w = (invalid_image_format, w).
Proof.
  intros Hb Hi Hne Hs. rewrite POST_conclude. unfold POST_try.
  rewrite Hb. run. rewrite Hi. run. rewrite (truthy_VString image Hne). run.
  rewrite Hs. run. reflexivity.
Qed.

Lemma not_an_image_url_rejected_witness :
  POST (stubbed None NetworkError)
       (posting (lit "data:application/pdf;base64,JVBERi0=")) fresh_world
  = (invalid_image_format, fresh_world).
Proof.
  apply (not_an_image_url_rejected (stubbed None NetworkError) _
           (VObject [(lit "imageBase64",
                      VString (lit "data:application/pdf;base64,JVBERi0="))])
           (lit "data:application/pdf;base64,JVBERi0="));
    try reflexivity.
  discriminate.
Defined.

(** X4.  With no credential in the environment (unset, or set to the
    empty string) every [imageBase64] that starts with [data:image/],
    a valid PNG included, is answered with the 500 "API key not
    configured"; the fault is logged and the provider is not called. *)
Theorem missing_key_stops_every_image env request body image w :
  request_json request = Some body ->
  Get body Key.imageBase64 = Some (VString image) ->
  startsWith image (lit "data:image/") = true ->
  configured env = false ->
  POST env request w = (key_not_configured, log LogKeyNotConfigured w).
Proof.
  intros Hb Hi Hs Hk. rewrite POST_conclude. unfold POST_try.
  assert (Hne : image <> [])
    by (eapply startsWith_nonempty; [exact Hs|discriminate]).
  rewrite Hb. run. rewrite Hi. run. rewrite (truthy_VString image Hne). run.
  rewrite Hs. run. unfold configured in Hk.
  destruct (PERPLEXITY_API_KEY env) as [[|c k]|]; try discriminate;
    run'; reflexivity.
Qed.

Lemma missing_key_stops_every_image_witness :
  POST (stubbed (Some []) (Responded (completion red_reply)))
       (posting a_png) fresh_world
  = (key_not_configured, log LogKeyNotConfigured fresh_world).
Proof.
  apply (missing_key_stops_every_image
           (stubbed (Some []) (Responded (completion red_reply))) _
           (VObject [(lit "imageBase64", VString a_png)]) a_png);
    reflexivity.
Defined.

Lemma match_data_url_fails sub payload :
  forallb not_semicolon sub = true ->
  sub = [] \/ payload = [] \/ forallb dot payload = false ->
  match_data_url (data_url (lit "image/" ++ sub) payload) = None.
Proof.
  intros Hsub H.
  destruct (match_data_url (data_url (lit "image/" ++ sub) payload))
    as [[m p]|] eqn:Hm; [|reflexivity].
  exfalso.
  destruct (proj1 (match_data_url_groups _ m p) Hm)
    as (sub' & E & -> & Hne & Hns & Hp & Hd).
  unfold data_url in E. rewrite <- !app_assoc in E.
  apply app_inv_head in E. apply app_inv_head in E.
  change (lit ";base64,") with (semicolon :: lit "base64,") in E.
  simpl in E.
  destruct (cut_at_semicolon _ _ _ _ Hsub Hns E) as [Esub E'].
  injection E' as Ep. subst sub' p.
  destruct H as [H|[H|H]]; congruence.
Qed.

(** X5.  With the credential configured, a data URL of an image type
    whose payload is empty, or is broken over several lines, or whose
    subtype is empty, does not match the pattern of line 103 and is
    answered with the 400 "Invalid image data format"; nothing is logged
    and the provider is not called. *)
Theorem broken_envelope_rejected env request body sub payload w :
  request_json request = Some body ->
  Get body Key.imageBase64
  = Some (VString (data_url (lit "image/" ++ sub) payload)) ->
  configured env = true ->
  forallb not_semicolon sub = true ->
  sub = [] \/ payload = [] \/ forallb dot payload = false ->
  POST env request w = (invalid_data_format, w).
Proof.
  intros Hb Hi Hk Hsub H. rewrite POST_conclude. unfold POST_try.
  destruct (configured_key env Hk) as (apiKey & Hkey & Hkne).
  rewrite Hb. run. rewrite Hi. run.
  change (truthy (VString (data_url (lit "image/" ++ sub) payload)))
    with true. run.
  rewrite startsWith_data_url, startsWith_app. run. rewrite Hkey.
  destruct apiKey as [|c k]; [congruence|]. run.
  rewrite (match_data_url_fails sub payload Hsub H). run. reflexivity.
Qed.

Lemma broken_envelope_rejected_witness :
  POST (stubbed a_key NetworkError)
       (posting (lit "data:image/png;base64,")) fresh_world
  = (invalid_data_format, fresh_world) /\
  POST (stubbed a_key NetworkError)
       (posting (lit "data:image/png;base64,iVBO" ++ [10%N] ++ lit "Rw0K"))
       fresh_world
  = (invalid_data_format, fresh_world).
Proof.
  split.
  - apply (broken_envelope_rejected (stubbed a_key NetworkError) _
             (VObject [(lit "imageBase64",
                        VString (lit "data:image/png;base64,"))])
             (lit "png") []); try reflexivity.
    right. left. reflexivity.
  - apply (broken_envelope_rejected (stubbed a_key NetworkError) _
             (VObject
                [(lit "imageBase64",
                  VString (lit "data:image/png;base64,iVBO" ++ [10%N]
                           ++ lit "Rw0K"))])
             (lit "png") (lit "iVBO" ++ [10%N] ++ lit "Rw0K"));
      try reflexivity.
    right. right. reflexivity.
Defined.

(** ** The call to the provider *)

Lemma includes_supported mime :
  includes supportedFormats mime = true ->
  exists sub, mime = lit "image/" ++ sub /\ sub <> [] /\
              forallb not_semicolon sub = true.
Proof.
  unfold includes, supportedFormats. cbn [existsb].
  intros H. repeat (apply orb_prop in H as [H|H]); try discriminate H;
    apply eqb_eq in H; subst mime.
  - exists (lit "png"). repeat split. discriminate.
  - exists (lit "jpeg"). repeat split. discriminate.
  - exists (lit "jpg"). repeat split. discriminate.
  - exists (lit "webp"). repeat split. discriminate.
  - exists (lit "gif"). repeat split. discriminate.
Qed.

Lemma supported_accepted mime payload :
  includes supportedFormats mime = true ->
  payload <> [] -> forallb dot payload = true ->
  accepted (posting (data_url mime payload)) (data_url mime payload).
Proof.
  intros Hin Hp Hd.
  destruct (includes_supported mime Hin) as (sub & -> & Hsub & Hns).
  exists (VObject [(lit "imageBase64",
                    VString (data_url (lit "image/" ++ sub) payload))]),
         (lit "image/" ++ sub), payload.
  repeat split; try assumption.
  apply match_data_url_image; [assumption|].
  repeat split; assumption.
Qed.

Lemma ReplyPath_world env reply w r w' :
  ReplyPath env reply w r w' ->
  outbound w' = outbound w /\
  exists l, console w' = console w ++ l /\ length l <= 1.
Proof.
  intros H. destruct H; (split; [reflexivity|]);
    first [ (exists []; split; [symmetry; apply app_nil_r | simpl; lia])
          | (eexists [_]; split; [reflexivity | simpl; lia]) ].
Qed.

Lemma POST_replied env request reply w :
  replied env request reply ->
  exists c,
    POST env request w = conclude (handle_reply env reply (called c w)).
Proof.
  intros Hr. destruct (POST_try_replied env request reply w Hr) as [c Hrun].
  exists c. now rewrite POST_conclude, Hrun.
Qed.

(** X6.  A data URL of any of the five allow-listed types with a non-empty
    one-line payload passes every check, and with the credential
    configured the posted URL is sent to the provider in one call, as it
    was posted. *)
Theorem supported_image_is_forwarded env mime payload apiKey w :
  includes supportedFormats mime = true ->
  payload <> [] -> forallb dot payload = true ->
  PERPLEXITY_API_KEY env = Some apiKey -> apiKey <> [] ->
  accepted (posting (data_url mime payload)) (data_url mime payload) /\
  outbound (snd (POST env (posting (data_url mime payload)) w))
  = outbound w ++ [completion_request env apiKey (data_url mime payload)].
Proof.
  intros Hin Hp Hd Hk Hkne.
  pose proof (supported_accepted mime payload Hin Hp Hd) as Hacc.
  split; [exact Hacc|].
  rewrite POST_conclude.
  rewrite (POST_try_accepted env _ _ apiKey w Hacc Hk Hkne).
  unfold bind at 1, fetch.
  destruct (provider env (completion_request env apiKey
                                             (data_url mime payload)))
    as [|reply]; [reflexivity|].
  change (outbound
            (snd (conclude
                    (handle_reply env reply
                       (called (completion_request env apiKey
                                                   (data_url mime payload))
                               w))))
          = outbound w
            ++ [completion_request env apiKey (data_url mime payload)]).
  destruct (ReplyPath_world _ _ _ _ _
              (handle_reply_path env reply
                 (called (completion_request env apiKey
                                             (data_url mime payload)) w)))
    as [Hout _].
  rewrite Hout. reflexivity.
Qed.

Lemma supported_image_is_forwarded_witness :
  outbound
    (snd (POST (stubbed a_key (Responded (completion red_reply)))
               (posting (data_url (lit "image/webp") (lit "UklGRg==")))
               fresh_world))
  = [completion_request (stubbed a_key (Responded (completion red_reply)))
                        (lit "pplx-0123456789")
                        (data_url (lit "image/webp") (lit "UklGRg=="))].
Proof.
  refine (proj2 (supported_image_is_forwarded
                   (stubbed a_key (Responded (completion red_reply)))
                   (lit "image/webp") (lit "UklGRg==")
                   (lit "pplx-0123456789") fresh_world
                   eq_refl _ eq_refl eq_refl _)); discriminate.
Defined.

Lemma Path_calls env request w r w' :
  Path env request w r w' ->
  (outbound w' = outbound w /\
   ~ (exists image, accepted request image /\ configured env = true)) \/
  (exists image apiKey,
     accepted request image /\
     PERPLEXITY_API_KEY env = Some apiKey /\ apiKey <> [] /\
     outbound w' = outbound w ++ [completion_request env apiKey image]).
Proof.
  intros H.
  destruct H;
    try (left; split; [reflexivity|];
         intros (image' & (b & m & p & Hb & Hi & Hm & Hf) & Hc);
         pose proof (match_data_url_startsWith _ _ Hm) as Hs;
         assert (Ht : truthy (VString image') = true)
           by (destruct image'; [discriminate Hs | reflexivity]);
         assert (Hstr : is_string (VString image') = true) by reflexivity;
         congruence).
  - right. eexists _, _. repeat split; eassumption.
  - right. eexists _, _. repeat split; try eassumption.
    match goal with
    | HR : ReplyPath _ _ _ _ _ |- _ =>
        now destruct (ReplyPath_world _ _ _ _ _ HR) as [-> _]
    end.
Qed.

(** X7.  A run of the handler calls the provider at most once.  It calls
    it exactly when the request passes the checks of lines 82-114 and the
    credential is configured, and the one call is the completion request
    built from that credential and the posted image. *)
Theorem provider_called_once_iff_accepted env request w :
  (outbound (snd (POST env request w)) = outbound w /\
   ~ (exists image, accepted request image /\ configured env = true)) \/
  (exists image apiKey,
     accepted request image /\
     PERPLEXITY_API_KEY env = Some apiKey /\ apiKey <> [] /\
     outbound (snd (POST env request w))
     = outbound w ++ [completion_request env apiKey image]).
Proof. exact (Path_calls env request w _ _ (POST_path env request w)). Qed.

(** ** Faults after the call *)

Lemma ReplyPath_conclude env reply w :
  ReplyPath env reply w
    (fst (conclude (handle_reply env reply w)))
    (snd (conclude (handle_reply env reply w))).
Proof. apply handle_reply_path. Qed.

(** X8.  When the call fails in transport - [fetch] rejects, or the
    provider answers with a success status and a body that is not JSON or
    is the JSON [null] - the handler throws and the outer [catch] answers
    the 500 "An unexpected error occurred", logging once after the one
    call. *)
Theorem transport_fault_is_unexpected env request w :
  (exists image apiKey,
     accepted request image /\
     PERPLEXITY_API_KEY env = Some apiKey /\ apiKey <> [] /\
     provider env (completion_request env apiKey image) = NetworkError) \/
  (exists reply,
     replied env request reply /\ ok reply = true /\
     (response_json reply = None \/ response_json reply = Some VNull)) ->
  exists c, POST env request w
            = (unexpected_error, log LogUnexpected (called c w)).
Proof.
  intros [(image & apiKey & Hacc & Hk & Hkne & Hp)
         |(reply & Hr & Hok & Hj)].
  - exists (completion_request env apiKey image).
    rewrite POST_conclude.
    rewrite (POST_try_accepted env _ _ apiKey w Hacc Hk Hkne).
    unfold bind at 1, fetch. rewrite Hp. reflexivity.
  - destruct (POST_replied env request reply w Hr) as [c Hrun].
    exists c. rewrite Hrun. unfold handle_reply. rewrite Hok. run.
    destruct Hj as [Hj|Hj]; rewrite Hj; run; reflexivity.
Qed.

Lemma transport_fault_is_unexpected_witness :
  exists c,
    POST (stubbed a_key NetworkError) (posting a_png) fresh_world
    = (unexpected_error, log LogUnexpected (called c fresh_world)).
Proof.
  apply (transport_fault_is_unexpected (stubbed a_key NetworkError)).
  left. exists a_png, (lit "pplx-0123456789").
  split; [exact accepted_a_png|]. repeat split. discriminate.
Defined.

(** X9.  When the provider answers with a success status and JSON data
    whose first choice has no message content, or a falsy one (no
    [choices], an empty [choices], no [message], an empty string), the
    response is the 500 "No analysis received" and the data are logged. *)
Theorem empty_completion_is_no_analysis
        env request reply perplexityData content w :
  replied env request reply -> ok reply = true ->
  response_json reply = Some perplexityData ->
  reply_content perplexityData = Some content ->
  truthy content = false ->
  exists c, POST env request w
            = (no_analysis, log (LogNoContent perplexityData) (called c w)).
Proof.
  intros Hr Hok Hj Hc Tc.
  destruct (POST_replied env request reply w Hr) as [c Hrun].
  exists c. rewrite Hrun. unfold handle_reply.
  rewrite Hok. run. rewrite Hj. run. rewrite Hc. run. rewrite Tc. run'.
  reflexivity.
Qed.

Lemma empty_completion_is_no_analysis_witness :
  exists c,
    POST (stubbed a_key
            (Responded
               {| response_status := 200; response_text := [];
                  response_json :=
                    Some (VObject [(lit "choices", VArray [])]) |}))
         (posting a_png) fresh_world
    = (no_analysis,
       log (LogNoContent (VObject [(lit "choices", VArray [])]))
           (called c fresh_world)).
Proof.
  apply (empty_completion_is_no_analysis _ _
           {| response_status := 200; response_text := [];
              response_json := Some (VObject [(lit "choices", VArray [])]) |}
           (VObject [(lit "choices", VArray [])]) VUndefined);
    try reflexivity.
  apply stubbed_replied.
Defined.

(** X10.  When the content of the reply is truthy but not a string (an
    array of parts, an object, a number), or is a string whose unwrapped
    text [JSON.parse] rejects, the inner [catch] answers the 500 "Failed
    to parse AI response" and logs the content. *)
Theorem unusable_content_is_parse_failure
        env request reply perplexityData content w :
  replied env request reply -> ok reply = true ->
  response_json reply = Some perplexityData ->
  reply_content perplexityData = Some content ->
  truthy content = true ->
  is_string content = false \/
  (exists text, content = VString text /\
                JSON_parse env (cleanContent text) = None) ->
  exists c, POST env request w
            = (parse_failure, log (LogParseFailure content) (called c w)).
Proof.
  intros Hr Hok Hj Hc Tc H.
  destruct (POST_replied env request reply w Hr) as [c Hrun].
  exists c. rewrite Hrun.
  destruct H as [Hns|(text & -> & Hp)].
  - unfold handle_reply.
    rewrite Hok. run. rewrite Hj. run. rewrite Hc. run. rewrite Tc. run.
    rewrite (is_string_false_receiver content Hns).
    unfold try_catch, bind at 1. run. reflexivity.
  - assert (Hne : text <> []) by (destruct text; [discriminate Tc|discriminate]).
    rewrite (handle_reply_text env reply perplexityData text _
               Hok Hj Hc Hne), Hp.
    reflexivity.
Qed.

Lemma unusable_content_is_parse_failure_witness :
  exists c,
    POST (stubbed a_key (Responded (completion (lit "I see a red page."))))
         (posting a_png) fresh_world
    = (parse_failure,
       log (LogParseFailure (VString (lit "I see a red page.")))
           (called c fresh_world)).
Proof.
  apply (unusable_content_is_parse_failure _ _
           (completion (lit "I see a red page."))
           (completion_data (lit "I see a red page."))
           (VString (lit "I see a red page.")));
    try reflexivity.
  - apply stubbed_replied.
  - right. exists (lit "I see a red page."). split; reflexivity.
Defined.

(** X11.  When [JSON.parse] returns a value that is not an object: for an
    array, a string, a number or a boolean both members read as
    [undefined] and the response is the missing-fields 500; for [null]
    reading the member throws and the response is the 500 of the outer
    [catch]. *)
Theorem parsed_non_object_is_rejected env request analysisResult w :
  parsed env request analysisResult ->
  (analysisResult = VNull -> fst (POST env request w) = unexpected_error) /\
  ((exists l, analysisResult = VArray l) \/
   (exists s, analysisResult = VString s) \/
   (exists x, analysisResult = VNumber x) \/
   (exists b, analysisResult = VBool b) ->
   fst (POST env request w) = missing_fields).
Proof.
  intros Hp.
  destruct (POST_try_parsed env request analysisResult w Hp) as [c Hrun].
  rewrite POST_conclude, Hrun. split.
  - intros ->. reflexivity.
  - intros [[l ->]|[[s ->]|[[x ->]|[b ->]]]]; reflexivity.
Qed.

Lemma parsed_non_object_is_rejected_witness :
  fst (POST (stubbed a_key (Responded (completion (lit "[1, 2]"))))
            (posting a_png) fresh_world)
  = missing_fields.
Proof.
  refine (proj2 (parsed_non_object_is_rejected
                   (stubbed a_key (Responded (completion (lit "[1, 2]"))))
                   (posting a_png) (VArray [VNumber 1; VNumber 2])
                   fresh_world _) _).
  - apply stubbed_parsed; [discriminate | reflexivity].
  - left. eexists. reflexivity.
Defined.

(** ** Invariants of the response and of the console *)

Lemma error_response_json msg code :
  lit msg <> [] -> error_response (NextResponse_json (error_body msg) code).
Proof. intros H. exists msg. split; [reflexivity|exact H]. Qed.

Lemma provider_error_shape st :
  In (status (provider_error st)) [400; 401; 429; 500]%Z /\
  error_response (provider_error st) /\
  (st = 401%Z -> status (provider_error st) = 401%Z) /\
  (status (provider_error st) = 200%Z -> False).
Proof.
  unfold provider_error.
  destruct (Z.eqb_spec st 401); [|destruct (Z.eqb_spec st 429);
    [|destruct (Z.eqb_spec st 400)]];
    (split; [simpl; auto 10|]);
    (split; [apply error_response_json; discriminate|]);
    (split; [simpl; congruence | simpl; discriminate]).
Qed.

Lemma ReplyPath_shape env reply w r w' :
  ReplyPath env reply w r w' ->
  (exists t p, r = success (filled t) p /\
               truthy t = true /\ truthy p = true) \/
  (In (status r) [400; 401; 429; 500]%Z /\ error_response r).
Proof.
  intros H. destruct H;
    try (right; split;
         [simpl; auto 10 | apply error_response_json; discriminate]).
  - right. destruct (provider_error_shape (response_status reply))
      as (H1 & H2 & _). now split.
  - left. eexists _, _. repeat split; eassumption.
Qed.

Lemma Path_shape env request w r w' :
  Path env request w r w' ->
  (exists t p, r = success (filled t) p /\
               truthy t = true /\ truthy p = true) \/
  (In (status r) [400; 401; 429; 500]%Z /\ error_response r).
Proof.
  intros H. destruct H;
    try (right; split;
         [simpl; auto 10 | apply error_response_json; discriminate]).
  eapply ReplyPath_shape; eassumption.
Qed.

(** X12.  Whatever the request, the environment and the provider, the
    response of the handler has one of two shapes: status 200 with the
    body [{ tokens, prompt }], the tokens being the filled record of a
    truthy value and the prompt truthy; or status 400, 401, 429 or 500
    with the body [{ error }], the error being a non-empty string. *)
Theorem response_is_success_or_error env request w :
  let r := fst (POST env request w) in
  (status r = 200%Z /\
   exists t p,
     body r = VObject [(lit "tokens", filled t); (lit "prompt", p)] /\
     truthy t = true /\ truthy p = true) \/
  (In (status r) [400; 401; 429; 500]%Z /\ error_response r).
Proof.
  cbv zeta.
  destruct (Path_shape env request w _ _ (POST_path env request w))
    as [(t & p & Hr & Tt & Tp)|H].
  - left. rewrite Hr. split; [reflexivity|]. exists t, p. now repeat split.
  - right. exact H.
Qed.

Lemma ReplyPath_console env reply w r w' :
  ReplyPath env reply w r w' ->
  (status r = 200%Z /\ console w' = console w) \/
  (status r <> 200%Z /\ exists e, console w' = console w ++ [e]).
Proof.
  intros H. destruct H;
    try (right; split; [discriminate | eexists; reflexivity]).
  - right. split; [|eexists; reflexivity].
    intros E. now apply (provider_error_shape (response_status reply)).
  - left. split; reflexivity.
Qed.

Lemma Path_console env request w r w' :
  Path env request w r w' ->
  (In (status r) [200; 400]%Z /\ console w' = console w) \/
  (In (status r) [400; 401; 429; 500]%Z /\
   exists e, console w' = console w ++ [e]).
Proof.
  intros H. destruct H;
    try (left; split; [simpl; auto 10 | reflexivity]);
    try (right; split; [simpl; auto 10 | eexists; reflexivity]).
  match goal with
  | HR : ReplyPath _ _ _ _ _ |- _ =>
      destruct (ReplyPath_console _ _ _ _ _ HR) as [[Hs Hc]|[Hs [e Hc]]];
      destruct (ReplyPath_shape _ _ _ _ _ HR) as [(t & p & -> & _)|[Hin _]]
  end.
  - left. split; [simpl; auto 10 | exact Hc].
  - left. split; [simpl; auto 10 | exact Hc].
  - exfalso. apply Hs. reflexivity.
  - right. split; [exact Hin | exists e; exact Hc].
Qed.

(** X13.  A run writes at most one line to the console.  It writes none
    when it answers 200 and exactly one when it answers 401, 429 or
    500. *)
Theorem at_most_one_console_line env request w :
  let r := fst (POST env request w) in
  let w' := snd (POST env request w) in
  (console w' = console w \/ exists e, console w' = console w ++ [e]) /\
  (status r = 200%Z -> console w' = console w) /\
  (In (status r) [401; 429; 500]%Z ->
   exists e, console w' = console w ++ [e]).
Proof.
  cbv zeta.
  destruct (Path_console env request w _ _ (POST_path env request w))
    as [[Hs Hc]|[Hs [e Hc]]].
  - split; [now left|]. split; [intros _; exact Hc|].
    intros Hin. exfalso. simpl in Hs, Hin.
    destruct Hs as [Hs|[Hs|[]]]; rewrite <- Hs in Hin;
      destruct Hin as [H|[H|[H|[]]]]; discriminate H.
  - split; [right; now exists e|]. split.
    + intros H200. exfalso. simpl in Hs. rewrite H200 in Hs.
      destruct Hs as [H|[H|[H|[H|[]]]]]; discriminate H.
    + intros _. now exists e.
Qed.

(** ** The unwrap on wrappers of any kind *)

Lemma dropWhile_app_keep f (l : jsstring) c x :
  f c = false -> dropWhile f (l ++ c :: x) = dropWhile f l ++ c :: x.
Proof.
  intros Hc. induction l as [|d l IH]; simpl.
  - now rewrite Hc.
  - destruct (f d); [exact IH | reflexivity].
Qed.

Lemma forallb_dropWhile f g (l : jsstring) :
  forallb g l = true -> forallb g (dropWhile f l) = true.
Proof.
  induction l as [|d l IH]; simpl; [reflexivity|].
  intros H. apply andb_prop in H as [Hd Hl].
  destruct (f d); [now apply IH | simpl; now rewrite Hd, Hl].
Qed.

Lemma startsWith_within (l : jsstring) c x p :
  startsWith (l ++ c :: x) p = true ->
  forallb (fun d => negb (N.eqb d c)) p = true ->
  exists l', l = p ++ l'.
Proof.
  revert l. induction p as [|d p IH]; intros l Hs Hp.
  - now exists l.
  - simpl in Hp. apply andb_prop in Hp as [Hd Hp].
    destruct l as [|e l]; simpl in Hs.
    + apply andb_prop in Hs as [Hs _]. rewrite Hs in Hd. discriminate.
    + apply andb_prop in Hs as [He Hs]. apply N.eqb_eq in He. subst e.
      destruct (IH l Hs Hp) as [l' ->]. now exists l'.
Qed.

Section Wrapped.

Variables (mid : jsstring).
Let t : jsstring := open_brace :: mid ++ [close_brace].

Lemma wraps_trimStart s : wraps t s -> wraps t (trimStart s).
Proof.
  intros (l & r & -> & Hl & Hr). unfold trimStart, t. simpl.
  rewrite dropWhile_app_keep by reflexivity.
  exists (dropWhile is_whitespace l), r.
  repeat split; [now apply forallb_dropWhile | assumption].
Qed.

Lemma rev_wrapped (l r : jsstring) :
  rev (l ++ t ++ r) = rev r ++ close_brace :: rev (l ++ open_brace :: mid).
Proof.
  replace (l ++ t ++ r) with ((l ++ open_brace :: mid) ++ close_brace :: r)
    by (unfold t; simpl; now rewrite <- !app_assoc).
  rewrite rev_app_distr. simpl. now rewrite <- app_assoc.
Qed.

Lemma wraps_trimEnd s : wraps t s -> wraps t (trimEnd s).
Proof.
  intros (l & r & -> & Hl & Hr). unfold trimEnd.
  rewrite rev_wrapped.
  rewrite dropWhile_app_keep by reflexivity.
  exists l, (rev (dropWhile is_whitespace (rev r))).
  split; [|split].
  - rewrite rev_app_distr. simpl. rewrite rev_involutive.
    unfold t. simpl. now rewrite <- !app_assoc.
  - assumption.
  - rewrite forallb_rev. apply forallb_dropWhile. now rewrite forallb_rev.
Qed.

Lemma wraps_trim s : wraps t s -> wraps t (trim s).
Proof. intros H. unfold trim. now apply wraps_trimEnd, wraps_trimStart. Qed.

Lemma wraps_skip p s :
  forallb not_open_brace p = true ->
  wraps t s -> startsWith s p = true -> wraps t (skipn (length p) s).
Proof.
  intros Hp (l & r & -> & Hl & Hr) Hs. unfold t in Hs. simpl in Hs.
  destruct (startsWith_within l open_brace _ p Hs Hp) as [l' ->].
  rewrite <- app_assoc, skipn_prefix.
  rewrite forallb_app in Hl. apply andb_prop in Hl as [_ Hl].
  now exists l', r.
Qed.

Lemma wraps_drop p s :
  forallb not_close_brace p = true ->
  wraps t s -> endsWith s p = true ->
  wraps t (slice_drop_last (length p) s).
Proof.
  intros Hp (l & r & -> & Hl & Hr) Hs. unfold endsWith in Hs.
  rewrite rev_wrapped in Hs.
  assert (Hp' : forallb (fun d => negb (N.eqb d close_brace)) (rev p) = true)
    by (rewrite forallb_rev; exact Hp).
  destruct (startsWith_within (rev r) close_brace _ (rev p) Hs Hp')
    as [r' Hr'].
  assert (Er : r = rev r' ++ p).
  { rewrite <- (rev_involutive r), Hr', rev_app_distr.
    now rewrite rev_involutive. }
  subst r.
  replace (l ++ t ++ rev r' ++ p) with ((l ++ t ++ rev r') ++ p)
    by (now rewrite <- !app_assoc).
  rewrite slice_drop_last_app.
  rewrite forallb_app in Hr. apply andb_prop in Hr as [Hr _].
  now exists l, (rev r').
Qed.

Lemma wraps_strip_fences s : wraps t s -> wraps t (strip_fences s).
Proof.
  intros H. unfold strip_fences.
  apply wraps_trim.
  assert (H0 : wraps t (trim s)) by now apply wraps_trim.
  assert (H1 : wraps t
                 (if startsWith (trim s) (lit "```json")
                  then slice_from 7 (trim s)
                  else if startsWith (trim s) (lit "```")
                       then slice_from 3 (trim s) else trim s)).
  { destruct (startsWith (trim s) (lit "```json")) eqn:E1.
    - exact (wraps_skip (lit "```json") _ eq_refl H0 E1).
    - destruct (startsWith (trim s) (lit "```")) eqn:E2.
      + exact (wraps_skip (lit "```") _ eq_refl H0 E2).
      + exact H0. }
  match goal with
  | |- wraps t (if endsWith ?c1 _ then _ else _) =>
      destruct (endsWith c1 (lit "```")) eqn:E3;
      [exact (wraps_drop (lit "```") _ eq_refl H1 E3) | exact H1]
  end.
Qed.

Lemma wraps_cleanContent s : wraps t s -> cleanContent s = t.
Proof.
  intros H. destruct (wraps_strip_fences s H) as (l & r & E & Hl & Hr).
  unfold cleanContent, extract_json. rewrite E. unfold t.
  now rewrite (match_braces_span l mid r Hl Hr).
Qed.

End Wrapped.

(** X14.  Whatever surrounds the text of a JSON object - fences with any
    language tag, a fence on one side only, prose, white space - as long
    as what comes before it holds no opening brace and what comes after it
    holds no closing brace, the unwrap hands [JSON.parse] exactly the
    object text: the steps that strip the ends never cut into it. *)
Theorem unwrap_recovers_wrapped_object lead t trail :
  brace_delimited t ->
  forallb not_open_brace lead = true ->
  forallb not_close_brace trail = true ->
  cleanContent (lead ++ t ++ trail) = t.
Proof.
  intros [mid ->] Hl Hr. apply wraps_cleanContent.
  now exists lead, trail.
Qed.

Lemma unwrap_recovers_wrapped_object_witness :
  cleanContent
    (lit "Sure! ```javascript" ++ [newline] ++ red_reply ++ [newline]
     ++ lit "``` Anything else?")
  = red_reply /\
  cleanContent (lit "```json" ++ [newline] ++ red_reply) = red_reply.
Proof.
  assert (Hred : brace_delimited red_reply).
  { exists (quoted "'tokens':{'colors':[{'name':'Red','hex':'#FF0000'}]},'prompt':'Use a red background...'").
    reflexivity. }
  split.
  - apply (unwrap_recovers_wrapped_object
             (lit "Sure! ```javascript" ++ [newline]) red_reply
             ([newline] ++ lit "``` Anything else?") Hred);
      reflexivity.
  - rewrite <- (app_nil_r red_reply) at 1.
    apply (unwrap_recovers_wrapped_object
             (lit "```json" ++ [newline]) red_reply [] Hred);
      reflexivity.
Defined.

(** ** The unwrap only cuts *)

Lemma piece_of_refl s : piece_of s s.
Proof. exists [], []. simpl. now rewrite app_nil_r. Qed.

Lemma piece_of_trans a b c : piece_of a b -> piece_of b c -> piece_of a c.
Proof.
  intros (x & y & ->) (x' & y' & ->). exists (x' ++ x), (y ++ y').
  now rewrite <- !app_assoc.
Qed.

Lemma piece_of_dropWhile f s : piece_of (dropWhile f s) s.
Proof.
  exists (takeWhile f s), []. rewrite app_nil_r.
  symmetry. apply takeWhile_dropWhile.
Qed.

Lemma piece_of_rev a b : piece_of a b -> piece_of (rev a) (rev b).
Proof.
  intros (x & y & ->). exists (rev y), (rev x).
  rewrite !rev_app_distr. now rewrite <- !app_assoc.
Qed.

Lemma piece_of_trim s : piece_of (trim s) s.
Proof.
  unfold trim, trimEnd, trimStart.
  apply piece_of_trans with (dropWhile is_whitespace s);
    [|apply piece_of_dropWhile].
  rewrite <- (rev_involutive (dropWhile is_whitespace s)) at 2.
  apply piece_of_rev, piece_of_dropWhile.
Qed.

Lemma piece_of_skipn n (s : jsstring) : piece_of (skipn n s) s.
Proof.
  exists (firstn n s), []. rewrite app_nil_r.
  symmetry. apply firstn_skipn.
Qed.

Lemma piece_of_firstn n (s : jsstring) : piece_of (firstn n s) s.
Proof.
  exists [], (skipn n s). simpl. symmetry. apply firstn_skipn.
Qed.

Lemma piece_of_strip_fences s : piece_of (strip_fences s) s.
Proof.
  unfold strip_fences.
  eapply piece_of_trans; [apply piece_of_trim|].
  eapply piece_of_trans; [|apply (piece_of_trim s)].
  match goal with
  | |- piece_of (if endsWith ?c1 _ then _ else _) _ =>
      apply piece_of_trans with c1;
      [destruct (endsWith c1 (lit "```"));
       [apply piece_of_firstn | apply piece_of_refl]|]
  end.
  destruct (startsWith (trim s) (lit "```json"));
    [apply piece_of_skipn|].
  destruct (startsWith (trim s) (lit "```"));
    [apply piece_of_skipn | apply piece_of_refl].
Qed.

(** X15.  The text given to [JSON.parse] is always a contiguous piece of
    the reply: the unwrap removes characters from the two ends and never
    adds, replaces or reorders any. *)
Theorem unwrap_only_cuts content : piece_of (cleanContent content) content.
Proof.
  unfold cleanContent, extract_json.
  apply piece_of_trans with (strip_fences content);
    [|apply piece_of_strip_fences].
  destruct (match_braces (strip_fences content)) as [m|] eqn:E.
  - destruct (match_braces_inv _ _ E) as (pre & mid & post & Hs & _).
    now exists pre, post.
  - apply piece_of_refl.
Qed.

(* ================================================================== *)
(** * The client, handler by handler *)
(* ================================================================== *)

Lemma includes_client mime :
  includes clientFormats mime = true ->
  includes supportedFormats mime = true.
Proof.
  unfold includes, clientFormats, supportedFormats. cbn [existsb].
  intros H. repeat (apply orb_prop in H as [H|H]); try discriminate H;
    rewrite H; rewrite ?orb_true_r; reflexivity.
Qed.

Lemma handleFile_started file st :
  snd (handleFile file st) = true ->
  includes clientFormats (file_type file) = true /\
  (file_size file <= maxFileSize)%N.
Proof.
  unfold handleFile.
  destruct (includes clientFormats (file_type file)); cbn [negb];
    [|discriminate].
  destruct (N.ltb_spec maxFileSize (file_size file)); [discriminate|].
  intros _. now split.
Qed.

(** X16.  The two allow-lists agree in the direction that matters: for a
    file the client accepts (one of its four types, at most 50 MiB), the
    data URL made of the file's declared type and a non-empty one-line
    payload passes every check of the server, so with a credential the
    upload reaches the provider. *)
Theorem client_accepted_is_server_accepted file st payload :
  snd (handleFile file st) = true ->
  payload <> [] -> forallb dot payload = true ->
  accepted (posting (data_url (file_type file) payload))
           (data_url (file_type file) payload).
Proof.
  intros H Hp Hd. destruct (handleFile_started file st H) as [Hin _].
  apply supported_accepted; [now apply includes_client | assumption..].
Qed.

Lemma client_accepted_is_server_accepted_witness :
  accepted (posting (data_url (lit "image/gif") (lit "R0lGODlh")))
           (data_url (lit "image/gif") (lit "R0lGODlh")).
Proof.
  refine (client_accepted_is_server_accepted
            {| file_name := lit "spinner.gif"; file_type := lit "image/gif";
               file_size := 52428800 |}
            {| image := None; fileName := []; isLoading := false;
               error := None; result := None; isDragging := true;
               copied := false |}
            (lit "R0lGODlh") eq_refl _ eq_refl).
  discriminate.
Defined.

(** X17.  Dropping files is browsing for the same files once the dragging
    flag is cleared: both hand the first file, and only the first, to
    [handleFile]; a drop always prevents the browser's default action, a
    drop that carries no file changes nothing but the dragging flag, and
    after any drop, accepted or refused, the dragging flag is off. *)
Theorem drop_is_browse e st :
  handleDrop e st
  = (preventDefault e,
     handleFileInput (Some (dataTransfer_files e)) (setIsDragging false st))
  /\ (forall file others others' prevented,
        snd (handleDrop {| defaultPrevented := prevented;
                           dataTransfer_files := file :: others |} st)
        = snd (handleDrop {| defaultPrevented := prevented;
                             dataTransfer_files := file :: others' |} st))
  /\ (dataTransfer_files e = [] ->
      snd (handleDrop e st) = (setIsDragging false st, false))
  /\ isDragging (fst (snd (handleDrop e st))) = false.
Proof.
  unfold handleDrop, handleFileInput. split; [|split; [|split]].
  - destruct (dataTransfer_files e); reflexivity.
  - reflexivity.
  - intros ->. reflexivity.
  - destruct (dataTransfer_files e) as [|file others]; [reflexivity|].
    unfold handleFile.
    destruct (negb (includes clientFormats (file_type file)));
      [reflexivity|].
    destruct (maxFileSize <? file_size file)%N; reflexivity.
Qed.

Lemma drop_is_browse_witness :
  snd (handleDrop {| defaultPrevented := false; dataTransfer_files := [] |}
                  {| image := Some a_png; fileName := lit "home.png";
                     isLoading := false; error := None; result := None;
                     isDragging := true; copied := false |})
  = ({| image := Some a_png; fileName := lit "home.png";
        isLoading := false; error := None; result := None;
        isDragging := false; copied := false |}, false).
Proof.
  exact (proj1 (proj2 (proj2 (drop_is_browse
                         {| defaultPrevented := false;
                            dataTransfer_files := [] |}
                         {| image := Some a_png; fileName := lit "home.png";
                            isLoading := false; error := None;
                            result := None; isDragging := true;
                            copied := false |}))) eq_refl).
Defined.

Section ClientFacts.

Variable ToString : value -> jsstring.
Variable null_read_message : jsstring.

(** [analyzeDesign] is its two phases run back to back. *)
Lemma analyzeDesign_phases endpoint st img :
  image st = Some img -> img <> [] ->
  analyzeDesign ToString null_read_message endpoint st
  = analyze_finish ToString null_read_message
      (endpoint (VObject [(lit "imageBase64", VString img)]))
      (analyze_start st).
Proof.
  intros Hi Hne. unfold analyzeDesign, analyze_finish, analyze_start.
  rewrite Hi. destruct img as [|c img]; [congruence|]. reflexivity.
Qed.

Lemma analyze_finish_frame fetched st :
  let st' := analyze_finish ToString null_read_message fetched st in
  image st' = image st /\ fileName st' = fileName st /\
  isDragging st' = isDragging st /\ copied st' = copied st /\
  isLoading st' = false /\
  ((exists code data,
      fetched = FetchResolved code (JsonResolved data) /\
      ((200 <=? code) && (code <=? 299))%Z = true /\
      result st' = Some data /\ error st' = error st) \/
   (exists m, error st' = Some m /\ result st' = result st)).
Proof.
  unfold analyze_finish.
  destruct fetched as [m|code [m|data]].
  - repeat split. right. now exists m.
  - destruct ((200 <=? code) && (code <=? 299))%Z; cbn [negb];
      repeat split; right; now exists m.
  - destruct ((200 <=? code) && (code <=? 299))%Z eqn:E; cbn [negb].
    + repeat split. left. exists code, data. now repeat split.
    + destruct (Get data Key.error) as [e|]; repeat split; right;
        eexists; split; reflexivity.
Qed.

End ClientFacts.

(** X18.  [analyzeDesign] does nothing without an image.  With one it
    leaves the image, the filename and the dragging and copied flags as
    they were and ends with the loading flag off; and either the route
    answered a success status with JSON, which becomes the result with the
    error cleared, or an error message is set and the result of an earlier
    analysis stays in place. *)
Theorem analyzeDesign_outcome ToString null_read_message endpoint st :
  (image st = None \/ image st = Some [] ->
   analyzeDesign ToString null_read_message endpoint st = st) /\
  (forall img,
     image st = Some img -> img <> [] ->
     let st' := analyzeDesign ToString null_read_message endpoint st in
     image st' = image st /\ fileName st' = fileName st /\
     isDragging st' = isDragging st /\ copied st' = copied st /\
     isLoading st' = false /\
     ((exists code data,
         endpoint (VObject [(lit "imageBase64", VString img)])
         = FetchResolved code (JsonResolved data) /\
         ((200 <=? code) && (code <=? 299))%Z = true /\
         result st' = Some data /\ error st' = None) \/
      (exists m, error st' = Some m /\ result st' = result st))).
Proof.
  split.
  - intros [H|H]; unfold analyzeDesign; now rewrite H.
  - intros img Hi Hne. cbv zeta.
    rewrite (analyzeDesign_phases ToString null_read_message endpoint st img
               Hi Hne).
    destruct (analyze_finish_frame ToString null_read_message
                (endpoint (VObject [(lit "imageBase64", VString img)]))
                (analyze_start st))
      as (H1 & H2 & H3 & H4 & H5 & H6).
    repeat split; assumption.
Qed.

Lemma analyzeDesign_outcome_witness :
  let st := {| image := Some a_png; fileName := lit "home.png";
               isLoading := false; error := Some (lit "old");
               result := Some (VObject [(lit "prompt", VString (lit "p"))]);
               isDragging := false; copied := false |} in
  let st' := analyzeDesign (fun _ => []) []
               (fun _ => FetchRejected (lit "Failed to fetch")) st in
  isLoading st' = false /\
  ((exists code data,
      FetchRejected (lit "Failed to fetch")
      = FetchResolved code (JsonResolved data) /\
      ((200 <=? code) && (code <=? 299))%Z = true /\
      result st' = Some data /\ error st' = None) \/
   (exists m, error st' = Some m /\ result st' = result st)).
Proof.
  intros st st'.
  destruct (proj2 (analyzeDesign_outcome (fun _ => []) []
                     (fun _ => FetchRejected (lit "Failed to fetch")) st)
                  a_png eq_refl)
    as (_ & _ & _ & _ & Hl & Hout); [discriminate|].
  split; [exact Hl | exact Hout].
Defined.

(* ================================================================== *)
(** * The client and the route together *)
(* ================================================================== *)

Lemma analyzeDesign_success ToString null_read_message endpoint st img data :
  image st = Some img -> img <> [] ->
  endpoint (VObject [(lit "imageBase64", VString img)])
  = FetchResolved 200 (JsonResolved data) ->
  analyzeDesign ToString null_read_message endpoint st
  = setIsLoading false (setResult (Some data)
                          (setError None (setIsLoading true st))).
Proof.
  intros Hi Hne E. unfold analyzeDesign. rewrite Hi.
  destruct img as [|c img]; [congruence|]. rewrite E. reflexivity.
Qed.

Lemma error_status_not_ok code :
  In code [400; 401; 429; 500]%Z ->
  ((200 <=? code) && (code <=? 299))%Z = false /\ code <> 200%Z.
Proof.
  simpl. intros [<-|[<-|[<-|[<-|[]]]]]; split; (reflexivity || discriminate).
Qed.

(** X19.  The client against the route it calls.  For every environment,
    provider and uploaded image, one analysis ends in one of two ways.
    Either the route answered 200: the new result is its body as it
    arrives through JSON, an object with the two members [tokens] and
    [prompt]; no error is shown and the download offers that result.  Or
    the route answered an error status and the banner shows exactly the
    message of its body, the result of an earlier analysis staying in
    place.  The client's own fallback messages are never needed for this
    route. *)
Theorem analysis_round_trip
        env w ToString null_read_message stringify now st img :
  image st = Some img -> img <> [] ->
  let r := fst (POST env (posting img) w) in
  let st' := analyzeDesign ToString null_read_message (served env w) st in
  (status r = 200%Z /\
   result st' = Some (through_JSON (body r)) /\
   (exists t p,
      truthy t = true /\ truthy p = true /\
      through_JSON (body r)
      = VObject [(lit "tokens", through_JSON (filled t));
                 (lit "prompt", through_JSON p)]) /\
   error st' = None /\ errorBanner st' = None /\
   downloadJSON stringify now st'
   = Some (lit "design-tokens-" ++ now ++ lit ".json",
           stringify (through_JSON (body r))))
  \/
  (status r <> 200%Z /\
   exists msg, body r = error_body msg /\ shows st' msg /\
               result st' = result st).
Proof.
  intros Hi Hne. cbv zeta.
  pose proof (POST_path env (posting img) w) as HP.
  pose proof (served_posting env w img) as Hs'.
  remember (fst (POST env (posting img) w)) as r eqn:Er.
  destruct (Path_shape env (posting img) w _ _ HP)
    as [(t & p & E & Tt & Tp)|(Hs & msg & Hb & Hm)].
  - left.
    rewrite (analyzeDesign_success ToString null_read_message (served env w)
               st img (through_JSON (body r)) Hi Hne)
      by (rewrite Hs'; now rewrite E).
    rewrite E, (through_JSON_success t p Tp).
    split; [reflexivity|]. split; [reflexivity|].
    split; [exists t, p; now repeat split|].
    split; [reflexivity|]. split; reflexivity.
  - right. destruct (error_status_not_ok _ Hs) as [Hno H200].
    split; [exact H200|]. exists msg. split; [exact Hb|]. split.
    + apply (analyzeDesign_error ToString null_read_message (served env w)
               st img (status r) msg Hi Hne); try assumption.
      rewrite Hs'. now rewrite Hb, through_JSON_error_body.
    + rewrite (analyzeDesign_phases ToString null_read_message
                 (served env w) st img Hi Hne).
      destruct (analyze_finish_frame ToString null_read_message
                  (served env w (VObject [(lit "imageBase64", VString img)]))
                  (analyze_start st))
        as (_ & _ & _ & _ & _ & [(code & data & Ef & Hc & _)|(m & _ & Hr)]).
      * rewrite Hs' in Ef.
        injection Ef as Ec _. rewrite <- Ec in Hc. congruence.
      * exact Hr.
Qed.

Lemma analysis_round_trip_witness :
  let env := stubbed a_key (Responded (bare_reply 429)) in
  let st := {| image := Some a_png; fileName := lit "home.png";
               isLoading := false; error := None;
               result := Some (VObject [(lit "prompt", VString (lit "p"))]);
               isDragging := false; copied := false |} in
  let r := fst (POST env (posting a_png) fresh_world) in
  let st' := analyzeDesign (fun _ => []) [] (served env fresh_world) st in
  (status r = 200%Z /\
   result st' = Some (through_JSON (body r)) /\
   (exists t p,
      truthy t = true /\ truthy p = true /\
      through_JSON (body r)
      = VObject [(lit "tokens", through_JSON (filled t));
                 (lit "prompt", through_JSON p)]) /\
   error st' = None /\ errorBanner st' = None /\
   downloadJSON (fun _ => []) (lit "0") st'
   = Some (lit "design-tokens-" ++ lit "0" ++ lit ".json", []))
  \/
  (status r <> 200%Z /\
   exists msg, body r = error_body msg /\ shows st' msg /\
               result st' = result st).
Proof.
  intros env st.
  refine (analysis_round_trip env fresh_world (fun _ => []) []
            (fun _ => []) (lit "0") st a_png eq_refl _).
  discriminate.
Defined.

(** X20.  [copyPrompt] touches only the copied flag and the error.  Either
    the prompt of the result is truthy and the clipboard takes it: the
    text written is that prompt, the copied flag is set, the timer is set,
    and when the timer fires the state is the one before the copy with
    the flag off.  Or nothing is written and no timer is set: without a
    truthy prompt the state is unchanged, and when the clipboard refuses
    the error is set and the copied flag is left alone. *)
Theorem copyPrompt_outcome writeText st :
  let c := copyPrompt writeText st in
  let prompt := match result st with
                | Some r => optional_Get r Key.prompt
                | None => VUndefined
                end in
  (image (copy_state c) = image st /\
   fileName (copy_state c) = fileName st /\
   isLoading (copy_state c) = isLoading st /\
   result (copy_state c) = result st /\
   isDragging (copy_state c) = isDragging st) /\
  ((truthy prompt = true /\ writeText prompt = true /\
    clipboard_text c = Some prompt /\ timer_set c = true /\
    copy_state c = setCopied true st /\
    copied_timeout (copy_state c) = setCopied false st)
   \/
   (clipboard_text c = None /\ timer_set c = false /\
    copied (copy_state c) = copied st /\
    ((truthy prompt = false /\ copy_state c = st) \/
     (truthy prompt = true /\ writeText prompt = false /\
      error (copy_state c) = Some (lit "Failed to copy to clipboard"))))).
Proof.
  cbv zeta. unfold copyPrompt.
  set (prompt := match result st with
                 | Some r => optional_Get r Key.prompt
                 | None => VUndefined
                 end).
  destruct (truthy prompt) eqn:T; cbn [negb].
  - destruct (writeText prompt) eqn:W.
    + split; [repeat split|]. left. repeat split.
    + split; [repeat split|]. right. repeat split. right. repeat split.
  - split; [repeat split|]. right. repeat split. left. split; reflexivity.
Qed.

(** X21.  After Clear nothing is displayed and no action does anything:
    the upload zone is empty, the analyse button is absent, no banner and
    no results panel are shown, and analysing, copying, downloading and
    clearing again all leave the state as it is, whatever the route and
    the clipboard would have answered.  Clear itself leaves the loading,
    dragging and copied flags as they were. *)
Theorem reset_disarms
        ToString null_read_message endpoint writeText stringify now st :
  let st0 := resetUpload st in
  image st0 = None /\ fileName st0 = [] /\
  analyzeButton_disabled st0 = None /\ errorBanner st0 = None /\
  right_column ToString st0 = EmptyState /\
  analyzeDesign ToString null_read_message endpoint st0 = st0 /\
  copyPrompt writeText st0
  = {| copy_state := st0; clipboard_text := None; timer_set := false |} /\
  downloadJSON stringify now st0 = None /\
  resetUpload st0 = st0 /\
  isLoading st0 = isLoading st /\ isDragging st0 = isDragging st /\
  copied st0 = copied st.
Proof. cbv zeta. repeat split. Qed.

(** X22.  Clear does not cancel work in flight.  [analyzeDesign] is its
    two phases run back to back, and while the request is out the analyse
    button is disabled; but if Clear is pressed between the phases, the
    answer of the route is still applied: the result appears although no
    image is loaded.  Likewise a file read that completes after Clear
    installs its image under an empty filename. *)
Theorem clear_does_not_cancel
        ToString null_read_message st img code data file dataUrl :
  image st = Some img -> img <> [] ->
  ((200 <=? code) && (code <=? 299))%Z = true ->
  snd (handleFile file st) = true ->
  (forall endpoint,
     analyzeDesign ToString null_read_message endpoint st
     = analyze_finish ToString null_read_message
         (endpoint (VObject [(lit "imageBase64", VString img)]))
         (analyze_start st)) /\
  analyzeButton_disabled (analyze_start st) = Some true /\
  (let st' := analyze_finish ToString null_read_message
                (FetchResolved code (JsonResolved data))
                (resetUpload (analyze_start st)) in
   image st' = None /\ fileName st' = [] /\ result st' = Some data /\
   isLoading st' = false /\
   right_column ToString st' = right_column ToString (setResult (Some data) st)) /\
  (acceptFile file (ReadLoaded dataUrl) st
   = reader_onload dataUrl (fst (handleFile file st)) /\
   let st' := reader_onload dataUrl (resetUpload (fst (handleFile file st))) in
   image st' = Some dataUrl /\ fileName st' = []).
Proof.
  intros Hi Hne Hc Hf. split; [|split; [|split]].
  - intros endpoint. now apply analyzeDesign_phases.
  - unfold analyzeButton_disabled, analyze_start. cbn. rewrite Hi.
    destruct img; [congruence|reflexivity].
  - cbv zeta. unfold analyze_finish. rewrite Hc. cbn [negb].
    repeat split.
  - split; [|split; reflexivity].
    unfold acceptFile. destruct (handleFile file st) as [st1 reading].
    cbn in Hf |- *. now rewrite Hf.
Qed.

Lemma clear_does_not_cancel_witness :
  let st := {| image := Some a_png; fileName := lit "home.png";
               isLoading := false; error := None; result := None;
               isDragging := false; copied := false |} in
  let st' := analyze_finish (fun _ => []) []
               (FetchResolved 200 (JsonResolved (VString (lit "late"))))
               (resetUpload (analyze_start st)) in
  image st' = None /\ fileName st' = [] /\
  result st' = Some (VString (lit "late")) /\ isLoading st' = false /\
  right_column (fun _ => []) st'
  = right_column (fun _ => []) (setResult (Some (VString (lit "late"))) st).
Proof.
  intros st.
  refine (proj1 (proj2 (proj2 (clear_does_not_cancel (fun _ => []) [] st a_png
            200 (VString (lit "late"))
            {| file_name := lit "next.png"; file_type := lit "image/png";
               file_size := 1 |}
            a_png eq_refl _ eq_refl eq_refl)))).
  discriminate.
Defined.

(* ================================================================== *)
(** * The results panel *)
(* ================================================================== *)

Lemma swatches_typed l :
  forallb is_ColorToken l = true ->
  exists sw, swatches l = Some sw /\
             forallb is_string (flat_map swatch_children sw) = true.
Proof.
  induction l as [|c l IH]; intros H.
  - exists []. split; reflexivity.
  - cbn [forallb] in H. apply andb_prop in H as [Hc Hl].
    destruct (IH Hl) as (sw & E & Hs).
    destruct c as [| | | | | |m]; try discriminate Hc.
    cbn [is_ColorToken] in Hc. apply andb_prop in Hc as [Hn Hh].
    eexists. split.
    + cbn [swatches]. rewrite E. reflexivity.
    + cbn [flat_map swatch_children swatch_name swatch_hex app forallb].
      change (own_property (Key.name_of Key.name) m)
        with (own_property (lit "name") m).
      change (own_property (Key.name_of Key.hex) m)
        with (own_property (lit "hex") m).
      now rewrite Hn, Hh, Hs.
Qed.

Lemma is_string_array_inv v :
  is_string_array v = true -> exists l, v = VArray l /\ forallb is_string l = true.
Proof.
  destruct v; try discriminate. intros H. eexists. split; [reflexivity|exact H].
Qed.

(** A result of the declared type [AnalysisResult] is rendered, and every
    child of the panel is a string. *)
Lemma typed_result_renders ToString tokens prompt :
  is_DesignTokens tokens = true ->
  exists panel,
    results_panel ToString
      (VObject [(lit "tokens", tokens); (lit "prompt", prompt)]) = Some panel /\
    panel_prompt panel = prompt /\
    forallb is_string (panel_children panel) = true.
Proof.
  intros H. destruct tokens as [| | | | | |m]; try discriminate H.
  cbn [is_DesignTokens] in H.
  repeat (apply andb_prop in H as [H ?]).
  destruct (own_property (lit "colors") m) as [| | | | |colors|] eqn:Ec;
    try discriminate H.
  destruct (swatches_typed colors H) as (sw & Esw & Hsw).
  destruct (own_property (lit "typography") m) as [| | | | | |ty] eqn:Ety;
    try discriminate H4.
  cbn [is_TypographyToken] in H4.
  apply andb_prop in H4 as [H4 Hw]. apply andb_prop in H4 as [Hh Hb].
  destruct (is_string_array_inv _ Hw) as (weights & Ew & _).
  destruct (is_string_array_inv _ H3) as (spacing & Esp & Hsp).
  destruct (is_string_array_inv _ H2) as (animations & Ean & Han).
  destruct (is_string_array_inv _ H1) as (elevation & Eel & Hel).
  destruct (is_string_array_inv _ H0) as (radius & Era & Hra).
  unfold results_panel.
  change (Get (VObject [(lit "tokens", VObject m); (lit "prompt", prompt)])
              Key.tokens) with (Some (VObject m)).
  change (Get (VObject [(lit "tokens", VObject m); (lit "prompt", prompt)])
              Key.prompt) with (Some prompt).
  cbn [option_bind].
  change (Get (VObject m) Key.colors)
    with (Some (own_property (lit "colors") m)).
  change (Get (VObject m) Key.typography)
    with (Some (own_property (lit "typography") m)).
  change (Get (VObject m) Key.spacing)
    with (Some (own_property (lit "spacing") m)).
  change (Get (VObject m) Key.radius)
    with (Some (own_property (lit "radius") m)).
  change (Get (VObject m) Key.animations)
    with (Some (own_property (lit "animations") m)).
  change (Get (VObject m) Key.elevation)
    with (Some (own_property (lit "elevation") m)).
  rewrite Ec, Ety, Esp, Ean, Eel, Era.
  cbn [option_bind array_receiver]. rewrite Esw. cbn [option_bind].
  change (Get (VObject ty) Key.headings)
    with (Some (own_property (lit "headings") ty)).
  change (Get (VObject ty) Key.body)
    with (Some (own_property (lit "body") ty)).
  change (Get (VObject ty) Key.weights)
    with (Some (own_property (lit "weights") ty)).
  rewrite Ew. cbn [option_bind array_receiver].
  eexists. split; [reflexivity|]. split; [reflexivity|].
  unfold panel_children.
  cbn [panel_colors panel_headings panel_body panel_weights panel_spacing
       panel_radius panel_animations panel_elevation].
  rewrite !forallb_app. cbn [forallb is_string].
  now rewrite Hsw, Hh, Hb, Hsp, Hra, Han, Hel.
Qed.

(** X23.  A successful analysis whose model-supplied fields are typed is
    displayed.  If the model's [tokens] and [prompt] are truthy and every
    truthy field of [tokens] has its declared type, then after
    [analyzeDesign] the right column is the results panel: no expression
    of the panel throws, every child handed to React is a string, the
    absent fields being shown with the route's defaults, and the textarea
    holds the model's prompt as it arrives through JSON: the prompt
    itself when it is a string. *)
Theorem typed_analysis_is_displayed
        env w ToString null_read_message st img a t p :
  image st = Some img -> img <> [] ->
  parsed env (posting img) a ->
  Get a Key.tokens = Some t -> Get a Key.prompt = Some p ->
  truthy t = true -> truthy p = true ->
  truthy_fields_typed t = true ->
  exists panel,
    right_column ToString
      (analyzeDesign ToString null_read_message (served env w) st)
    = ResultsPanel panel /\
    panel_prompt panel = through_JSON p /\
    (is_string p = true -> panel_prompt panel = p) /\
    forallb is_string (panel_children panel) = true.
Proof.
  intros Hi Hne Hp Ht Hpr Tt Tp Hty.
  pose proof (POST_present env (posting img) a t p w Hp Ht Hpr Tt Tp) as E.
  rewrite (analyzeDesign_success ToString null_read_message (served env w)
             st img (through_JSON (body (success (filled t) p))) Hi Hne)
    by (rewrite served_posting, E; reflexivity).
  rewrite (through_JSON_success t p Tp).
  rewrite <- is_DesignTokens_filled, <- is_DesignTokens_through_JSON in Hty.
  destruct (typed_result_renders ToString (through_JSON (filled t))
              (through_JSON p) Hty)
    as (panel & Er & Hpp & Hch).
  exists panel. split; [|split; [exact Hpp|split; [|exact Hch]]].
  - unfold right_column.
    change (result _) with
      (Some (VObject [(lit "tokens", through_JSON (filled t));
                      (lit "prompt", through_JSON p)])).
    change (truthy (VObject [(lit "tokens", through_JSON (filled t));
                             (lit "prompt", through_JSON p)]))
      with true.
    cbv iota. now rewrite Er.
  - intros Hs. now rewrite Hpp, (through_JSON_string p Hs).
Qed.

Lemma typed_analysis_is_displayed_witness :
  let env := stubbed a_key (Responded (completion red_reply)) in
  let st := {| image := Some a_png; fileName := lit "home.png";
               isLoading := false; error := None; result := None;
               isDragging := false; copied := false |} in
  exists panel,
    right_column (fun _ => [])
      (analyzeDesign (fun _ => []) [] (served env fresh_world) st)
    = ResultsPanel panel /\
    panel_prompt panel
    = through_JSON (VString (lit "Use a red background...")) /\
    (is_string (VString (lit "Use a red background...")) = true ->
     panel_prompt panel = VString (lit "Use a red background...")) /\
    forallb is_string (panel_children panel) = true.
Proof.
  intros env st.
  refine (typed_analysis_is_displayed env fresh_world (fun _ => []) [] st a_png
            (VObject
               [(lit "tokens",
                 VObject
                   [(lit "colors",
                     VArray [VObject [(lit "name", VString (lit "Red"));
                                      (lit "hex", VString (lit "#FF0000"))]])]);
                (lit "prompt", VString (lit "Use a red background..."))])
            _ _ eq_refl _ _ eq_refl eq_refl eq_refl eq_refl eq_refl).
  - discriminate.
  - apply stubbed_parsed; [discriminate | reflexivity].
Defined.

Lemma results_panel_needs_lists ToString r tokens k :
  Get r Key.tokens = Some tokens ->
  In k [Key.colors; Key.spacing; Key.radius; Key.animations; Key.elevation] ->
  (forall v, Get tokens k = Some v -> array_receiver v = None) ->
  results_panel ToString r = None.
Proof.
  intros Ht Hk Hv. unfold results_panel. rewrite Ht. cbn [option_bind].
  repeat match goal with
         | |- option_bind ?o _ = None =>
             let E := fresh "E" in
             destruct o eqn:E; cbn [option_bind]; [|reflexivity]
         end.
  exfalso. cbn [In] in Hk.
  repeat (destruct Hk as [<-|Hk]);
    try match goal with
        | Hg : Get tokens ?k0 = Some ?v, Ha : array_receiver ?v = Some _ |- _ =>
            rewrite (Hv v Hg) in Ha; discriminate Ha
        end.
  exact Hk.
Qed.

Lemma Get_filled t k :
  In k [Key.colors; Key.spacing; Key.radius; Key.animations; Key.elevation] ->
  truthy (optional_Get t k) = true ->
  Get (filled t) k = Some (optional_Get t k).
Proof.
  cbn [In]. intros [<-|[<-|[<-|[<-|[<-|[]]]]]] T;
    [ change (Some (filled_field t Key.colors default_colors)
              = Some (optional_Get t Key.colors))
    | change (Some (filled_field t Key.spacing default_spacing)
              = Some (optional_Get t Key.spacing))
    | change (Some (filled_field t Key.radius default_radius)
              = Some (optional_Get t Key.radius))
    | change (Some (filled_field t Key.animations default_animations)
              = Some (optional_Get t Key.animations))
    | change (Some (filled_field t Key.elevation default_elevation)
              = Some (optional_Get t Key.elevation)) ];
    unfold filled_field, or_else; now rewrite T.
Qed.

Lemma Get_through_JSON_filled t k :
  In k [Key.colors; Key.spacing; Key.radius; Key.animations; Key.elevation] ->
  truthy (optional_Get t k) = true ->
  Get (through_JSON (filled t)) k = Some (through_JSON (optional_Get t k)).
Proof.
  intros Hk T. pose proof (Get_filled t k Hk T) as G.
  unfold filled in G |- *. rewrite Get_through_JSON_object.
  cbn [Get] in G. injection G as ->. reflexivity.
Qed.

(** X24.  A 200 of the route can break the page.  The route checks the
    model's fields for truthiness only, and the panel calls [.map] on five
    of them: if the model's [tokens] and [prompt] are truthy and one of
    [colors], [spacing], [radius], [animations], [elevation] is truthy
    but not an array, the route answers 200 and the render that follows
    [analyzeDesign] throws a TypeError instead of showing the panel. *)
Theorem untyped_list_breaks_render
        env w ToString null_read_message st img a t p k :
  image st = Some img -> img <> [] ->
  parsed env (posting img) a ->
  Get a Key.tokens = Some t -> Get a Key.prompt = Some p ->
  truthy t = true -> truthy p = true ->
  In k [Key.colors; Key.spacing; Key.radius; Key.animations; Key.elevation] ->
  truthy (optional_Get t k) = true ->
  array_receiver (optional_Get t k) = None ->
  status (fst (POST env (posting img) w)) = 200%Z /\
  right_column ToString
    (analyzeDesign ToString null_read_message (served env w) st)
  = RenderThrows.
Proof.
  intros Hi Hne Hp Ht Hpr Tt Tp Hk Tk Hna.
  pose proof (POST_present env (posting img) a t p w Hp Ht Hpr Tt Tp) as E.
  split; [now rewrite E|].
  rewrite (analyzeDesign_success ToString null_read_message (served env w)
             st img (through_JSON (body (success (filled t) p))) Hi Hne)
    by (rewrite served_posting, E; reflexivity).
  rewrite (through_JSON_success t p Tp).
  unfold right_column.
  change (result _) with
    (Some (VObject [(lit "tokens", through_JSON (filled t));
                    (lit "prompt", through_JSON p)])).
  change (truthy (VObject [(lit "tokens", through_JSON (filled t));
                           (lit "prompt", through_JSON p)]))
    with true.
  cbv iota.
  rewrite (results_panel_needs_lists ToString
             (VObject [(lit "tokens", through_JSON (filled t));
                       (lit "prompt", through_JSON p)])
             (through_JSON (filled t)) k eq_refl Hk);
    [reflexivity|].
  intros v Hv. rewrite (Get_through_JSON_filled t k Hk Tk) in Hv.
  injection Hv as <-. now apply array_receiver_through_JSON.
Qed.

Lemma untyped_list_breaks_render_witness :
  let env := stubbed a_key
               (Responded
                  (completion
                     (quoted "{'tokens':{'spacing':'8px'},'prompt':'p'}"))) in
  let st := {| image := Some a_png; fileName := lit "home.png";
               isLoading := false; error := None; result := None;
               isDragging := false; copied := false |} in
  status (fst (POST env (posting a_png) fresh_world)) = 200%Z /\
  right_column (fun _ => [])
    (analyzeDesign (fun _ => []) [] (served env fresh_world) st)
  = RenderThrows.
Proof.
  intros env st.
  refine (untyped_list_breaks_render env fresh_world (fun _ => []) [] st a_png
            (VObject
               [(lit "tokens", VObject [(lit "spacing", VString (lit "8px"))]);
                (lit "prompt", VString (lit "p"))])
            _ _ Key.spacing eq_refl _ _ eq_refl eq_refl eq_refl eq_refl
            _ eq_refl eq_refl).
  - discriminate.
  - apply stubbed_parsed; [discriminate | reflexivity].
  - simpl. auto.
Defined.
